(** * Network steering (src/ap/net_steering.c): a shallow embedding

    The per-client steering state machine, the TLV codec and the receive
    path of hostapd's network steering module, written as Rocq functions
    that follow the C source function by function, and the properties of
    the specification stated over them.

    Conventions.
    - Unsigned C integers are [Z] values with the wrap-around written out
      ([to_u8], [to_u16], [to_u32]).
    - A MAC address or BSSID ([u8 x[ETH_ALEN]]) is a 6-tuple of bytes, so
      that [os_memcpy (.., ETH_ALEN)] is assignment and
      [os_memcmp (.., ETH_ALEN) == 0] is equality of the six bytes.
    - A [struct wpabuf] is the list of the bytes put so far; a received
      buffer is the list of its [len] bytes.
    - A [struct net_steering_client *] is a record taken out of the
      registry, worked on, and stored back under its MAC.
    - Calls that leave the module (L2 send, blacklist, disassociate, BSS
      transition request, the logger lines of the state machine) are
      appended, in program order, to a trace; the other logger lines
      (debug lines and warnings) are not.
    - The event loop is outside the module: whether a call of
      [eloop_register_timeout] succeeds is given, call by call, by
      [eloop_register_fails] of the context, and what is pending is counted
      per client and handler. *)

From Stdlib Require Import ZArith List Bool Lia.
From Stdlib Require String.
Import ListNotations.
Open Scope Z_scope.

(** ** Machine integers *)

Definition to_u8 (x : Z) : Z := x mod 256.
Definition to_u16 (x : Z) : Z := x mod 65536.
Definition to_u32 (x : Z) : Z := x mod 4294967296.

Definition INT_MIN : Z := -2147483648.
Definition INT_MAX : Z := 2147483647.

(** Conversion of a mathematical integer to [int] (two's complement). *)
Definition to_int (x : Z) : Z := (x + 2147483648) mod 4294967296 - 2147483648.

(** libc [abs] on [int].  [abs(INT_MIN)] is not defined by C; the model
    gives it the two's complement result [INT_MIN]. *)
Definition abs (x : Z) : Z := to_int (Z.abs x).

(** ** Constants of the module *)

Definition MAX_FRAME_SIZE : Z := 1024.
Definition proto : Z := 0x8267.
Definition tlv_magic : Z := 48.
Definition tlv_version : Z := 1.
(** [static const u16 max_score = -1;] *)
Definition max_score : Z := to_u16 (-1).

Definition flood_timeout_secs : Z := 1.
Definition client_timeout_secs : Z := 10.
Definition probe_timeout_secs : Z := 34.

Definition TLV_SCORE : Z := 0.
Definition TLV_CLOSE_CLIENT : Z := 1.
Definition TLV_CLOSED_CLIENT : Z := 2.
Definition TLV_MAP : Z := 3.
Definition TLV_CLIENT_FLAGS : Z := 4.

Definition ETH_ALEN : Z := 6.

(** ** MAC addresses *)

Definition mac : Type := (Z * Z * Z * Z * Z * Z)%type.

Definition mac_zero : mac := (0, 0, 0, 0, 0, 0).

(** The six bytes, in memory order. *)
Definition mac_bytes (m : mac) : list Z :=
  let '(a, b, c, d, e, f) := m in [a; b; c; d; e; f].

(** [os_memcmp(a, b, ETH_ALEN) == 0] *)
Definition mac_eqb (x y : mac) : bool :=
  let '(a, b, c, d, e, f) := x in
  let '(a', b', c', d', e', f') := y in
  (a =? a') && (b =? b') && (c =? c') && (d =? d') && (e =? e') && (f =? f').

(** ** Time *)

Record os_time : Type := mk_os_time { sec : Z; usec : Z }.

Definition os_time_zero : os_time := mk_os_time 0 0.

(** Modelled from the spec: [os_time_before] is a macro of utils/os.h,
    which is not part of the sources at hand; the specification uses it as
    "strictly later", the lexicographic order on (sec, usec). *)
Definition os_time_before (a b : os_time) : bool :=
  (sec a <? sec b) || ((sec a =? sec b) && (usec a <? usec b)).

(** Modelled from the spec: [os_time_sub] is a macro of utils/os.h, which
    is not part of the sources at hand; the specification uses it as the
    difference [a - b] of two times, with [usec] kept in [0, 1000000). *)
Definition os_time_sub (a b : os_time) : os_time :=
  let s := sec a - sec b in
  let u := usec a - usec b in
  if u <? 0 then mk_os_time (s - 1) (u + 1000000) else mk_os_time s u.

(** ** Byte buffers *)

Definition wpabuf : Type := list Z.

Definition wpabuf_alloc (size : Z) : wpabuf := [].
Definition wpabuf_len (buf : wpabuf) : Z := Z.of_nat (length buf).
Definition wpabuf_put_u8 (buf : wpabuf) (x : Z) : wpabuf := buf ++ [x].
Definition wpabuf_put_data (buf : wpabuf) (data : list Z) : wpabuf := buf ++ data.

(** The two bytes of [htons(v)] and the four bytes of [htonl(v)], in
    memory order: most significant byte first. *)
Definition htons_bytes (v : Z) : list Z := [(v / 256) mod 256; v mod 256].
Definition htonl_bytes (v : Z) : list Z :=
  [(v / 16777216) mod 256; (v / 65536) mod 256; (v / 256) mod 256; v mod 256].

(** [ntohs] / [ntohl] of two / four bytes copied from memory. *)
Definition ntohs_bytes (b0 b1 : Z) : Z := b0 * 256 + b1.
Definition ntohl_bytes (b0 b1 b2 b3 : Z) : Z :=
  b0 * 16777216 + b1 * 65536 + b2 * 256 + b3.

(** [n] bytes copied from [buf + off]; [None] when the copy would run past
    the bytes the buffer holds (the C code then reads memory that is not
    part of the received frame). *)
Definition mem_read (buf : list Z) (off : Z) (n : nat) : option (list Z) :=
  if (0 <=? off) && (off + Z.of_nat n <=? Z.of_nat (length buf))
  then Some (firstn n (skipn (Z.to_nat off) buf))
  else None.

(** Result of one of the [parse_*] functions. *)
Inductive parsed (A : Type) : Type :=
| P_zero : parsed A                 (* returned 0: [len] below the fixed size *)
| P_read : Z -> A -> parsed A       (* returned [num_read], out-parameters set *)
| P_overrun : parsed A.             (* the copy leaves the received bytes *)
Arguments P_zero {A}.
Arguments P_read {A} _ _.
Arguments P_overrun {A}.

(** ** Codec: writers *)

Definition put_tlv_header (buf : wpabuf) (tlv_type tlv_len : Z) : wpabuf :=
  wpabuf_put_u8 (wpabuf_put_u8 buf tlv_type) tlv_len.

Definition score_len : Z := to_u8 (ETH_ALEN + ETH_ALEN + 2 + 4).
Definition close_len : Z := to_u8 (ETH_ALEN + ETH_ALEN + ETH_ALEN + 1).
Definition closed_len : Z := to_u8 (ETH_ALEN + ETH_ALEN).

Definition put_score (buf : wpabuf) (sta bssid : mac) (score association_msecs : Z)
  : wpabuf :=
  let buf := put_tlv_header buf TLV_SCORE score_len in
  let buf := wpabuf_put_data buf (mac_bytes sta) in
  let buf := wpabuf_put_data buf (mac_bytes bssid) in
  let buf := wpabuf_put_data buf (htons_bytes score) in
  wpabuf_put_data buf (htonl_bytes association_msecs).

Definition put_close_client (buf : wpabuf) (sta bssid remote_bssid : mac)
  (channel : Z) : wpabuf :=
  let buf := put_tlv_header buf TLV_CLOSE_CLIENT close_len in
  let buf := wpabuf_put_data buf (mac_bytes sta) in
  let buf := wpabuf_put_data buf (mac_bytes bssid) in
  let buf := wpabuf_put_data buf (mac_bytes remote_bssid) in
  wpabuf_put_u8 buf channel.

Definition put_closed_client (buf : wpabuf) (sta bssid : mac) : wpabuf :=
  let buf := put_tlv_header buf TLV_CLOSED_CLIENT closed_len in
  let buf := wpabuf_put_data buf (mac_bytes sta) in
  wpabuf_put_data buf (mac_bytes bssid).

Definition header_put (buf : wpabuf) (sn : Z) : wpabuf :=
  let buf := wpabuf_put_u8 buf tlv_magic in
  let buf := wpabuf_put_u8 buf tlv_version in
  let buf := wpabuf_put_data buf [0; 0] in
  wpabuf_put_data buf (htons_bytes sn).

(** Writes [htons(wpabuf_len(buf))] over the two bytes that follow the
    magic and the version. *)
Definition header_finalize (buf : wpabuf) : wpabuf :=
  firstn 2 buf ++ htons_bytes (to_u16 (wpabuf_len buf)) ++ skipn 4 buf.

(** ** Codec: parsers *)

Definition mac_of_bytes (l : list Z) : mac :=
  match l with
  | [a; b; c; d; e; f] => (a, b, c, d, e, f)
  | _ => mac_zero
  end.

Definition read_mac (buf : list Z) (off : Z) : option mac :=
  option_map mac_of_bytes (mem_read buf off 6).

Definition read_u8 (buf : list Z) (off : Z) : option Z :=
  match mem_read buf off 1 with
  | Some [a] => Some a
  | _ => None
  end.

Definition read_u16 (buf : list Z) (off : Z) : option Z :=
  match mem_read buf off 2 with
  | Some [a; b] => Some (ntohs_bytes a b)
  | _ => None
  end.

Definition read_u32 (buf : list Z) (off : Z) : option Z :=
  match mem_read buf off 4 with
  | Some [a; b; c; d] => Some (ntohl_bytes a b c d)
  | _ => None
  end.

Record frame_header : Type := mk_frame_header {
  h_magic : Z; h_version : Z; h_packet_len : Z; h_sn : Z
}.

(** [buf] is the memory at the pointer argument, [len] the length
    argument. *)
Definition parse_header (buf : list Z) (len : Z) : parsed frame_header :=
  let header_len := 1 + 1 + 2 + 2 in
  if len <? header_len then P_zero
  else
    match read_u8 buf 0, read_u8 buf 1, read_u16 buf 2, read_u16 buf 4 with
    | Some magic, Some version, Some packet_len, Some sn =>
        P_read 6 (mk_frame_header magic version packet_len sn)
    | _, _, _, _ => P_overrun
    end.

Definition parse_tlv_header (buf : list Z) (len : Z) : parsed (Z * Z) :=
  let header_len := 1 + 1 in
  if len <? header_len then P_zero
  else
    match read_u8 buf 0, read_u8 buf 1 with
    | Some tlv_type, Some tlv_len => P_read 2 (tlv_type, tlv_len)
    | _, _ => P_overrun
    end.

Record score_tlv : Type := mk_score_tlv {
  sc_sta : mac; sc_bssid : mac; sc_score : Z; sc_association_msecs : Z
}.

Record close_client_tlv : Type := mk_close_client_tlv {
  cc_sta : mac; cc_bssid : mac; cc_target_bssid : mac; cc_channel : Z
}.

Record closed_client_tlv : Type := mk_closed_client_tlv {
  cd_sta : mac; cd_target_bssid : mac
}.

Definition parse_score (buf : list Z) (len : Z) : parsed score_tlv :=
  if len <? score_len then P_zero
  else
    match read_mac buf 0, read_mac buf 6, read_u16 buf 12, read_u32 buf 14 with
    | Some sta, Some bssid, Some score, Some association_msecs =>
        P_read 18 (mk_score_tlv sta bssid score association_msecs)
    | _, _, _, _ => P_overrun
    end.

Definition parse_close_client (buf : list Z) (len : Z) : parsed close_client_tlv :=
  if len <? close_len then P_zero
  else
    match read_mac buf 0, read_mac buf 6, read_mac buf 12, read_u8 buf 18 with
    | Some sta, Some bssid, Some target_bssid, Some channel =>
        P_read 19 (mk_close_client_tlv sta bssid target_bssid channel)
    | _, _, _, _ => P_overrun
    end.

Definition parse_closed_client (buf : list Z) (len : Z) : parsed closed_client_tlv :=
  if len <? closed_len then P_zero
  else
    match read_mac buf 0, read_mac buf 6 with
    | Some sta, Some target_bssid =>
        P_read 12 (mk_closed_client_tlv sta target_bssid)
    | _, _ => P_overrun
    end.

(** ** Scoring *)

(** [return (u16) abs(rssi);] *)
Definition compute_score (rssi : Z) : Z := to_u16 (abs rssi).

(** ** Data model *)

Inductive STEERING_state : Type :=
| STEERING_IDLE
| STEERING_CONFIRMING
| STEERING_ASSOCIATING
| STEERING_ASSOCIATED
| STEERING_REJECTING
| STEERING_REJECTED.

Inductive STEERING_event : Type :=
| STEERING_E_ASSOCIATED
| STEERING_E_DISASSOCIATED
| STEERING_E_PEER_IS_WORSE
| STEERING_E_PEER_NOT_WORSE
| STEERING_E_PEER_LOST_CLIENT
| STEERING_E_CLOSE_CLIENT
| STEERING_E_CLOSED_CLIENT
| STEERING_E_TIMEOUT.

Inductive steering_mode : Type := MODE_OFF | MODE_SUGGEST | MODE_FORCE.

Definition state_eqb (a b : STEERING_state) : bool :=
  match a, b with
  | STEERING_IDLE, STEERING_IDLE
  | STEERING_CONFIRMING, STEERING_CONFIRMING
  | STEERING_ASSOCIATING, STEERING_ASSOCIATING
  | STEERING_ASSOCIATED, STEERING_ASSOCIATED
  | STEERING_REJECTING, STEERING_REJECTING
  | STEERING_REJECTED, STEERING_REJECTED => true
  | _, _ => false
  end.

Definition mode_eqb (a b : steering_mode) : bool :=
  match a, b with
  | MODE_OFF, MODE_OFF | MODE_SUGGEST, MODE_SUGGEST | MODE_FORCE, MODE_FORCE => true
  | _, _ => false
  end.

(** The part of [struct sta_info] the module reads. *)
Record sta_info : Type := mk_sta_info {
  sta_addr : mac;
  dot11MgmtOptionBSSTransitionActivated : Z
}.

(** [struct net_steering_client].  The member [STEERING_event] of the C
    struct is never read or written and is left out.  The last four
    fields are not members of the C struct.  Three of them count the
    timeouts pending in the event loop with this client as [eloop_data],
    one counter per handler ([flood_score], [client_timeout],
    [probe_timeout]); [registrations] counts the calls of
    [eloop_register_timeout] made for this client so far, successful or
    not. *)
Record net_steering_client : Type := mk_client {
  sta : option sta_info;
  score : Z;
  STEERING_state_ : STEERING_state;
  changed : bool;
  addr : mac;
  close_bssid : mac;
  remote_bssid : mac;
  remote_time : os_time;
  association_time : os_time;
  remote_channel : Z;
  flood_timeouts : nat;
  client_timeouts : nat;
  probe_timeouts : nat;
  registrations : nat
}.

(** The parts of [struct hostapd_data] the module reads:
    [hapd->conf->bssid], [hapd->own_addr], the addresses of
    [hapd->conf->r0kh_list] and [hapd->iconf->channel].  The last field
    is not a member of the C struct: it is the event loop the access
    point runs in, as far as the module can tell it from another one.
    [eloop_register_fails a n] tells whether the call of
    [eloop_register_timeout] that is the [n]-th made for the client with
    MAC [a] (counting from 0) fails; any function is a possible event
    loop. *)
Record hostapd_data : Type := mk_hapd {
  conf_bssid : mac;
  own_addr : mac;
  r0kh_list : list mac;
  iconf_channel : Z;
  eloop_register_fails : mac -> nat -> bool
}.

(** [struct net_steering_bss]; [clients] is the [dl_list] from its head. *)
Record net_steering_bss : Type := mk_nsb {
  clients : list net_steering_client;
  hapd : hostapd_data;
  frame_sn : Z;
  mode : steering_mode
}.

(** Calls that leave the module. *)
Inductive effect : Type :=
| l2_packet_send (dst : mac) (eth_proto : Z) (frame : list Z)
| hostapd_ctrl_iface_blacklist_add (m : mac)
| hostapd_ctrl_iface_blacklist_rm (m : mac)
| hostapd_ctrl_iface_disassociate (m : mac)
| wnm_send_bss_tm_req2 (sta_mac : mac) (timeout : Z) (bssid : mac) (channel : Z)
| log_transition (from to : STEERING_state) (m : mac) (e : STEERING_event)
| log_default (m : mac) (st : STEERING_state) (e : STEERING_event).

(** What a function working on one client can change: the client, the
    serial number of its context, and the trace. *)
Record cstate : Type := mk_cstate {
  sm : net_steering_client;
  sn : Z;
  tr : list effect
}.

Definition upd (f : net_steering_client -> net_steering_client) (s : cstate) : cstate :=
  mk_cstate (f (sm s)) (sn s) (tr s).

Definition emit (e : effect) (s : cstate) : cstate :=
  mk_cstate (sm s) (sn s) (tr s ++ [e]).

(** Field assignments. *)
Definition set_sta v c :=
  mk_client v (score c) (STEERING_state_ c) (changed c) (addr c) (close_bssid c)
    (remote_bssid c) (remote_time c) (association_time c) (remote_channel c)
    (flood_timeouts c) (client_timeouts c) (probe_timeouts c) (registrations c).
Definition set_score v c :=
  mk_client (sta c) v (STEERING_state_ c) (changed c) (addr c) (close_bssid c)
    (remote_bssid c) (remote_time c) (association_time c) (remote_channel c)
    (flood_timeouts c) (client_timeouts c) (probe_timeouts c) (registrations c).
Definition set_state v c :=
  mk_client (sta c) (score c) v (changed c) (addr c) (close_bssid c)
    (remote_bssid c) (remote_time c) (association_time c) (remote_channel c)
    (flood_timeouts c) (client_timeouts c) (probe_timeouts c) (registrations c).
Definition set_changed v c :=
  mk_client (sta c) (score c) (STEERING_state_ c) v (addr c) (close_bssid c)
    (remote_bssid c) (remote_time c) (association_time c) (remote_channel c)
    (flood_timeouts c) (client_timeouts c) (probe_timeouts c) (registrations c).
Definition set_addr v c :=
  mk_client (sta c) (score c) (STEERING_state_ c) (changed c) v (close_bssid c)
    (remote_bssid c) (remote_time c) (association_time c) (remote_channel c)
    (flood_timeouts c) (client_timeouts c) (probe_timeouts c) (registrations c).
Definition set_close_bssid v c :=
  mk_client (sta c) (score c) (STEERING_state_ c) (changed c) (addr c) v
    (remote_bssid c) (remote_time c) (association_time c) (remote_channel c)
    (flood_timeouts c) (client_timeouts c) (probe_timeouts c) (registrations c).
Definition set_remote_bssid v c :=
  mk_client (sta c) (score c) (STEERING_state_ c) (changed c) (addr c) (close_bssid c)
    v (remote_time c) (association_time c) (remote_channel c)
    (flood_timeouts c) (client_timeouts c) (probe_timeouts c) (registrations c).
Definition set_remote_time v c :=
  mk_client (sta c) (score c) (STEERING_state_ c) (changed c) (addr c) (close_bssid c)
    (remote_bssid c) v (association_time c) (remote_channel c)
    (flood_timeouts c) (client_timeouts c) (probe_timeouts c) (registrations c).
Definition set_association_time v c :=
  mk_client (sta c) (score c) (STEERING_state_ c) (changed c) (addr c) (close_bssid c)
    (remote_bssid c) (remote_time c) v (remote_channel c)
    (flood_timeouts c) (client_timeouts c) (probe_timeouts c) (registrations c).
Definition set_remote_channel v c :=
  mk_client (sta c) (score c) (STEERING_state_ c) (changed c) (addr c) (close_bssid c)
    (remote_bssid c) (remote_time c) (association_time c) v
    (flood_timeouts c) (client_timeouts c) (probe_timeouts c) (registrations c).
Definition set_flood_timeouts v c :=
  mk_client (sta c) (score c) (STEERING_state_ c) (changed c) (addr c) (close_bssid c)
    (remote_bssid c) (remote_time c) (association_time c) (remote_channel c)
    v (client_timeouts c) (probe_timeouts c) (registrations c).
Definition set_client_timeouts v c :=
  mk_client (sta c) (score c) (STEERING_state_ c) (changed c) (addr c) (close_bssid c)
    (remote_bssid c) (remote_time c) (association_time c) (remote_channel c)
    (flood_timeouts c) v (probe_timeouts c) (registrations c).
Definition set_probe_timeouts v c :=
  mk_client (sta c) (score c) (STEERING_state_ c) (changed c) (addr c) (close_bssid c)
    (remote_bssid c) (remote_time c) (association_time c) (remote_channel c)
    (flood_timeouts c) (client_timeouts c) v (registrations c).
Definition set_registrations v c :=
  mk_client (sta c) (score c) (STEERING_state_ c) (changed c) (addr c) (close_bssid c)
    (remote_bssid c) (remote_time c) (association_time c) (remote_channel c)
    (flood_timeouts c) (client_timeouts c) (probe_timeouts c) v.

(** ** Event loop timeouts

    Modelled from the spec: [eloop_register_timeout] and
    [eloop_cancel_timeout] belong to utils/eloop, which is not part of the
    sources at hand.  The specification has them as
    [schedule_after(delay, callback)], which adds one pending timeout or
    fails ("timer scheduling failure": the callers test the result, log
    a warning and go on, and then no timer is armed), and
    [cancel(callback)], idempotent, after which none is pending for that
    callback and client; a timeout that fires is no longer pending when
    its handler runs. *)
Definition eloop_register_timeout (fails : bool) (pending : nat) : nat :=
  if fails then pending else S pending.
Definition eloop_cancel_timeout (pending : nat) : nat := O.
Definition eloop_timeout_fired (pending : nat) : nat := Nat.pred pending.

(** ** Accessors and timers of a client *)

Definition client_update_remote (bssid : mac) (local_t : os_time)
  (c : net_steering_client) : net_steering_client :=
  set_remote_time (mk_os_time (sec local_t) (usec local_t)) (set_remote_bssid bssid c).

Definition client_get_remote_bssid (c : net_steering_client) : mac := remote_bssid c.
Definition client_set_close_bssid (bssid : mac) c := set_close_bssid bssid c.
Definition client_get_close_bssid (c : net_steering_client) : mac := close_bssid c.
Definition client_clear_close_bssid c := set_close_bssid mac_zero c.
Definition client_get_mac (c : net_steering_client) : mac := addr c.

(** [os_zalloc] followed by the assignments of [client_create]. *)
Definition client_new (a : mac) : net_steering_client :=
  mk_client None max_score STEERING_IDLE false a mac_zero mac_zero
    (mk_os_time 0 0) os_time_zero 0 O O O O.

(** One call of [eloop_register_timeout] for client [c]: whether it
    fails, and the client with the call counted. *)
Definition client_register (h : hostapd_data) (c : net_steering_client)
  : bool * net_steering_client :=
  (eloop_register_fails h (addr c) (registrations c),
   set_registrations (S (registrations c)) c).

(** The three functions that start a timer test the result of
    [eloop_register_timeout]; on a failure they write a warning to the
    logger and return, with no timeout added. *)
Definition start_flood_timer (h : hostapd_data) c :=
  let (fails, c) := client_register h c in
  set_flood_timeouts (eloop_register_timeout fails (flood_timeouts c)) c.

Definition stop_flood_timer c :=
  let c := set_score max_score c in
  set_flood_timeouts (eloop_cancel_timeout (flood_timeouts c)) c.

Definition client_start_timer (h : hostapd_data) c :=
  let (fails, c) := client_register h c in
  set_client_timeouts (eloop_register_timeout fails (client_timeouts c)) c.

Definition client_stop_timer c :=
  set_client_timeouts (eloop_cancel_timeout (client_timeouts c)) c.

Definition client_start_probe_timer (h : hostapd_data) c :=
  let (fails, c) := client_register h c in
  set_probe_timeouts (eloop_register_timeout fails (probe_timeouts c)) c.

Definition client_stop_probe_timer c :=
  set_probe_timeouts (eloop_cancel_timeout (probe_timeouts c)) c.

(** Only called on a client whose [sta] is set; without one the C code
    dereferences a null pointer, the model answers [false]. *)
Definition client_supports_bss_transition (c : net_steering_client) : bool :=
  match sta c with
  | Some s => dot11MgmtOptionBSSTransitionActivated s =? 1
  | None => false
  end.

Definition client_associate (s : sta_info) c :=
  let c := set_sta (Some s) c in
  let c := set_addr (sta_addr s) c in
  client_stop_probe_timer c.

Definition client_is_associated (c : net_steering_client) : bool :=
  match sta c with
  | Some _ => state_eqb (STEERING_state_ c) STEERING_ASSOCIATED
  | None => false
  end.

(** ** Registry *)

Fixpoint client_find_in (l : list net_steering_client) (a : mac)
  : option net_steering_client :=
  match l with
  | [] => None
  | c :: r => if mac_eqb a (addr c) then Some c else client_find_in r a
  end.

Definition client_find (nsb : net_steering_bss) (a : mac) : option net_steering_client :=
  client_find_in (clients nsb) a.

(** Storing back the record of the client found under [addr c]: in C the
    functions write through the pointer [client_find] returned. *)
Fixpoint client_put_in (l : list net_steering_client) (c : net_steering_client)
  : list net_steering_client :=
  match l with
  | [] => []
  | x :: r => if mac_eqb (addr c) (addr x) then c :: r else x :: client_put_in r c
  end.

Definition set_clients (l : list net_steering_client) (nsb : net_steering_bss) :=
  mk_nsb l (hapd nsb) (frame_sn nsb) (mode nsb).

(** [client_create]: [alloc] tells whether [os_zalloc] succeeds;
    [dl_list_add] links the new client right after the list head. *)
Definition client_create (alloc : bool) (nsb : net_steering_bss) (a : mac)
  : option (net_steering_client * net_steering_bss) :=
  if alloc then
    let c := client_new a in
    Some (c, set_clients (c :: clients nsb) nsb)
  else None.

(** ** Flooding and actuators

    The functions of this section work on one client of one context;
    [bss_hapd] and [bss_mode] are [client->nsb->hapd] and
    [client->nsb->mode], which they only read. *)

Section Client.

Variable bss_hapd : hostapd_data.
Variable bss_mode : steering_mode.

Definition client_get_local_bssid : mac := conf_bssid bss_hapd.

(** The loop of [flood_message] over the [r0kh] list. *)
Fixpoint flood_message_to (peers : list mac) (buf : wpabuf) (t : list effect)
  : list effect :=
  match peers with
  | [] => t
  | dst :: r =>
      if negb (mac_eqb dst (own_addr bss_hapd))
      then flood_message_to r buf (t ++ [l2_packet_send dst proto buf])
      else flood_message_to r buf t
  end.

Definition flood_message (buf : wpabuf) (s : cstate) : cstate :=
  mk_cstate (sm s) (sn s) (flood_message_to (r0kh_list bss_hapd) buf (tr s)).

(** [header_put(buf, nsb->frame_sn++)]: the header takes the old serial
    number, the counter (a [u16]) moves on. *)
Definition header_put_next (s : cstate) : wpabuf * cstate :=
  (header_put (wpabuf_alloc MAX_FRAME_SIZE) (sn s),
   mk_cstate (sm s) (to_u16 (sn s + 1)) (tr s)).

Definition flood_closed_client (s : cstate) : cstate :=
  let (buf, s) := header_put_next s in
  let buf := put_closed_client buf (client_get_mac (sm s)) client_get_local_bssid in
  let buf := header_finalize buf in
  let s := flood_message buf s in
  upd client_clear_close_bssid s.

Definition flood_close_client (s : cstate) : cstate :=
  let (buf, s) := header_put_next s in
  let buf := put_close_client buf (client_get_mac (sm s)) client_get_local_bssid
               (client_get_remote_bssid (sm s)) (iconf_channel bss_hapd) in
  let buf := header_finalize buf in
  flood_message buf s.

(** [now] is the reading of [os_get_time]. *)
Definition do_flood_score (now : os_time) (s : cstate) : cstate :=
  if score (sm s) =? max_score then s
  else
    let delta_t := os_time_sub now (association_time (sm s)) in
    let associated_msecs := to_u32 (sec delta_t * 1000 + Z.quot (usec delta_t) 1000) in
    let (buf, s) := header_put_next s in
    let buf := put_score buf (client_get_mac (sm s)) client_get_local_bssid
                 (score (sm s)) associated_msecs in
    let buf := header_finalize buf in
    flood_message buf s.

(** The timer handler, run by the event loop for a timeout that fired. *)
Definition flood_score (now : os_time) (s : cstate) : cstate :=
  let s := upd (fun c => set_flood_timeouts (eloop_timeout_fired (flood_timeouts c)) c) s in
  let s := do_flood_score now s in
  upd (start_flood_timer bss_hapd) s.

(** [snprintf(mac, MACSTRLEN, MACSTR, ...)] always writes the 17
    characters of the address, so the early [return] on a zero result is
    never taken. *)
Definition do_client_disassociate (s : cstate) : cstate :=
  let transition_timeout := 0 in
  if client_is_associated (sm s) then
    if mode_eqb bss_mode MODE_SUGGEST || client_supports_bss_transition (sm s)
    then emit (wnm_send_bss_tm_req2 (client_get_mac (sm s)) transition_timeout
                 (client_get_close_bssid (sm s)) (remote_channel (sm s))) s
    else emit (hostapd_ctrl_iface_disassociate (client_get_mac (sm s))) s
  else s.

Definition do_client_blacklist_add (s : cstate) : cstate :=
  if mode_eqb bss_mode MODE_FORCE
  then emit (hostapd_ctrl_iface_blacklist_add (client_get_mac (sm s))) s
  else s.

Definition do_client_blacklist_rm (s : cstate) : cstate :=
  if mode_eqb bss_mode MODE_FORCE
  then emit (hostapd_ctrl_iface_blacklist_rm (client_get_mac (sm s))) s
  else s.

(** ** The state machine *)

(** Modelled from the spec: [SM_STATE], [SM_ENTRY] and [SM_ENTER] are
    macros of utils/state_machine.h, which is not part of the sources at
    hand.  The specification has the state "officially changed" after the
    transition action has run; [SM_ENTER(STEERING, tostate)] is that
    change, and it raises the [changed] flag of the machine. *)
Definition SM_ENTER (tostate : STEERING_state) (s : cstate) : cstate :=
  upd (fun c => set_state tostate (set_changed true c)) s.

(** The transition actions, one per [SM_EVENT]. *)
Definition sm_STEERING_IDLE_on_E_ASSOCIATED_ASSOCIATED (s : cstate) : cstate :=
  upd (start_flood_timer bss_hapd) s.

Definition sm_STEERING_IDLE_on_E_PEER_IS_WORSE_CONFIRMING (s : cstate) : cstate :=
  flood_close_client s.

Definition sm_STEERING_IDLE_on_E_PEER_NOT_WORSE_REJECTED (s : cstate) : cstate :=
  let s := do_client_blacklist_add s in
  upd (client_start_timer bss_hapd) s.

Definition sm_STEERING_IDLE_on_E_CLOSE_CLIENT_REJECTED (s : cstate) : cstate :=
  let s := flood_close_client s in
  let s := do_client_blacklist_add s in
  upd (client_start_timer bss_hapd) s.

Definition sm_STEERING_CONFIRMING_on_E_PEER_IS_WORSE_CONFIRMING (s : cstate) : cstate :=
  flood_close_client s.

Definition sm_STEERING_CONFIRMING_on_E_ASSOCIATED_ASSOCIATED (s : cstate) : cstate :=
  upd (start_flood_timer bss_hapd) s.

Definition sm_STEERING_ASSOCIATING_on_E_ASSOCIATED_ASSOCIATED (s : cstate) : cstate :=
  upd (start_flood_timer bss_hapd) s.

Definition sm_STEERING_ASSOCIATING_on_E_PEER_IS_WORSE_ASSOCIATING (s : cstate) : cstate :=
  flood_close_client s.

Definition sm_STEERING_ASSOCIATING_on_E_CLOSE_CLIENT_REJECTED (s : cstate) : cstate :=
  let s := flood_closed_client s in
  let s := do_client_blacklist_add s in
  upd (client_start_timer bss_hapd) s.

Definition sm_STEERING_ASSOCIATED_on_E_CLOSE_CLIENT_REJECTING (s : cstate) : cstate :=
  let s := do_client_blacklist_add s in
  let s := do_client_disassociate s in
  let s := upd (client_start_timer bss_hapd) s in
  upd stop_flood_timer s.

Definition sm_STEERING_ASSOCIATED_on_E_DISASSOCIATED_IDLE (s : cstate) : cstate :=
  upd stop_flood_timer s.

Definition sm_STEERING_ASSOCIATED_on_E_PEER_IS_WORSE_ASSOCIATED (s : cstate) : cstate :=
  flood_close_client s.

Definition sm_STEERING_REJECTING_on_E_DISASSOCIATED_REJECTED (s : cstate) : cstate :=
  let s := flood_closed_client s in
  let s := upd client_stop_timer s in
  upd (client_start_timer bss_hapd) s.

Definition sm_STEERING_REJECTING_on_E_PEER_IS_WORSE_CONFIRMING (s : cstate) : cstate :=
  let s := do_client_blacklist_rm s in
  let s := flood_close_client s in
  upd client_stop_timer s.

Definition sm_STEERING_REJECTING_on_E_PEER_LOST_CLIENT_CONFIRMING (s : cstate) : cstate :=
  let s := do_client_blacklist_rm s in
  upd client_stop_timer s.

Definition sm_STEERING_REJECTING_on_E_TIMEOUT_ASSOCIATING (s : cstate) : cstate :=
  let s := do_client_blacklist_rm s in
  upd client_stop_timer s.

Definition sm_STEERING_REJECTED_on_E_PEER_IS_WORSE_CONFIRMING (s : cstate) : cstate :=
  let s := do_client_blacklist_rm s in
  let s := flood_close_client s in
  upd client_stop_timer s.

Definition sm_STEERING_REJECTED_on_E_PEER_LOST_CLIENT_CONFIRMING (s : cstate) : cstate :=
  let s := do_client_blacklist_rm s in
  let s := flood_close_client s in
  upd client_stop_timer s.

Definition sm_STEERING_REJECTED_on_E_CLOSE_CLIENT_REJECTED (s : cstate) : cstate :=
  flood_close_client s.

Definition sm_STEERING_REJECTED_on_E_TIMEOUT_ASSOCIATING (s : cstate) : cstate :=
  let s := do_client_blacklist_rm s in
  upd client_stop_timer s.

(** The body of a matching [SM_TRANSITION]: logger line, action, entry of
    the new state. *)
Definition SM_TRANSITION (from : STEERING_state) (e : STEERING_event)
  (tostate : STEERING_state) (action : cstate -> cstate) (s : cstate) : cstate :=
  let s := emit (log_transition from tostate (client_get_mac (sm s)) e) s in
  let s := action s in
  SM_ENTER tostate s.

(** The body of a matching [SM_TRANS_NOOP]: no action. *)
Definition SM_TRANS_NOOP (from : STEERING_state) (e : STEERING_event)
  (tostate : STEERING_state) (s : cstate) : cstate :=
  let s := emit (log_transition from tostate (client_get_mac (sm s)) e) s in
  SM_ENTER tostate s.

(** [SM_STEP_EVENT(STEERING)]: the first transition whose state and event
    match is taken; the (state, event) pairs of the list are distinct. *)
Definition sm_STEERING_do_Event (event : STEERING_event) (s : cstate) : cstate :=
  match STEERING_state_ (sm s), event with
  | STEERING_IDLE, STEERING_E_ASSOCIATED =>
      SM_TRANSITION STEERING_IDLE STEERING_E_ASSOCIATED STEERING_ASSOCIATED
        sm_STEERING_IDLE_on_E_ASSOCIATED_ASSOCIATED s
  | STEERING_IDLE, STEERING_E_PEER_IS_WORSE =>
      SM_TRANSITION STEERING_IDLE STEERING_E_PEER_IS_WORSE STEERING_CONFIRMING
        sm_STEERING_IDLE_on_E_PEER_IS_WORSE_CONFIRMING s
  | STEERING_IDLE, STEERING_E_PEER_NOT_WORSE =>
      SM_TRANSITION STEERING_IDLE STEERING_E_PEER_NOT_WORSE STEERING_REJECTED
        sm_STEERING_IDLE_on_E_PEER_NOT_WORSE_REJECTED s
  | STEERING_IDLE, STEERING_E_PEER_LOST_CLIENT =>
      SM_TRANS_NOOP STEERING_IDLE STEERING_E_PEER_LOST_CLIENT STEERING_ASSOCIATING s
  | STEERING_IDLE, STEERING_E_CLOSE_CLIENT =>
      SM_TRANSITION STEERING_IDLE STEERING_E_CLOSE_CLIENT STEERING_REJECTED
        sm_STEERING_IDLE_on_E_CLOSE_CLIENT_REJECTED s

  | STEERING_CONFIRMING, STEERING_E_CLOSED_CLIENT =>
      SM_TRANS_NOOP STEERING_CONFIRMING STEERING_E_CLOSED_CLIENT STEERING_ASSOCIATING s
  | STEERING_CONFIRMING, STEERING_E_ASSOCIATED =>
      SM_TRANSITION STEERING_CONFIRMING STEERING_E_ASSOCIATED STEERING_ASSOCIATED
        sm_STEERING_CONFIRMING_on_E_ASSOCIATED_ASSOCIATED s
  | STEERING_CONFIRMING, STEERING_E_TIMEOUT =>
      SM_TRANS_NOOP STEERING_CONFIRMING STEERING_E_TIMEOUT STEERING_IDLE s
  | STEERING_CONFIRMING, STEERING_E_PEER_IS_WORSE =>
      SM_TRANSITION STEERING_CONFIRMING STEERING_E_PEER_IS_WORSE STEERING_CONFIRMING
        sm_STEERING_CONFIRMING_on_E_PEER_IS_WORSE_CONFIRMING s

  | STEERING_ASSOCIATING, STEERING_E_ASSOCIATED =>
      SM_TRANSITION STEERING_ASSOCIATING STEERING_E_ASSOCIATED STEERING_ASSOCIATED
        sm_STEERING_ASSOCIATING_on_E_ASSOCIATED_ASSOCIATED s
  | STEERING_ASSOCIATING, STEERING_E_DISASSOCIATED =>
      SM_TRANS_NOOP STEERING_ASSOCIATING STEERING_E_DISASSOCIATED STEERING_IDLE s
  | STEERING_ASSOCIATING, STEERING_E_PEER_IS_WORSE =>
      SM_TRANSITION STEERING_ASSOCIATING STEERING_E_PEER_IS_WORSE STEERING_ASSOCIATING
        sm_STEERING_ASSOCIATING_on_E_PEER_IS_WORSE_ASSOCIATING s
  | STEERING_ASSOCIATING, STEERING_E_CLOSE_CLIENT =>
      SM_TRANSITION STEERING_ASSOCIATING STEERING_E_CLOSE_CLIENT STEERING_REJECTED
        sm_STEERING_ASSOCIATING_on_E_CLOSE_CLIENT_REJECTED s

  | STEERING_ASSOCIATED, STEERING_E_CLOSE_CLIENT =>
      SM_TRANSITION STEERING_ASSOCIATED STEERING_E_CLOSE_CLIENT STEERING_REJECTING
        sm_STEERING_ASSOCIATED_on_E_CLOSE_CLIENT_REJECTING s
  | STEERING_ASSOCIATED, STEERING_E_DISASSOCIATED =>
      SM_TRANSITION STEERING_ASSOCIATED STEERING_E_DISASSOCIATED STEERING_IDLE
        sm_STEERING_ASSOCIATED_on_E_DISASSOCIATED_IDLE s
  | STEERING_ASSOCIATED, STEERING_E_PEER_IS_WORSE =>
      SM_TRANSITION STEERING_ASSOCIATED STEERING_E_PEER_IS_WORSE STEERING_ASSOCIATED
        sm_STEERING_ASSOCIATED_on_E_PEER_IS_WORSE_ASSOCIATED s

  | STEERING_REJECTING, STEERING_E_DISASSOCIATED =>
      SM_TRANSITION STEERING_REJECTING STEERING_E_DISASSOCIATED STEERING_REJECTED
        sm_STEERING_REJECTING_on_E_DISASSOCIATED_REJECTED s
  | STEERING_REJECTING, STEERING_E_PEER_IS_WORSE =>
      SM_TRANSITION STEERING_REJECTING STEERING_E_PEER_IS_WORSE STEERING_CONFIRMING
        sm_STEERING_REJECTING_on_E_PEER_IS_WORSE_CONFIRMING s
  | STEERING_REJECTING, STEERING_E_PEER_LOST_CLIENT =>
      SM_TRANSITION STEERING_REJECTING STEERING_E_PEER_LOST_CLIENT STEERING_CONFIRMING
        sm_STEERING_REJECTING_on_E_PEER_LOST_CLIENT_CONFIRMING s
  | STEERING_REJECTING, STEERING_E_TIMEOUT =>
      SM_TRANSITION STEERING_REJECTING STEERING_E_TIMEOUT STEERING_ASSOCIATING
        sm_STEERING_REJECTING_on_E_TIMEOUT_ASSOCIATING s

  | STEERING_REJECTED, STEERING_E_PEER_IS_WORSE =>
      SM_TRANSITION STEERING_REJECTED STEERING_E_PEER_IS_WORSE STEERING_CONFIRMING
        sm_STEERING_REJECTED_on_E_PEER_IS_WORSE_CONFIRMING s
  | STEERING_REJECTED, STEERING_E_PEER_LOST_CLIENT =>
      SM_TRANSITION STEERING_REJECTED STEERING_E_PEER_LOST_CLIENT STEERING_CONFIRMING
        sm_STEERING_REJECTED_on_E_PEER_LOST_CLIENT_CONFIRMING s
  | STEERING_REJECTED, STEERING_E_CLOSE_CLIENT =>
      SM_TRANSITION STEERING_REJECTED STEERING_E_CLOSE_CLIENT STEERING_REJECTED
        sm_STEERING_REJECTED_on_E_CLOSE_CLIENT_REJECTED s
  | STEERING_REJECTED, STEERING_E_TIMEOUT =>
      SM_TRANSITION STEERING_REJECTED STEERING_E_TIMEOUT STEERING_ASSOCIATING
        sm_STEERING_REJECTED_on_E_TIMEOUT_ASSOCIATING s

  (* By design, the default response is no state change *)
  | st, _ => emit (log_default (addr (sm s)) st event) s
  end.

(** Timer handlers, run by the event loop for a timeout that fired. *)
Definition client_timeout (s : cstate) : cstate :=
  let s := upd (fun c => set_client_timeouts (eloop_timeout_fired (client_timeouts c)) c) s in
  sm_STEERING_do_Event STEERING_E_TIMEOUT s.

Definition probe_timeout (s : cstate) : cstate :=
  let s := upd (fun c => set_probe_timeouts (eloop_timeout_fired (probe_timeouts c)) c) s in
  upd (set_score max_score) s.

(** The event [compare_scores] raises. *)
Definition compare_scores_event (c : net_steering_client) (peer_score : Z)
  : STEERING_event :=
  if score c <? peer_score then STEERING_E_PEER_IS_WORSE
  else STEERING_E_PEER_NOT_WORSE.

Definition compare_scores (peer_score : Z) (s : cstate) : cstate :=
  if score (sm s) <? peer_score
  then sm_STEERING_do_Event STEERING_E_PEER_IS_WORSE s
  else sm_STEERING_do_Event STEERING_E_PEER_NOT_WORSE s.

Definition client_disassociate (s : cstate) : cstate :=
  let s := sm_STEERING_do_Event STEERING_E_DISASSOCIATED s in
  let s := upd (set_sta None) s in
  let s := upd (set_remote_bssid mac_zero) s in
  let s := upd (set_remote_time (mk_os_time 0 0)) s in
  let s := upd (set_association_time (mk_os_time 0 0)) s in
  upd (client_start_probe_timer bss_hapd) s.

End Client.

(** ** Callbacks of one context

    A [world] is a steering context together with the trace of the calls
    it has made so far.  The callbacks look their context up in the
    process-wide [nsb_list] by its [hapd]; here they are given it. *)

Record world : Type := mk_world {
  bss : net_steering_bss;
  trace : list effect
}.

(** Runs a function of the [Client] section on client [c] of the context
    and stores the client back. *)
Definition on_client (w : world) (c : net_steering_client)
  (f : hostapd_data -> steering_mode -> cstate -> cstate) : world :=
  let s := f (hapd (bss w)) (mode (bss w)) (mk_cstate c (frame_sn (bss w)) (trace w)) in
  mk_world
    (mk_nsb (client_put_in (clients (bss w)) (sm s)) (hapd (bss w)) (sn s) (mode (bss w)))
    (tr s).

(** [client_find], and [client_create] when there is none: the opening of
    [receive_score] and [net_steering_association]. *)
Definition client_find_or_create (alloc : bool) (w : world) (a : mac)
  : option (net_steering_client * world) :=
  match client_find (bss w) a with
  | Some c => Some (c, w)
  | None =>
      match client_create alloc (bss w) a with
      | Some (c, nsb) => Some (c, mk_world nsb (trace w))
      | None => None
      end
  end.

(** The body of [receive_score] once the client is at hand. *)
Definition receive_score_client (now : os_time) (bssid : mac)
  (peer_score association_msecs : Z)
  (h : hostapd_data) (m : steering_mode) (s : cstate) : cstate :=
  if negb (mac_eqb bssid (client_get_remote_bssid (sm s))) then
    let association_t :=
      mk_os_time (association_msecs / 1000) ((association_msecs mod 1000) * 1000) in
    let local_t := os_time_sub now association_t in
    if os_time_before (remote_time (sm s)) local_t then
      if client_is_associated (sm s) then
        let s := client_disassociate h m s in
        upd (client_update_remote bssid local_t) s
      else
        let s := upd (client_update_remote bssid local_t) s in
        compare_scores h m peer_score s
    else s
  else
    compare_scores h m peer_score s.

Definition receive_score (alloc : bool) (now : os_time) (sta_mac bssid : mac)
  (peer_score association_msecs : Z) (w : world) : world :=
  match client_find_or_create alloc w sta_mac with
  | None => w
  | Some (c, w) =>
      on_client w c (receive_score_client now bssid peer_score association_msecs)
  end.

Definition receive_close_client (sta_mac bssid target_bssid : mac) (ap_channel : Z)
  (w : world) : world :=
  if mac_eqb (conf_bssid (hapd (bss w))) target_bssid then
    match client_find (bss w) sta_mac with
    | None => w
    | Some c =>
        on_client w c (fun h m s =>
          let s := upd (set_remote_channel ap_channel) s in
          let s := upd (client_set_close_bssid bssid) s in
          sm_STEERING_do_Event h m STEERING_E_CLOSE_CLIENT s)
    end
  else w.

Definition receive_closed_client (sta_mac target_bssid : mac) (w : world) : world :=
  if mac_eqb (conf_bssid (hapd (bss w))) target_bssid then
    match client_find (bss w) sta_mac with
    | None => w
    | Some c =>
        on_client w c (fun h m s => sm_STEERING_do_Event h m STEERING_E_CLOSED_CLIENT s)
    end
  else w.

(** How [receive] left: the three early returns on the header, a return
    from inside the TLV loop, or the end of the loop.  [RX_overrun] marks
    a parser copying bytes from beyond the received buffer, [RX_fuel] the
    model's loop bound (never reached, see [receive_tlvs_fuel]). *)
Inductive rx_status : Type :=
| RX_short_header
| RX_short_message
| RX_invalid
| RX_tlv_error
| RX_done
| RX_overrun
| RX_fuel.

(** The memory at [buf + pos]. *)
Definition at_pos (buf : list Z) (pos : Z) : list Z := skipn (Z.to_nat pos) buf.

(** The [while (buf_pos < buf + packet_len)] loop of [receive]; [pos] is
    [buf_pos - buf]. *)
Fixpoint receive_tlvs (fuel : nat) (alloc : bool) (now : os_time) (buf : list Z)
  (packet_len pos : Z) (w : world) : rx_status * world :=
  if pos <? packet_len then
    match fuel with
    | O => (RX_fuel, w)
    | S fuel =>
        match parse_tlv_header (at_pos buf pos) (packet_len - pos) with
        | P_zero => (RX_tlv_error, w)
        | P_overrun => (RX_overrun, w)
        | P_read num_read (type_tlv, tlv_len) =>
            let pos := pos + num_read in
            if type_tlv =? TLV_SCORE then
              match parse_score (at_pos buf pos) tlv_len with
              | P_zero => (RX_tlv_error, w)
              | P_overrun => (RX_overrun, w)
              | P_read num_read t =>
                  receive_tlvs fuel alloc now buf packet_len (pos + num_read)
                    (receive_score alloc now (sc_sta t) (sc_bssid t) (sc_score t)
                       (sc_association_msecs t) w)
              end
            else if type_tlv =? TLV_CLOSE_CLIENT then
              match parse_close_client (at_pos buf pos) tlv_len with
              | P_zero => (RX_tlv_error, w)
              | P_overrun => (RX_overrun, w)
              | P_read num_read t =>
                  receive_tlvs fuel alloc now buf packet_len (pos + num_read)
                    (receive_close_client (cc_sta t) (cc_bssid t) (cc_target_bssid t)
                       (cc_channel t) w)
              end
            else if type_tlv =? TLV_CLOSED_CLIENT then
              match parse_closed_client (at_pos buf pos) tlv_len with
              | P_zero => (RX_tlv_error, w)
              | P_overrun => (RX_overrun, w)
              | P_read num_read t =>
                  receive_tlvs fuel alloc now buf packet_len (pos + num_read)
                    (receive_closed_client (cd_sta t) (cd_target_bssid t) w)
              end
            else
              (* skip unknown tlvs *)
              receive_tlvs fuel alloc now buf packet_len (pos + tlv_len) w
        end
    end
  else (RX_done, w).

(** [receive(ctx, src_addr, buf, len)] with [len] the number of bytes of
    [buf].  Every round of the loop moves [buf_pos] forward by the two
    bytes of a TLV header at least, so [packet_len] rounds are enough. *)
Definition receive (alloc : bool) (now : os_time) (buf : list Z) (w : world)
  : rx_status * world :=
  let len := Z.of_nat (length buf) in
  match parse_header buf len with
  | P_zero => (RX_short_header, w)
  | P_overrun => (RX_overrun, w)
  | P_read num_read hd =>
      if len <? h_packet_len hd then (RX_short_message, w)
      else if negb (tlv_version =? h_version hd) || negb (tlv_magic =? h_magic hd)
      then (RX_invalid, w)
      else receive_tlvs (Z.to_nat (h_packet_len hd)) alloc now buf
             (h_packet_len hd) num_read w
  end.

(** [probe_req_cb(ctx, sa, da, bssid, ie, ie_len, ssi_signal)]; [da], [ie]
    and [ie_len] are unused. *)
Definition probe_req_cb (alloc : bool) (now : os_time) (sa bssid : mac)
  (ssi_signal : Z) (w : world) : world :=
  let found := client_find (bss w) sa in
  if (match found with Some _ => true | None => false end)
     || mac_eqb (conf_bssid (hapd (bss w))) bssid
  then
    match client_find_or_create alloc w sa with
    | None => w
    | Some (c, w) =>
        on_client w c (fun h m s =>
          let new_score := compute_score ssi_signal in
          let s :=
            if negb (new_score =? score (sm s)) then
              let s := upd (set_score new_score) s in
              if client_is_associated (sm s) then do_flood_score h now s else s
            else s in
          if negb (client_is_associated (sm s)) then
            let s := upd client_stop_probe_timer s in
            upd (client_start_probe_timer h) s
          else s)
    end
  else w.

(** [net_steering_association(hapd, sta, rssi)] *)
Definition net_steering_association (alloc : bool) (now : os_time) (st : sta_info)
  (rssi : Z) (w : world) : world :=
  match client_find_or_create alloc w (sta_addr st) with
  | None => w
  | Some (c, w) =>
      on_client w c (fun h m s =>
        let s := upd (set_remote_time (mk_os_time 0 0)) s in
        let s := upd (set_remote_bssid mac_zero) s in
        let s := upd (set_association_time now) s in
        let s := upd (set_score (compute_score rssi)) s in
        let s := upd (client_associate st) s in
        let s := do_flood_score h now s in
        sm_STEERING_do_Event h m STEERING_E_ASSOCIATED s)
  end.

(** [net_steering_disassociation(hapd, sta)] *)
Definition net_steering_disassociation (st : sta_info) (w : world) : world :=
  match client_find (bss w) (sta_addr st) with
  | None => w
  | Some c => on_client w c (fun h m s => client_disassociate h m s)
  end.

(** ** Reading a trace *)

Definition is_blacklist_call (e : effect) : bool :=
  match e with
  | hostapd_ctrl_iface_blacklist_add _ | hostapd_ctrl_iface_blacklist_rm _ => true
  | _ => false
  end.

(** The events the state machine was stepped with, oldest first: every
    path of [sm_STEERING_do_Event] writes one logger line. *)
Fixpoint dispatched (t : list effect) : list STEERING_event :=
  match t with
  | [] => []
  | log_transition _ _ _ e :: r => e :: dispatched r
  | log_default _ _ e :: r => e :: dispatched r
  | _ :: r => dispatched r
  end.

(** The frames sent to [dst], oldest first. *)
Fixpoint frames_to (dst : mac) (t : list effect) : list (list Z) :=
  match t with
  | [] => []
  | l2_packet_send d _ f :: r =>
      if mac_eqb d dst then f :: frames_to dst r else frames_to dst r
  | _ :: r => frames_to dst r
  end.

(** All the frames sent, oldest first. *)
Fixpoint sent_frames (t : list effect) : list (list Z) :=
  match t with
  | [] => []
  | l2_packet_send _ _ f :: r => f :: sent_frames r
  | _ :: r => sent_frames r
  end.

(** The 16-bit field at offset 2 of a frame gives the number of bytes of
    the frame: what [header_finalize] writes and [receive] expects. *)
Definition length_field_is_whole_frame (f : list Z) : Prop :=
  read_u16 f 2 = Some (wpabuf_len f).

(** A run of the state machine of one client over a list of events. *)
Fixpoint run_events (h : hostapd_data) (m : steering_mode)
  (evs : list STEERING_event) (s : cstate) : cstate :=
  match evs with
  | [] => s
  | e :: r => run_events h m r (sm_STEERING_do_Event h m e s)
  end.

(** ** The frames of the three flood functions

    The buffer each flood function hands to [flood_message], for a client
    [c] and the serial number [n] taken from the context. *)

Definition score_frame (h : hostapd_data) (c : net_steering_client) (n : Z)
  (associated_msecs : Z) : wpabuf :=
  header_finalize
    (put_score (header_put (wpabuf_alloc MAX_FRAME_SIZE) n) (client_get_mac c)
       (conf_bssid h) (score c) associated_msecs).

Definition close_client_frame (h : hostapd_data) (c : net_steering_client) (n : Z)
  : wpabuf :=
  header_finalize
    (put_close_client (header_put (wpabuf_alloc MAX_FRAME_SIZE) n) (client_get_mac c)
       (conf_bssid h) (client_get_remote_bssid c) (iconf_channel h)).

Definition closed_client_frame (h : hostapd_data) (c : net_steering_client) (n : Z)
  : wpabuf :=
  header_finalize
    (put_closed_client (header_put (wpabuf_alloc MAX_FRAME_SIZE) n) (client_get_mac c)
       (conf_bssid h)).

(** ** The specification's wording, for comparison *)

(** Section 4.3: the local score is [|rssi|] clamped to 16 bits. *)
Definition spec_clamped_score (rssi : Z) : Z := Z.min (Z.abs rssi) 65535.

(** Section 4.2: [total_length] is the bytes of the entire frame minus the
    first two. *)
Definition spec_total_length (frame : list Z) : Z := Z.of_nat (length frame) - 2.

(** Section 4.4: [adjusted_time = now - assoc_msecs_from_tlv], the
    [local_t] of [receive_score]. *)
Definition adjusted_time (now : os_time) (association_msecs : Z) : os_time :=
  os_time_sub now
    (mk_os_time (association_msecs / 1000) ((association_msecs mod 1000) * 1000)).

(** Section 3: the probe-loss timer is armed iff [sta_handle] is absent. *)
Definition probe_timer_armed (c : net_steering_client) : bool :=
  (0 <? probe_timeouts c)%nat.

Definition probe_timer_invariant (c : net_steering_client) : Prop :=
  probe_timer_armed c = true <-> sta c = None.

(** ** Two access points and a client *)

Definition sta_K : mac := (0xaa, 0xbb, 0xcc, 0xdd, 0xee, 0xff).
Definition bssid_A : mac := (0x11, 0x22, 0x33, 0x44, 0x55, 0x66).
Definition bssid_B : mac := (0x21, 0x22, 0x23, 0x24, 0x25, 0x26).

(** An event loop in which every registration succeeds, and one in which
    every registration fails. *)
Definition eloop_never_fails (a : mac) (n : nat) : bool := false.
Definition eloop_always_fails (a : mac) (n : nat) : bool := true.

Definition hapd_A : hostapd_data :=
  mk_hapd bssid_A bssid_A [bssid_A; bssid_B] 6 eloop_never_fails.
Definition hapd_B : hostapd_data :=
  mk_hapd bssid_B bssid_B [bssid_A; bssid_B] 11 eloop_never_fails.

(** [A] in an event loop that takes no timeout. *)
Definition hapd_A_without_timers : hostapd_data :=
  mk_hapd bssid_A bssid_A [bssid_A; bssid_B] 6 eloop_always_fails.

(** [K] as AP [A] holds it while it waits for the disassociation that [B]
    asked for: [B]'s CLOSE_CLIENT has been received. *)
Definition K_rejecting_at_A : net_steering_client :=
  mk_client (Some (mk_sta_info sta_K 0)) max_score STEERING_REJECTING true sta_K
    bssid_B mac_zero os_time_zero (mk_os_time 100 0) 11 O 1%nat O 2%nat.

(** [K] as AP [B] holds it after it has sent its CLOSE_CLIENT to [A]. *)
Definition K_confirming_at_B : net_steering_client :=
  mk_client None 30 STEERING_CONFIRMING true sta_K
    mac_zero bssid_A (mk_os_time 100 0) os_time_zero 0 O O 1%nat 1%nat.

(** [K] associated to [A] at time 100 s with RSSI -40. *)
Definition K_associated_at_A : net_steering_client :=
  mk_client (Some (mk_sta_info sta_K 0)) 40 STEERING_ASSOCIATED true sta_K
    mac_zero mac_zero os_time_zero (mk_os_time 100 0) 0 1%nat O O 1%nat.

Definition world_of (h : hostapd_data) (m : steering_mode)
  (l : list net_steering_client) : world :=
  mk_world (mk_nsb l h 0 m) [].

(** A well-formed SCORE frame for [K] from [B], score 40, associated for
    one second, as [B]'s own writer lays it out, with the version byte
    left open. *)
Definition score_frame_with_version (v : Z) : list Z :=
  [48; v; 0; 26; 0; 0;
   0; 18; 0xaa; 0xbb; 0xcc; 0xdd; 0xee; 0xff; 0x21; 0x22; 0x23; 0x24; 0x25; 0x26;
   0; 40; 0; 0; 3; 232].

(** A SCORE frame for [K] from [B] that carries the sentinel score
    0xFFFF. *)
Definition lost_score_frame : list Z :=
  [48; 1; 0; 26; 0; 0;
   0; 18; 0xaa; 0xbb; 0xcc; 0xdd; 0xee; 0xff; 0x21; 0x22; 0x23; 0x24; 0x25; 0x26;
   0xff; 0xff; 0; 0; 3; 232].

(** ** The callbacks as inputs of a context

    What the event loop, the driver and the transport can call.  A timer
    handler runs for a client of the registry that has a timeout of that
    kind pending. *)

Inductive input : Type :=
| I_probe (alloc : bool) (now : os_time) (sa bssid : mac) (ssi_signal : Z)
| I_receive (alloc : bool) (now : os_time) (buf : list Z)
| I_association (alloc : bool) (now : os_time) (st : sta_info) (rssi : Z)
| I_disassociation (st : sta_info)
| I_flood_score (now : os_time) (a : mac)
| I_client_timeout (a : mac)
| I_probe_timeout (a : mac).

(** Modelled from the spec: the event loop (utils/eloop, not part of the
    sources at hand) calls the handler of a timeout that is pending, with
    the client it was registered with. *)
Definition fire (pending : net_steering_client -> nat)
  (handler : hostapd_data -> steering_mode -> cstate -> cstate) (a : mac) (w : world)
  : world :=
  match client_find (bss w) a with
  | Some c => if (0 <? pending c)%nat then on_client w c handler else w
  | None => w
  end.

Definition step (i : input) (w : world) : world :=
  match i with
  | I_probe alloc now sa bssid ssi_signal => probe_req_cb alloc now sa bssid ssi_signal w
  | I_receive alloc now buf => snd (receive alloc now buf w)
  | I_association alloc now st rssi => net_steering_association alloc now st rssi w
  | I_disassociation st => net_steering_disassociation st w
  | I_flood_score now a => fire flood_timeouts (fun h _ s => flood_score h now s) a w
  | I_client_timeout a => fire client_timeouts (fun h m s => client_timeout h m s) a w
  | I_probe_timeout a => fire probe_timeouts (fun _ _ s => probe_timeout s) a w
  end.

Fixpoint run (inputs : list input) (w : world) : world :=
  match inputs with
  | [] => w
  | i :: r => run r (step i w)
  end.

(** A function on one client that, outside [MODE_FORCE], adds no blacklist
    call to the trace. *)
Definition quiet (f : hostapd_data -> steering_mode -> cstate -> cstate) : Prop :=
  forall h m s, m <> MODE_FORCE ->
    filter is_blacklist_call (tr (f h m s)) = filter is_blacklist_call (tr s).

(** ** Reading a result of [receive] *)

(** [receive] returned from one of its three checks on the header. *)
Definition dropped_on_header (st : rx_status) : bool :=
  match st with
  | RX_short_header | RX_short_message | RX_invalid => true
  | _ => false
  end.

(** The destinations of the frames sent, oldest first. *)
Fixpoint send_dsts (t : list effect) : list mac :=
  match t with
  | [] => []
  | l2_packet_send d _ _ :: r => d :: send_dsts r
  | _ :: r => send_dsts r
  end.

(** The peers [flood_message] sends to: the addresses of the [r0kh] list
    other than [own_addr], in the order of the list. *)
Definition flood_targets (h : hostapd_data) : list mac :=
  filter (fun d => negb (mac_eqb d (own_addr h))) (r0kh_list h).

(** A frame as [receive] expects it: magic, version, the length of the
    whole frame, two serial number bytes, then the TLV area. *)
Definition frame_with (sn0 sn1 : Z) (tlvs : list Z) : list Z :=
  [tlv_magic; tlv_version] ++ htons_bytes (6 + Z.of_nat (length tlvs))
  ++ [sn0; sn1] ++ tlvs.

(** The size of the payload the loop of [receive] steps over for a
    TLV of a type it knows: the [num_read] of the parser, whatever the
    length byte of the TLV says beyond it. *)
Definition known_tlv_size (t : Z) : option Z :=
  if t =? TLV_SCORE then Some score_len
  else if t =? TLV_CLOSE_CLIENT then Some close_len
  else if t =? TLV_CLOSED_CLIENT then Some closed_len
  else None.

(** A TLV area the loop of [receive] walks through from its first byte
    to its last: each TLV of a known type has a length byte that is not
    below the fixed size of the type and is followed by that many payload
    bytes, each TLV of another type is followed by as many payload bytes
    as its length byte says. *)
Inductive whole_tlvs : list Z -> Prop :=
| whole_tlvs_nil : whole_tlvs []
| whole_tlvs_known (t l : Z) (payload more : list Z) (size : Z) :
    known_tlv_size t = Some size -> size <= l ->
    Z.of_nat (length payload) = size ->
    whole_tlvs more ->
    whole_tlvs ([t; l] ++ payload ++ more)
| whole_tlvs_unknown (t : Z) (payload more : list Z) :
    known_tlv_size t = None ->
    whole_tlvs more ->
    whole_tlvs ([t; Z.of_nat (length payload)] ++ payload ++ more).

(** What one round of the loop does to the context for a TLV of type [t]
    with the payload bytes [payload]. *)
Definition handle_tlv (alloc : bool) (now : os_time) (t : Z) (payload : list Z)
  (w : world) : world :=
  if t =? TLV_SCORE then
    match parse_score payload score_len with
    | P_read _ x =>
        receive_score alloc now (sc_sta x) (sc_bssid x) (sc_score x)
          (sc_association_msecs x) w
    | _ => w
    end
  else if t =? TLV_CLOSE_CLIENT then
    match parse_close_client payload close_len with
    | P_read _ x =>
        receive_close_client (cc_sta x) (cc_bssid x) (cc_target_bssid x) (cc_channel x) w
    | _ => w
    end
  else if t =? TLV_CLOSED_CLIENT then
    match parse_closed_client payload closed_len with
    | P_read _ x => receive_closed_client (cd_sta x) (cd_target_bssid x) w
    | _ => w
    end
  else w.

(** ** Conditions on a client and on what is sent *)

Definition rejecting_or_rejected (st : STEERING_state) : bool :=
  match st with
  | STEERING_REJECTING | STEERING_REJECTED => true
  | _ => false
  end.

(** No registration fails in the event loop of [h]. *)
Definition registrations_succeed (h : hostapd_data) : Prop :=
  forall a n, eloop_register_fails h a n = false.

(** A timer that the state of the client wants running: at most one
    timeout is pending for it, and exactly one if no registration fails in
    the event loop of [h]. *)
Definition armed (h : hostapd_data) (pending : nat) : Prop :=
  (pending <= 1)%nat /\ (registrations_succeed h -> pending = 1%nat).

Definition timer_matches (h : hostapd_data) (wanted : bool) (pending : nat) : Prop :=
  if wanted then armed h pending else pending = O.

(** The timers of a client agree with its state: the [flood_score]
    timeout is armed in [STEERING_ASSOCIATED] and not pending elsewhere,
    the [client_timeout] is armed in [STEERING_REJECTING] and
    [STEERING_REJECTED] and not pending elsewhere; and a client in
    [STEERING_ASSOCIATED] has its [sta]. *)
Definition timers_match_state (h : hostapd_data) (c : net_steering_client) : Prop :=
  timer_matches h (state_eqb (STEERING_state_ c) STEERING_ASSOCIATED) (flood_timeouts c) /\
  timer_matches h (rejecting_or_rejected (STEERING_state_ c)) (client_timeouts c) /\
  (STEERING_state_ c = STEERING_ASSOCIATED -> sta c <> None).

(** Every client of the registry has its timers in line with its state. *)
Definition timers_in_line (w : world) : Prop :=
  Forall (timers_match_state (hapd (bss w))) (clients (bss w)).

(** The MACs of the registry, from the head of the list. *)
Definition registry_macs (w : world) : list mac := map addr (clients (bss w)).

(** The registry of [w] has no MAC twice and still has the MACs of [w0],
    where they were. *)
Definition registry_grown (w0 w : world) : Prop :=
  NoDup (registry_macs w) /\ exists new, registry_macs w = new ++ registry_macs w0.

Definition is_send_effect (e : effect) : bool :=
  match e with
  | l2_packet_send _ _ _ => true
  | _ => false
  end.

(** A frame handed to [l2_packet_send] goes to one of the flood targets of
    the context, with the ethertype of the module, has the length of one
    of the three frames of the module and gives that length in its
    header. *)
Definition send_ok (h : hostapd_data) (e : effect) : Prop :=
  match e with
  | l2_packet_send d p f =>
      In d (flood_targets h) /\ p = proto /\
      (wpabuf_len f = 20 \/ wpabuf_len f = 26 \/ wpabuf_len f = 27) /\
      length_field_is_whole_frame f
  | _ => True
  end.

(** The context of [w] is bound to [h], and all it has sent is [send_ok]. *)
Definition sends_ok (h : hostapd_data) (w : world) : Prop :=
  hapd (bss w) = h /\ Forall (send_ok h) (trace w).

(** The blacklist as the trace leaves it: for MAC [a], the calls of
    [blacklist_add] less the calls of [blacklist_remove]. *)
Fixpoint blacklist_balance (a : mac) (t : list effect) : Z :=
  match t with
  | [] => 0
  | hostapd_ctrl_iface_blacklist_add x :: r =>
      (if mac_eqb x a then 1 else 0) + blacklist_balance a r
  | hostapd_ctrl_iface_blacklist_rm x :: r =>
      (if mac_eqb x a then -1 else 0) + blacklist_balance a r
  | _ :: r => blacklist_balance a r
  end.

(** 1 in [STEERING_REJECTING] and [STEERING_REJECTED], 0 elsewhere. *)
Definition rejects (st : STEERING_state) : Z :=
  if rejecting_or_rejected st then 1 else 0.

(** A MAC is on the blacklist, once, exactly while its client is in
    [STEERING_REJECTING] or [STEERING_REJECTED]. *)
Definition blacklist_in_line (w : world) : Prop :=
  forall a,
    blacklist_balance a (trace w) =
    match client_find (bss w) a with
    | Some c => rejects (STEERING_state_ c)
    | None => 0
    end.

(** From [s] to [s'] the MAC of the client is kept, and the blacklist
    moves with the state of that client and for no other MAC. *)
Definition blacklist_step (s s' : cstate) : Prop :=
  addr (sm s') = addr (sm s) /\
  forall a,
    blacklist_balance a (tr s') =
    blacklist_balance a (tr s)
    + (if mac_eqb (addr (sm s)) a
       then rejects (STEERING_state_ (sm s')) - rejects (STEERING_state_ (sm s))
       else 0).

(** The context is in [MODE_FORCE] and its blacklist is in line. *)
Definition force_and_in_line (w : world) : Prop :=
  mode (bss w) = MODE_FORCE /\ blacklist_in_line w.

(** A third access point. *)
Definition bssid_C : mac := (0x31, 0x32, 0x33, 0x34, 0x35, 0x36).

(** A second client. *)
Definition sta_J : mac := (0x0a, 0x0b, 0x0c, 0x0d, 0x0e, 0x0f).

(** ** Initialisation

    [net_steering_init(hapd)].  [net_steeering_mode] is the configured mode
    string, [None] when there is none; [ft_compiled] tells whether the
    build has CONFIG_IEEE80211R; [zalloc_ok] and [l2_ok] tell whether
    [os_zalloc] and [l2_packet_init] succeed.  The peers are the [r0kh]
    list of [h], a null list being the empty one. *)

Module Init.

Import String.

Definition mode_off : string := "off"%string.
Definition mode_suggest : string := "suggest"%string.
Definition mode_force : string := "force"%string.

(** A mode string that is none of the three. *)
Definition mode_misspelt : string := "sugest"%string.

Inductive init_result : Type :=
| Init_disabled                       (* returns 0, no context *)
| Init_error                          (* returns -1, no context *)
| Init_null_dereference               (* reads [nsb->hapd->conf] with [nsb->hapd] null *)
| Init_ready (nsb : net_steering_bss) (* returns 0, the context is listed *).

Definition net_steering_init (ft_compiled : bool) (net_steeering_mode : option string)
  (h : hostapd_data) (zalloc_ok l2_ok : bool) : init_result :=
  match net_steeering_mode with
  | None => Init_disabled
  | Some mode_string =>
      if String.eqb mode_string mode_off then Init_disabled
      else if negb ft_compiled then Init_error
      else
        match r0kh_list h with
        | [] => Init_disabled
        | _ :: _ =>
            if negb zalloc_ok then Init_error
            else if negb l2_ok then
              (* the warning is logged through [nsb->hapd], still null *)
              Init_null_dereference
            else
              Init_ready
                (mk_nsb [] h 0
                   (if String.eqb mode_string mode_suggest then MODE_SUGGEST
                    else if String.eqb mode_string mode_force then MODE_FORCE
                    else MODE_FORCE))
        end
  end.

End Init.

(** ** Tactics *)

(** Unfolds a step of the state machine down to the trace and the fields
    of the client, leaving the frames and the loop over the peers folded. *)
Ltac sm_unfold :=
  cbv beta iota zeta delta
      [sm_STEERING_do_Event SM_TRANSITION SM_TRANS_NOOP SM_ENTER
       sm_STEERING_IDLE_on_E_ASSOCIATED_ASSOCIATED
       sm_STEERING_IDLE_on_E_PEER_IS_WORSE_CONFIRMING
       sm_STEERING_IDLE_on_E_PEER_NOT_WORSE_REJECTED
       sm_STEERING_IDLE_on_E_CLOSE_CLIENT_REJECTED
       sm_STEERING_CONFIRMING_on_E_PEER_IS_WORSE_CONFIRMING
       sm_STEERING_CONFIRMING_on_E_ASSOCIATED_ASSOCIATED
       sm_STEERING_ASSOCIATING_on_E_ASSOCIATED_ASSOCIATED
       sm_STEERING_ASSOCIATING_on_E_PEER_IS_WORSE_ASSOCIATING
       sm_STEERING_ASSOCIATING_on_E_CLOSE_CLIENT_REJECTED
       sm_STEERING_ASSOCIATED_on_E_CLOSE_CLIENT_REJECTING
       sm_STEERING_ASSOCIATED_on_E_DISASSOCIATED_IDLE
       sm_STEERING_ASSOCIATED_on_E_PEER_IS_WORSE_ASSOCIATED
       sm_STEERING_REJECTING_on_E_DISASSOCIATED_REJECTED
       sm_STEERING_REJECTING_on_E_PEER_IS_WORSE_CONFIRMING
       sm_STEERING_REJECTING_on_E_PEER_LOST_CLIENT_CONFIRMING
       sm_STEERING_REJECTING_on_E_TIMEOUT_ASSOCIATING
       sm_STEERING_REJECTED_on_E_PEER_IS_WORSE_CONFIRMING
       sm_STEERING_REJECTED_on_E_PEER_LOST_CLIENT_CONFIRMING
       sm_STEERING_REJECTED_on_E_CLOSE_CLIENT_REJECTED
       sm_STEERING_REJECTED_on_E_TIMEOUT_ASSOCIATING
       flood_close_client flood_closed_client flood_message header_put_next
       do_client_blacklist_add do_client_blacklist_rm do_client_disassociate
       client_is_associated client_supports_bss_transition state_eqb mode_eqb
       start_flood_timer stop_flood_timer client_start_timer client_stop_timer
       client_start_probe_timer client_stop_probe_timer client_register
       client_clear_close_bssid client_get_mac client_get_close_bssid
       client_get_remote_bssid client_get_local_bssid
       eloop_register_timeout eloop_cancel_timeout
       upd emit sm sn tr
       set_sta set_score set_state set_changed set_addr set_close_bssid
       set_remote_bssid set_remote_time set_association_time set_remote_channel
       set_flood_timeouts set_client_timeouts set_probe_timeouts set_registrations
       sta score STEERING_state_ changed addr close_bssid remote_bssid remote_time
       association_time remote_channel flood_timeouts client_timeouts probe_timeouts
       registrations orb andb negb].

Ltac split_ifs :=
  repeat match goal with
         | |- context [if ?b then _ else _] => destruct b
         end.

Ltac open_cstate s :=
  let c := fresh "c" in
  destruct s as [c ? ?]; destruct c as [[?|] ? [] ? ? ? ? ? ? ? ? ? ? ?].

(** * Properties *)

(** ** Integers and bytes *)

Lemma max_score_value : max_score = 65535.
Proof. reflexivity. Qed.

Lemma ntohs_htons (v : Z) :
  0 <= v < 65536 -> ntohs_bytes ((v / 256) mod 256) (v mod 256) = v.
Proof.
  intros Hv. unfold ntohs_bytes.
  rewrite (Z.mod_small (v / 256) 256).
  - pose proof (Z.div_mod v 256 ltac:(lia)). lia.
  - split; [apply Z.div_pos; lia | apply Z.div_lt_upper_bound; lia].
Qed.

Lemma ntohl_htonl (v : Z) :
  0 <= v < 4294967296 ->
  ntohl_bytes ((v / 16777216) mod 256) ((v / 65536) mod 256)
              ((v / 256) mod 256) (v mod 256) = v.
Proof.
  intros Hv. unfold ntohl_bytes.
  pose proof (Z.div_mod v 256 ltac:(lia)) as E0.
  pose proof (Z.div_mod (v / 256) 256 ltac:(lia)) as E1.
  pose proof (Z.div_mod (v / 256 / 256) 256 ltac:(lia)) as E2.
  rewrite (Z.div_div v 256 256) in E2 by lia.
  rewrite (Z.div_div v 256 256) in E1 by lia.
  change (256 * 256) with 65536 in *.
  rewrite (Z.div_div v 65536 256) in E2 by lia.
  change (65536 * 256) with 16777216 in *.
  assert (H3 : 0 <= v / 16777216 < 256).
  { split; [apply Z.div_pos; lia | apply Z.div_lt_upper_bound; lia]. }
  rewrite (Z.mod_small (v / 16777216) 256) by exact H3.
  lia.
Qed.

(** ** MAC comparison and the registry *)

Lemma mac_eqb_eq (x y : mac) : mac_eqb x y = true <-> x = y.
Proof.
  destruct x as [[[[[a b] c] d] e] f], y as [[[[[a' b'] c'] d'] e'] f'].
  unfold mac_eqb. rewrite !andb_true_iff, !Z.eqb_eq. split.
  - intros [[[[[-> ->] ->] ->] ->] ->]. reflexivity.
  - intros H. inversion H. repeat split; reflexivity.
Qed.

Lemma mac_eqb_refl (x : mac) : mac_eqb x x = true.
Proof. apply mac_eqb_eq. reflexivity. Qed.

Lemma mac_eqb_neq (x y : mac) : mac_eqb x y = false <-> x <> y.
Proof.
  split.
  - intros H E. apply mac_eqb_eq in E. congruence.
  - intros H. destruct (mac_eqb x y) eqn:E; [apply mac_eqb_eq in E; contradiction | reflexivity].
Qed.

Lemma client_find_in_addr l a c : client_find_in l a = Some c -> addr c = a.
Proof.
  induction l as [|x r IH]; simpl; [discriminate|].
  destruct (mac_eqb a (addr x)) eqn:E.
  - intros [= <-]. symmetry. apply mac_eqb_eq. exact E.
  - exact IH.
Qed.

(** A client stored back under the address it was found with is the one
    found from then on. *)
Lemma client_find_put_in l a c c' :
  client_find_in l a = Some c -> addr c' = a ->
  client_find_in (client_put_in l c') a = Some c'.
Proof.
  intros Hf <-. induction l as [|x r IH]; simpl in *; [discriminate|].
  destruct (mac_eqb (addr c') (addr x)) eqn:E.
  - simpl. rewrite mac_eqb_refl. reflexivity.
  - simpl. rewrite E. apply IH. exact Hf.
Qed.

(** ** Scoring *)

Lemma abs_in_range (rssi : Z) :
  INT_MIN < rssi <= INT_MAX -> abs rssi = Z.abs rssi.
Proof.
  unfold INT_MIN, INT_MAX, abs, to_int. intros H.
  rewrite Z.mod_small by lia. lia.
Qed.

(** C7, as the code has it: for every [int] other than [INT_MIN] the score
    is [|rssi|] reduced modulo 2^16 (the cast to [u16] truncates, it does
    not saturate); up to 0xFFFF it is [|rssi|] itself, and there it agrees
    with the clamp of the specification. *)
Theorem compute_score_truncates (rssi : Z) :
  INT_MIN < rssi <= INT_MAX ->
  compute_score rssi = Z.abs rssi mod 65536 /\
  (Z.abs rssi <= 65535 ->
   compute_score rssi = Z.abs rssi /\ compute_score rssi = spec_clamped_score rssi).
Proof.
  intros H. unfold compute_score, to_u16. rewrite (abs_in_range _ H).
  split; [reflexivity|]. intros Hs. unfold spec_clamped_score.
  rewrite Z.mod_small by lia. lia.
Qed.

Lemma compute_score_truncates_witness :
  INT_MIN < -40 <= INT_MAX /\ compute_score (-40) = 40.
Proof.
  split; [unfold INT_MIN, INT_MAX; lia|].
  destruct (compute_score_truncates (-40)) as [_ H].
  - unfold INT_MIN, INT_MAX; lia.
  - destruct H as [H _]; [simpl; lia | exact H].
Defined.

(** C7, as the specification words it, fails: an RSSI of -65537 gives the
    score 1, where the clamp would give 0xFFFF. *)
Lemma compute_score_not_clamped :
  INT_MIN < -65537 <= INT_MAX /\
  compute_score (-65537) = 1 /\
  spec_clamped_score (-65537) = 65535 /\
  compute_score (-65537) <> spec_clamped_score (-65537).
Proof.
  unfold INT_MIN, INT_MAX. repeat split; try lia; vm_compute; congruence.
Qed.

(** ** Codec *)

Lemma at_pos_app (pre x : list Z) : at_pos (pre ++ x) (Z.of_nat (length pre)) = x.
Proof.
  unfold at_pos. rewrite Nat2Z.id, skipn_app, skipn_all, Nat.sub_diag. reflexivity.
Qed.

Lemma at_pos_app2 (pre x : list Z) (a b : Z) :
  at_pos (pre ++ a :: b :: x) (Z.of_nat (length pre) + 2) = x.
Proof.
  unfold at_pos.
  replace (Z.to_nat (Z.of_nat (length pre) + 2)) with (length pre + 2)%nat by lia.
  rewrite skipn_app, skipn_all2 by lia.
  replace (length pre + 2 - length pre)%nat with 2%nat by lia. reflexivity.
Qed.

Lemma put_score_bytes pre s b v a :
  put_score pre s b v a =
  pre ++ TLV_SCORE :: score_len :: mac_bytes s ++ mac_bytes b ++ htons_bytes v ++ htonl_bytes a.
Proof.
  unfold put_score, put_tlv_header, wpabuf_put_data, wpabuf_put_u8.
  rewrite <- !app_assoc. reflexivity.
Qed.

Lemma put_close_client_bytes pre s b r ch :
  put_close_client pre s b r ch =
  pre ++ TLV_CLOSE_CLIENT :: close_len :: mac_bytes s ++ mac_bytes b ++ mac_bytes r ++ [ch].
Proof.
  unfold put_close_client, put_tlv_header, wpabuf_put_data, wpabuf_put_u8.
  rewrite <- !app_assoc. reflexivity.
Qed.

Lemma put_closed_client_bytes pre s b :
  put_closed_client pre s b =
  pre ++ TLV_CLOSED_CLIENT :: closed_len :: mac_bytes s ++ mac_bytes b.
Proof.
  unfold put_closed_client, put_tlv_header, wpabuf_put_data, wpabuf_put_u8.
  rewrite <- !app_assoc. reflexivity.
Qed.

Lemma mem_read_ok (buf : list Z) (off : Z) (n : nat) :
  0 <= off -> off + Z.of_nat n <= Z.of_nat (length buf) ->
  mem_read buf off n = Some (firstn n (skipn (Z.to_nat off) buf)).
Proof.
  intros H0 H1. unfold mem_read.
  replace (0 <=? off) with true by (symmetry; apply Z.leb_le; lia).
  replace (off + Z.of_nat n <=? Z.of_nat (length buf)) with true
    by (symmetry; apply Z.leb_le; lia).
  reflexivity.
Qed.

Lemma parse_tlv_header_cons (t l : Z) (x : list Z) (len : Z) :
  2 <= len -> parse_tlv_header (t :: l :: x) len = P_read 2 (t, l).
Proof.
  intros H. unfold parse_tlv_header, read_u8.
  replace (len <? 1 + 1) with false by (symmetry; apply Z.ltb_ge; lia).
  rewrite !mem_read_ok by (simpl length; lia). reflexivity.
Qed.

Lemma parse_score_bytes (s b : mac) (s0 s1 m0 m1 m2 m3 : Z) :
  parse_score (mac_bytes s ++ mac_bytes b ++ [s0; s1] ++ [m0; m1; m2; m3]) score_len =
  P_read 18 (mk_score_tlv s b (ntohs_bytes s0 s1) (ntohl_bytes m0 m1 m2 m3)).
Proof.
  destruct s as [[[[[a1 a2] a3] a4] a5] a6], b as [[[[[b1 b2] b3] b4] b5] b6].
  reflexivity.
Qed.

Lemma parse_close_client_bytes (s b r : mac) (ch : Z) :
  parse_close_client (mac_bytes s ++ mac_bytes b ++ mac_bytes r ++ [ch]) close_len =
  P_read 19 (mk_close_client_tlv s b r ch).
Proof.
  destruct s as [[[[[a1 a2] a3] a4] a5] a6], b as [[[[[b1 b2] b3] b4] b5] b6],
           r as [[[[[r1 r2] r3] r4] r5] r6].
  reflexivity.
Qed.

Lemma parse_closed_client_bytes (s b : mac) :
  parse_closed_client (mac_bytes s ++ mac_bytes b) closed_len =
  P_read 12 (mk_closed_client_tlv s b).
Proof.
  destruct s as [[[[[a1 a2] a3] a4] a5] a6], b as [[[[[b1 b2] b3] b4] b5] b6].
  reflexivity.
Qed.

Lemma score_round_trip pre s b v a :
  0 <= v < 65536 -> 0 <= a < 4294967296 ->
  let buf := put_score pre s b v a in
  parse_tlv_header (at_pos buf (wpabuf_len pre)) (wpabuf_len buf - wpabuf_len pre)
    = P_read 2 (TLV_SCORE, score_len) /\
  parse_score (at_pos buf (wpabuf_len pre + 2)) score_len
    = P_read 18 (mk_score_tlv s b v a).
Proof.
  intros Hv Ha buf. subst buf. rewrite put_score_bytes. unfold wpabuf_len. split.
  - rewrite at_pos_app. apply parse_tlv_header_cons.
    rewrite length_app. simpl length. lia.
  - rewrite at_pos_app2. unfold htons_bytes, htonl_bytes.
    rewrite parse_score_bytes, ntohs_htons, ntohl_htonl by assumption. reflexivity.
Qed.

Lemma close_client_round_trip pre s b r ch :
  let buf := put_close_client pre s b r ch in
  parse_tlv_header (at_pos buf (wpabuf_len pre)) (wpabuf_len buf - wpabuf_len pre)
    = P_read 2 (TLV_CLOSE_CLIENT, close_len) /\
  parse_close_client (at_pos buf (wpabuf_len pre + 2)) close_len
    = P_read 19 (mk_close_client_tlv s b r ch).
Proof.
  intros buf. subst buf. rewrite put_close_client_bytes. unfold wpabuf_len. split.
  - rewrite at_pos_app. apply parse_tlv_header_cons.
    rewrite length_app. simpl length. lia.
  - rewrite at_pos_app2. apply parse_close_client_bytes.
Qed.

Lemma closed_client_round_trip pre s b :
  let buf := put_closed_client pre s b in
  parse_tlv_header (at_pos buf (wpabuf_len pre)) (wpabuf_len buf - wpabuf_len pre)
    = P_read 2 (TLV_CLOSED_CLIENT, closed_len) /\
  parse_closed_client (at_pos buf (wpabuf_len pre + 2)) closed_len
    = P_read 12 (mk_closed_client_tlv s b).
Proof.
  intros buf. subst buf. rewrite put_closed_client_bytes. unfold wpabuf_len. split.
  - rewrite at_pos_app. apply parse_tlv_header_cons.
    rewrite length_app. simpl length. lia.
  - rewrite at_pos_app2. apply parse_closed_client_bytes.
Qed.

(** C8: whatever the buffer [pre] holds already (the frame header, earlier
    TLVs), a TLV appended by one of the three writers is read back, from
    the place it was put at, by [parse_tlv_header] and the parser of its
    type, as the type, the length and the very fields that were written;
    the SCORE TLV of the specification's example has the bytes given
    there. *)
Theorem tlv_round_trip (pre : wpabuf) (client bssid target : mac)
  (v msecs channel : Z) :
  0 <= v < 65536 -> 0 <= msecs < 4294967296 ->
  (let buf := put_score pre client bssid v msecs in
   parse_tlv_header (at_pos buf (wpabuf_len pre)) (wpabuf_len buf - wpabuf_len pre)
     = P_read 2 (TLV_SCORE, score_len) /\
   parse_score (at_pos buf (wpabuf_len pre + 2)) score_len
     = P_read 18 (mk_score_tlv client bssid v msecs)) /\
  (let buf := put_close_client pre client bssid target channel in
   parse_tlv_header (at_pos buf (wpabuf_len pre)) (wpabuf_len buf - wpabuf_len pre)
     = P_read 2 (TLV_CLOSE_CLIENT, close_len) /\
   parse_close_client (at_pos buf (wpabuf_len pre + 2)) close_len
     = P_read 19 (mk_close_client_tlv client bssid target channel)) /\
  (let buf := put_closed_client pre client bssid in
   parse_tlv_header (at_pos buf (wpabuf_len pre)) (wpabuf_len buf - wpabuf_len pre)
     = P_read 2 (TLV_CLOSED_CLIENT, closed_len) /\
   parse_closed_client (at_pos buf (wpabuf_len pre + 2)) closed_len
     = P_read 12 (mk_closed_client_tlv client bssid)) /\
  at_pos (put_score (header_put [] 0) sta_K bssid_A 0x00A5 0x00030D40) 6 =
    [0x00; 0x12; 0xaa; 0xbb; 0xcc; 0xdd; 0xee; 0xff; 0x11; 0x22; 0x33; 0x44; 0x55; 0x66;
     0x00; 0xa5; 0x00; 0x03; 0x0d; 0x40].
Proof.
  intros Hv Hm. split; [|split; [|split]].
  - apply score_round_trip; assumption.
  - apply close_client_round_trip.
  - apply closed_client_round_trip.
  - vm_compute. reflexivity.
Qed.

Lemma tlv_round_trip_witness :
  let buf := put_score (header_put [] 7) sta_K bssid_A 0x00A5 0x00030D40 in
  parse_tlv_header (at_pos buf 6) (wpabuf_len buf - 6) = P_read 2 (0, 18) /\
  parse_score (at_pos buf 8) 18 = P_read 18 (mk_score_tlv sta_K bssid_A 0x00A5 0x00030D40).
Proof.
  exact (proj1 (tlv_round_trip (header_put [] 7) sta_K bssid_A bssid_B 0x00A5 0x00030D40 11
                  ltac:(lia) ltac:(lia))).
Defined.

(** ** What the flood functions send *)

Lemma sent_frames_app (t u : list effect) :
  sent_frames (t ++ u) = sent_frames t ++ sent_frames u.
Proof.
  induction t as [|e t IH]; simpl; [reflexivity|].
  destruct e; simpl; rewrite IH; reflexivity.
Qed.

Lemma flood_message_to_frames (P : list Z -> Prop) h peers buf t :
  P buf -> Forall P (sent_frames t) ->
  Forall P (sent_frames (flood_message_to h peers buf t)).
Proof.
  intros Hb. revert t. induction peers as [|d r IH]; simpl; intros t Ht; [exact Ht|].
  destruct (negb (mac_eqb d (own_addr h))); [|apply IH; exact Ht].
  apply IH. rewrite sent_frames_app. apply Forall_app. split; [exact Ht|].
  simpl. constructor; [exact Hb | constructor].
Qed.

Lemma flood_closed_client_frame h s :
  flood_closed_client h s =
  upd client_clear_close_bssid
    (flood_message h (closed_client_frame h (sm s) (sn s))
       (mk_cstate (sm s) (to_u16 (sn s + 1)) (tr s))).
Proof. reflexivity. Qed.

Lemma flood_close_client_frame h s :
  flood_close_client h s =
  flood_message h (close_client_frame h (sm s) (sn s))
    (mk_cstate (sm s) (to_u16 (sn s + 1)) (tr s)).
Proof. reflexivity. Qed.

Lemma do_flood_score_frame h now s :
  score (sm s) <> max_score ->
  do_flood_score h now s =
  flood_message h
    (score_frame h (sm s) (sn s)
       (to_u32 (sec (os_time_sub now (association_time (sm s))) * 1000
                + Z.quot (usec (os_time_sub now (association_time (sm s)))) 1000)))
    (mk_cstate (sm s) (to_u16 (sn s + 1)) (tr s)).
Proof.
  intros H. unfold do_flood_score.
  destruct (score (sm s) =? max_score) eqn:E; [apply Z.eqb_eq in E; contradiction|].
  reflexivity.
Qed.

Lemma score_frame_length_field h c n a :
  length_field_is_whole_frame (score_frame h c n a) /\
  wpabuf_len (score_frame h c n a) = 26.
Proof.
  unfold length_field_is_whole_frame, score_frame, client_get_mac.
  destruct (addr c) as [[[[[a1 a2] a3] a4] a5] a6].
  destruct (conf_bssid h) as [[[[[b1 b2] b3] b4] b5] b6].
  split; reflexivity.
Qed.

Lemma close_client_frame_length_field h c n :
  length_field_is_whole_frame (close_client_frame h c n) /\
  wpabuf_len (close_client_frame h c n) = 27.
Proof.
  unfold length_field_is_whole_frame, close_client_frame, client_get_mac,
    client_get_remote_bssid.
  destruct (addr c) as [[[[[a1 a2] a3] a4] a5] a6].
  destruct (conf_bssid h) as [[[[[b1 b2] b3] b4] b5] b6].
  destruct (remote_bssid c) as [[[[[r1 r2] r3] r4] r5] r6].
  split; reflexivity.
Qed.

Lemma closed_client_frame_length_field h c n :
  length_field_is_whole_frame (closed_client_frame h c n) /\
  wpabuf_len (closed_client_frame h c n) = 20.
Proof.
  unfold length_field_is_whole_frame, closed_client_frame, client_get_mac.
  destruct (addr c) as [[[[[a1 a2] a3] a4] a5] a6].
  destruct (conf_bssid h) as [[[[[b1 b2] b3] b4] b5] b6].
  split; reflexivity.
Qed.

(** C5, as the code has it: in every frame the three flood functions
    send, the field at offset 2 is the byte length of the entire frame, the
    magic and version bytes included; the SCORE frame that [A] sends for
    [K] is 26 bytes long and says 26, where the specification has 24. *)
Theorem total_length_counts_whole_frame (h : hostapd_data) (now : os_time)
  (c : net_steering_client) (n : Z) :
  Forall length_field_is_whole_frame
    (sent_frames (tr (do_flood_score h now (mk_cstate c n [])))) /\
  Forall length_field_is_whole_frame
    (sent_frames (tr (flood_close_client h (mk_cstate c n [])))) /\
  Forall length_field_is_whole_frame
    (sent_frames (tr (flood_closed_client h (mk_cstate c n [])))) /\
  (exists f,
     sent_frames (tr (do_flood_score hapd_A (mk_os_time 101 0)
                        (mk_cstate K_associated_at_A 0 []))) = [f] /\
     wpabuf_len f = 26 /\ read_u16 f 2 = Some 26 /\ spec_total_length f = 24).
Proof.
  split; [|split; [|split]].
  - destruct (Z.eq_dec (score c) max_score) as [E|E].
    + unfold do_flood_score. simpl sm. rewrite E. simpl. constructor.
    + rewrite do_flood_score_frame by exact E.
      apply flood_message_to_frames; [apply score_frame_length_field | constructor].
  - rewrite flood_close_client_frame.
    apply flood_message_to_frames; [apply close_client_frame_length_field | constructor].
  - rewrite flood_closed_client_frame.
    apply flood_message_to_frames; [apply closed_client_frame_length_field | constructor].
  - eexists. split; [vm_compute; reflexivity|]. repeat split.
Qed.

(** ** Traces *)

Lemma dispatched_app (t u : list effect) :
  dispatched (t ++ u) = dispatched t ++ dispatched u.
Proof.
  induction t as [|e t IH]; simpl; [reflexivity|].
  destruct e; simpl; rewrite ?IH; reflexivity.
Qed.

Lemma dispatched_flood h peers buf t :
  dispatched (flood_message_to h peers buf t) = dispatched t.
Proof.
  revert t. induction peers as [|d r IH]; simpl; intros t; [reflexivity|].
  destruct (negb (mac_eqb d (own_addr h))); rewrite IH; [|reflexivity].
  rewrite dispatched_app. simpl. apply app_nil_r.
Qed.

Lemma blacklist_calls_flood h peers buf t :
  filter is_blacklist_call (flood_message_to h peers buf t) = filter is_blacklist_call t.
Proof.
  revert t. induction peers as [|d r IH]; simpl; intros t; [reflexivity|].
  destruct (negb (mac_eqb d (own_addr h))); rewrite IH; [|reflexivity].
  rewrite filter_app. simpl. apply app_nil_r.
Qed.

Lemma sent_frames_flood_nil h peers buf t :
  sent_frames (flood_message_to h peers buf t) = [] -> sent_frames t = [].
Proof.
  revert t. induction peers as [|d r IH]; simpl; intros t; [tauto|].
  destruct (negb (mac_eqb d (own_addr h))); intros H; apply IH in H; [|exact H].
  rewrite sent_frames_app in H. apply app_eq_nil in H. tauto.
Qed.

(** ** The state machine, case by case *)

(** A step leaves alone whatever of the client the callbacks own: the
    [sta] pointer, the address, the remote owner and its time, the
    association time and the probe timeouts; and it writes one logger line
    for the event it was given. *)
Lemma do_Event_frame h m e s :
  let s' := sm_STEERING_do_Event h m e s in
  sta (sm s') = sta (sm s) /\
  addr (sm s') = addr (sm s) /\
  remote_bssid (sm s') = remote_bssid (sm s) /\
  remote_time (sm s') = remote_time (sm s) /\
  association_time (sm s') = association_time (sm s) /\
  probe_timeouts (sm s') = probe_timeouts (sm s) /\
  dispatched (tr s') = dispatched (tr s) ++ [e].
Proof.
  open_cstate s; destruct e, m; sm_unfold; split_ifs;
    repeat split;
    repeat first [rewrite dispatched_flood | rewrite dispatched_app]; simpl;
    rewrite ?app_nil_r; reflexivity.
Qed.

(** Outside [MODE_FORCE] a step calls neither blacklist actuator. *)
Lemma do_Event_no_blacklist h m e s :
  m <> MODE_FORCE ->
  filter is_blacklist_call (tr (sm_STEERING_do_Event h m e s)) =
  filter is_blacklist_call (tr s).
Proof.
  intros Hm. destruct m; [| |congruence];
    open_cstate s; destruct e; sm_unfold; split_ifs;
    repeat first [rewrite blacklist_calls_flood | rewrite filter_app]; simpl;
    rewrite ?app_nil_r; reflexivity.
Qed.

(** ** Blacklisting and the mode *)

(** C9: whatever events the state machine of a client is stepped with,
    outside [MODE_FORCE] the run adds no call of [blacklist_add] or
    [blacklist_remove] to the trace. *)
Theorem blacklist_only_in_force_mode (h : hostapd_data) (m : steering_mode)
  (evs : list STEERING_event) (s : cstate) :
  m <> MODE_FORCE ->
  filter is_blacklist_call (tr (run_events h m evs s)) =
  filter is_blacklist_call (tr s).
Proof.
  intros Hm. revert s. induction evs as [|e r IH]; intros s; simpl; [reflexivity|].
  rewrite IH. apply do_Event_no_blacklist. exact Hm.
Qed.

Lemma blacklist_only_in_force_mode_witness :
  MODE_SUGGEST <> MODE_FORCE /\
  filter is_blacklist_call
    (tr (run_events hapd_A MODE_SUGGEST
           [STEERING_E_PEER_NOT_WORSE; STEERING_E_TIMEOUT; STEERING_E_ASSOCIATED;
            STEERING_E_CLOSE_CLIENT; STEERING_E_DISASSOCIATED; STEERING_E_PEER_IS_WORSE]
           (mk_cstate (client_new sta_K) 0 []))) = [].
Proof.
  split; [discriminate|].
  apply (blacklist_only_in_force_mode hapd_A MODE_SUGGEST
           [STEERING_E_PEER_NOT_WORSE; STEERING_E_TIMEOUT; STEERING_E_ASSOCIATED;
            STEERING_E_CLOSE_CLIENT; STEERING_E_DISASSOCIATED; STEERING_E_PEER_IS_WORSE]
           (mk_cstate (client_new sta_K) 0 [])).
  discriminate.
Defined.

(** In [MODE_FORCE] the same run does blacklist, and lifts the blacklist
    again. *)
Fact force_mode_blacklists :
  filter is_blacklist_call
    (tr (run_events hapd_A MODE_FORCE
           [STEERING_E_PEER_NOT_WORSE; STEERING_E_TIMEOUT; STEERING_E_ASSOCIATED;
            STEERING_E_CLOSE_CLIENT; STEERING_E_DISASSOCIATED; STEERING_E_PEER_IS_WORSE]
           (mk_cstate (client_new sta_K) 0 []))) =
  [hostapd_ctrl_iface_blacklist_add sta_K; hostapd_ctrl_iface_blacklist_rm sta_K;
   hostapd_ctrl_iface_blacklist_add sta_K; hostapd_ctrl_iface_blacklist_rm sta_K].
Proof. vm_compute. reflexivity. Qed.

(** ** Leaving the Associated state *)

Lemma do_flood_score_max h now s :
  score (sm s) = max_score -> do_flood_score h now s = s.
Proof. intros H. unfold do_flood_score. rewrite H. reflexivity. Qed.

(** C10: from [STEERING_ASSOCIATED], E_DISASSOCIATED leads to
    [STEERING_IDLE] and E_CLOSE_CLIENT to [STEERING_REJECTING], and after
    any step that leaves [STEERING_ASSOCIATED] the score of the client is
    0xFFFF, so that [do_flood_score] sends nothing and changes nothing. *)
Theorem leaving_associated_resets_score (h : hostapd_data) (m : steering_mode)
  (e : STEERING_event) (s : cstate) :
  STEERING_state_ (sm s) = STEERING_ASSOCIATED ->
  let s' := sm_STEERING_do_Event h m e s in
  (e = STEERING_E_DISASSOCIATED -> STEERING_state_ (sm s') = STEERING_IDLE) /\
  (e = STEERING_E_CLOSE_CLIENT -> STEERING_state_ (sm s') = STEERING_REJECTING) /\
  (STEERING_state_ (sm s') <> STEERING_ASSOCIATED ->
   score (sm s') = 65535 /\ forall now, do_flood_score h now s' = s').
Proof.
  intros Hs s'.
  assert (Hd : e = STEERING_E_DISASSOCIATED -> STEERING_state_ (sm s') = STEERING_IDLE).
  { intros ->. subst s'. unfold sm_STEERING_do_Event. rewrite Hs. reflexivity. }
  assert (Hc : e = STEERING_E_CLOSE_CLIENT -> STEERING_state_ (sm s') = STEERING_REJECTING).
  { intros ->. subst s'. unfold sm_STEERING_do_Event. rewrite Hs. reflexivity. }
  assert (Hsc : STEERING_state_ (sm s') <> STEERING_ASSOCIATED -> score (sm s') = 65535).
  { subst s'. unfold sm_STEERING_do_Event. rewrite Hs.
    destruct e; try reflexivity; simpl; congruence. }
  repeat split; try assumption.
  - apply Hsc; assumption.
  - intros now. apply do_flood_score_max. rewrite max_score_value. apply Hsc. assumption.
Qed.

Lemma leaving_associated_resets_score_witness :
  STEERING_state_ K_associated_at_A = STEERING_ASSOCIATED /\
  score K_associated_at_A = 40 /\
  score (sm (sm_STEERING_do_Event hapd_A MODE_FORCE STEERING_E_CLOSE_CLIENT
               (mk_cstate K_associated_at_A 0 []))) = 65535.
Proof.
  split; [reflexivity|]. split; [reflexivity|].
  destruct (leaving_associated_resets_score hapd_A MODE_FORCE STEERING_E_CLOSE_CLIENT
              (mk_cstate K_associated_at_A 0 []) eq_refl) as [_ [Hto Hleft]].
  apply Hleft. rewrite (Hto eq_refl). discriminate.
Defined.

(** ** Comparing scores *)

Lemma compare_scores_dispatch h m v s :
  compare_scores h m v s = sm_STEERING_do_Event h m (compare_scores_event (sm s) v) s.
Proof.
  unfold compare_scores, compare_scores_event. destruct (score (sm s) <? v); reflexivity.
Qed.

(** C2, as the code has it: a received score of 0xFFFF is compared like
    any other.  [compare_scores] steps the machine with E_PEER_IS_WORSE
    when the local score is below 0xFFFF and with E_PEER_NOT_WORSE when it
    is 0xFFFF too, never with E_PEER_LOST_CLIENT.  When [A], rejecting [K]
    with no local score, receives such a SCORE from [B], the event is
    E_PEER_NOT_WORSE, ignored in [STEERING_REJECTING]: [K] stays rejected
    and blacklisted. *)
Theorem max_score_never_peer_lost (h : hostapd_data) (m : steering_mode)
  (c : net_steering_client) (n : Z) :
  let s' := compare_scores h m max_score (mk_cstate c n []) in
  dispatched (tr s') =
    [if score c <? 65535 then STEERING_E_PEER_IS_WORSE else STEERING_E_PEER_NOT_WORSE] /\
  ~ In STEERING_E_PEER_LOST_CLIENT (dispatched (tr s')) /\
  (let w := world_of hapd_A MODE_FORCE [K_rejecting_at_A] in
   let r := receive true (mk_os_time 200 0) lost_score_frame w in
   fst r = RX_done /\
   dispatched (trace (snd r)) = [STEERING_E_PEER_NOT_WORSE] /\
   option_map STEERING_state_ (client_find (bss (snd r)) sta_K) = Some STEERING_REJECTING /\
   filter is_blacklist_call (trace (snd r)) = []).
Proof.
  intros s'.
  assert (H : dispatched (tr s') =
    [if score c <? 65535 then STEERING_E_PEER_IS_WORSE else STEERING_E_PEER_NOT_WORSE]).
  { subst s'. rewrite compare_scores_dispatch.
    destruct (do_Event_frame h m (compare_scores_event (sm (mk_cstate c n [])) max_score)
                (mk_cstate c n [])) as (_ & _ & _ & _ & _ & _ & Hd).
    rewrite Hd. reflexivity. }
  split; [exact H|]. split.
  - rewrite H. destruct (score c <? 65535); simpl; intros [E|[]]; discriminate.
  - vm_compute. repeat split.
Qed.

(** ** The clients of the examples are reachable

    From empty registries: [K] associates to [A] at 100 s with RSSI -40;
    [B], which heard a probe of [K] at RSSI -30, receives [A]'s SCORE and
    sends its CLOSE_CLIENT; [A] receives it. *)
Fact example_clients_reachable :
  let K_sta := mk_sta_info sta_K 0 in
  let wA := run [I_association true (mk_os_time 100 0) K_sta (-40)]
                (world_of hapd_A MODE_FORCE []) in
  let wB := run [I_probe true (mk_os_time 99 0) sta_K bssid_B (-30);
                 I_receive true (mk_os_time 101 0)
                   (score_frame hapd_A K_associated_at_A 0 1000)]
                (world_of hapd_B MODE_FORCE []) in
  let wA' := run [I_receive true (mk_os_time 102 0)
                    (close_client_frame hapd_B K_confirming_at_B 0)] wA in
  clients (bss wA) = [K_associated_at_A] /\
  frames_to bssid_B (trace wA) = [score_frame hapd_A K_associated_at_A 0 0] /\
  clients (bss wB) = [K_confirming_at_B] /\
  frames_to bssid_A (trace wB) = [close_client_frame hapd_B K_confirming_at_B 0] /\
  clients (bss wA') = [K_rejecting_at_A].
Proof. vm_compute. repeat split. Qed.

(** ** The CLOSED_CLIENT acknowledgement *)

Lemma closed_client_frame_parse h c n :
  parse_closed_client (at_pos (closed_client_frame h c n) 8) closed_len =
  P_read 12 (mk_closed_client_tlv (addr c) (conf_bssid h)).
Proof.
  unfold closed_client_frame, client_get_mac.
  destruct (addr c) as [[[[[a1 a2] a3] a4] a5] a6].
  destruct (conf_bssid h) as [[[[[b1 b2] b3] b4] b5] b6].
  reflexivity.
Qed.

(** The receiver of a CLOSED_CLIENT steps a machine only when the BSSID of
    the TLV is its own. *)
Lemma receive_closed_client_other_bssid a target w :
  target <> conf_bssid (hapd (bss w)) -> receive_closed_client a target w = w.
Proof.
  intros H. unfold receive_closed_client.
  replace (mac_eqb (conf_bssid (hapd (bss w))) target) with false; [reflexivity|].
  symmetry. apply mac_eqb_neq. congruence.
Qed.

(** C1, as the code has it: the CLOSED_CLIENT TLV that
    [flood_closed_client] builds carries the BSSID of the AP that sends it,
    whatever [close_bssid] holds.  [A], rejecting [K] at [B]'s request,
    sees [K] disassociate (action A8): the frame it sends to [B] names [A];
    [B], which is confirming, compares the field with its own BSSID, steps
    no machine and stays in [STEERING_CONFIRMING].  The same TLV with
    [close_bssid] in the field would have taken [B] to
    [STEERING_ASSOCIATING].  The acknowledgement of action A5 (from
    [STEERING_ASSOCIATING] on E_CLOSE_CLIENT) is built by the same
    function. *)
Theorem closed_client_names_its_sender :
  (forall h c n,
     parse_closed_client (at_pos (closed_client_frame h c n) 8) closed_len =
     P_read 12 (mk_closed_client_tlv (addr c) (conf_bssid h))) /\
  (let sA := sm_STEERING_do_Event hapd_A MODE_FORCE STEERING_E_DISASSOCIATED
               (mk_cstate K_rejecting_at_A 0 []) in
   let wB := world_of hapd_B MODE_FORCE [K_confirming_at_B] in
   close_bssid K_rejecting_at_A = bssid_B /\
   STEERING_state_ (sm sA) = STEERING_REJECTED /\
   frames_to bssid_B (tr sA) = [closed_client_frame hapd_A K_rejecting_at_A 0] /\
   parse_closed_client (at_pos (closed_client_frame hapd_A K_rejecting_at_A 0) 8) 12 =
     P_read 12 (mk_closed_client_tlv sta_K bssid_A) /\
   receive true (mk_os_time 200 0) (closed_client_frame hapd_A K_rejecting_at_A 0) wB =
     (RX_done, wB) /\
   option_map STEERING_state_
     (client_find (bss (receive_closed_client sta_K bssid_B wB)) sta_K) =
     Some STEERING_ASSOCIATING) /\
  (let c := set_close_bssid bssid_B (set_state STEERING_ASSOCIATING (client_new sta_K)) in
   let sA := sm_STEERING_do_Event hapd_A MODE_FORCE STEERING_E_CLOSE_CLIENT
               (mk_cstate c 0 []) in
   STEERING_state_ (sm sA) = STEERING_REJECTED /\
   frames_to bssid_B (tr sA) = [closed_client_frame hapd_A c 0] /\
   parse_closed_client (at_pos (closed_client_frame hapd_A c 0) 8) 12 =
     P_read 12 (mk_closed_client_tlv sta_K bssid_A)).
Proof.
  split; [exact closed_client_frame_parse|].
  split; vm_compute; repeat split.
Qed.

(** ** The header checks of the receive path *)

Lemma parse_header_short buf len : len < 6 -> parse_header buf len = P_zero.
Proof.
  intros H. unfold parse_header.
  replace (len <? 1 + 1 + 2 + 2) with true by (symmetry; apply Z.ltb_lt; lia).
  reflexivity.
Qed.

Lemma parse_header_six (b0 b1 b2 b3 b4 b5 : Z) (rest : list Z) (len : Z) :
  6 <= len ->
  parse_header (b0 :: b1 :: b2 :: b3 :: b4 :: b5 :: rest) len =
  P_read 6 (mk_frame_header b0 b1 (ntohs_bytes b2 b3) (ntohs_bytes b4 b5)).
Proof.
  intros H. unfold parse_header, read_u8, read_u16.
  replace (len <? 1 + 1 + 2 + 2) with false by (symmetry; apply Z.ltb_ge; lia).
  rewrite !mem_read_ok by (simpl length; lia). reflexivity.
Qed.

(** [receive] leaves before the TLV loop, with the world as it was, in
    exactly three cases: fewer than six bytes, a length field above the
    number of bytes received, and a version or a magic byte that differs
    from the local one. *)
Lemma receive_header_checks alloc now buf w :
  let len := Z.of_nat (length buf) in
  (len < 6 /\ receive alloc now buf w = (RX_short_header, w)) \/
  (exists hd, parse_header buf len = P_read 6 hd /\
     ((len < h_packet_len hd /\ receive alloc now buf w = (RX_short_message, w)) \/
      (h_packet_len hd <= len /\ (h_version hd <> tlv_version \/ h_magic hd <> tlv_magic) /\
       receive alloc now buf w = (RX_invalid, w)) \/
      (h_packet_len hd <= len /\ h_version hd = tlv_version /\ h_magic hd = tlv_magic /\
       receive alloc now buf w =
       receive_tlvs (Z.to_nat (h_packet_len hd)) alloc now buf (h_packet_len hd) 6 w))).
Proof.
  intros len. destruct (Z_lt_le_dec len 6) as [H6|H6].
  - left. split; [exact H6|]. unfold receive. fold len.
    rewrite parse_header_short by exact H6. reflexivity.
  - right. subst len.
    destruct buf as [|b0 [|b1 [|b2 [|b3 [|b4 [|b5 rest]]]]]]; simpl length in H6; try lia.
    set (buf := b0 :: b1 :: b2 :: b3 :: b4 :: b5 :: rest) in *.
    exists (mk_frame_header b0 b1 (ntohs_bytes b2 b3) (ntohs_bytes b4 b5)).
    assert (Hp : parse_header buf (Z.of_nat (length buf)) =
                 P_read 6 (mk_frame_header b0 b1 (ntohs_bytes b2 b3) (ntohs_bytes b4 b5))).
    { apply parse_header_six. subst buf. simpl length. lia. }
    split; [exact Hp|]. unfold receive. rewrite Hp.
    cbn [h_packet_len h_version h_magic].
    destruct (Z.of_nat (length buf) <? ntohs_bytes b2 b3) eqn:El.
    + left. apply Z.ltb_lt in El. split; [exact El | reflexivity].
    + right. apply Z.ltb_ge in El.
      destruct (Z.eqb_spec tlv_version b1) as [Ev|Ev];
        destruct (Z.eqb_spec tlv_magic b0) as [Em|Em]; cbn [negb orb].
      * right. repeat split; first [assumption | congruence | reflexivity].
      * left. repeat split; try assumption. right. congruence.
      * left. repeat split; try assumption. left. congruence.
      * left. repeat split; try assumption. left. congruence.
Qed.

(** A frame that passes the length checks and whose version is below the
    local one is dropped like one whose version is above it. *)
Lemma receive_drops_lower_versions alloc t buf w hd :
  parse_header buf (Z.of_nat (length buf)) = P_read 6 hd ->
  h_packet_len hd <= Z.of_nat (length buf) ->
  h_version hd < tlv_version ->
  receive alloc t buf w = (RX_invalid, w).
Proof.
  intros Hp Hl Hv.
  destruct (receive_header_checks alloc t buf w) as [[H6 _]|[hd' [Hp' H]]].
  - rewrite parse_header_short in Hp by exact H6. discriminate.
  - rewrite Hp in Hp'. injection Hp' as <-.
    destruct H as [[H _]|[(_ & _ & H)|(_ & H & _)]]; [lia | exact H | lia].
Qed.

(** C4, as the code has it: the version check is an inequality.  The
    well-formed SCORE frame with version 0 is dropped whole, the world
    unchanged, where the same frame with version 1 has its TLV processed:
    the client is created and the machine stepped. *)
Theorem version_zero_frame_is_dropped :
  let w := world_of hapd_A MODE_FORCE [] in
  let now := mk_os_time 200 0 in
  receive true now (score_frame_with_version 0) w = (RX_invalid, w) /\
  fst (receive true now (score_frame_with_version 1) w) = RX_done /\
  dispatched (trace (snd (receive true now (score_frame_with_version 1) w))) =
    [STEERING_E_PEER_NOT_WORSE] /\
  option_map STEERING_state_
    (client_find (bss (snd (receive true now (score_frame_with_version 1) w))) sta_K) =
    Some STEERING_REJECTED.
Proof.
  intros w now. repeat split.
Qed.

(** ** Working on a client of the registry *)

Lemma on_client_find w c f :
  client_find (bss w) (addr c) <> None ->
  addr (sm (f (hapd (bss w)) (mode (bss w)) (mk_cstate c (frame_sn (bss w)) (trace w))))
    = addr c ->
  client_find (bss (on_client w c f)) (addr c) =
  Some (sm (f (hapd (bss w)) (mode (bss w)) (mk_cstate c (frame_sn (bss w)) (trace w)))).
Proof.
  intros Hf Ha. unfold on_client, client_find in *. cbn [bss clients].
  destruct (client_find_in (clients (bss w)) (addr c)) as [c0|] eqn:E; [|congruence].
  apply (client_find_put_in _ _ c0); assumption.
Qed.

Lemma client_is_associated_true c :
  client_is_associated c = true ->
  (exists st, sta c = Some st) /\ STEERING_state_ c = STEERING_ASSOCIATED.
Proof.
  unfold client_is_associated. destruct (sta c) as [st|]; [|discriminate].
  destruct (STEERING_state_ c); try discriminate. intros _. split; [eauto | reflexivity].
Qed.

(** [client_disassociate] on a client that is associated: the machine
    takes E_DISASSOCIATED to [STEERING_IDLE], then the callback clears the
    [sta] pointer and the remote owner and registers a probe timeout,
    which is one more pending unless the registration fails. *)
Lemma client_disassociate_associated h m s :
  client_is_associated (sm s) = true ->
  let s' := client_disassociate h m s in
  STEERING_state_ (sm s') = STEERING_IDLE /\
  sta (sm s') = None /\
  score (sm s') = 65535 /\
  addr (sm s') = addr (sm s) /\
  flood_timeouts (sm s') = O /\
  probe_timeouts (sm s') =
    eloop_register_timeout
      (eloop_register_fails h (addr (sm s)) (registrations (sm s)))
      (probe_timeouts (sm s)) /\
  dispatched (tr s') = dispatched (tr s) ++ [STEERING_E_DISASSOCIATED].
Proof.
  intros H. apply client_is_associated_true in H. destruct H as [[st Hst] Hs].
  destruct s as [c n t]. destruct c. cbn [sm sta STEERING_state_] in *. subst.
  unfold client_disassociate. sm_unfold. cbn [dispatched].
  rewrite dispatched_app. repeat split.
Qed.

(** ** A SCORE from a new owner while the client is associated here *)

(** C3, as the code has it: when the SCORE comes from a BSSID other than
    [remote_bssid] with a strictly later adjusted time and the client is
    associated here, [receive_score] steps the machine with E_DISASSOCIATED
    and with nothing else: the client is left in [STEERING_IDLE] without
    its [sta], the sender recorded as remote owner with the adjusted time,
    and no score comparison takes place. *)
Theorem roaming_score_disassociates_only (alloc : bool) (now : os_time)
  (a bssid : mac) (v msecs : Z) (w : world) (c : net_steering_client) :
  client_find (bss w) a = Some c ->
  client_is_associated c = true ->
  bssid <> remote_bssid c ->
  os_time_before (remote_time c) (adjusted_time now msecs) = true ->
  let w' := receive_score alloc now a bssid v msecs w in
  dispatched (trace w') = dispatched (trace w) ++ [STEERING_E_DISASSOCIATED] /\
  exists c', client_find (bss w') a = Some c' /\
             STEERING_state_ c' = STEERING_IDLE /\
             sta c' = None /\
             remote_bssid c' = bssid /\
             remote_time c' = adjusted_time now msecs.
Proof.
  intros Hf Ha Hb Ht w'.
  assert (Haddr : addr c = a) by (apply (client_find_in_addr _ _ _ Hf)).
  subst w'. unfold receive_score, client_find_or_create. rewrite Hf.
  set (f := receive_score_client now bssid v msecs).
  set (s0 := mk_cstate c (frame_sn (bss w)) (trace w)).
  assert (Hfs : f (hapd (bss w)) (mode (bss w)) s0 =
                upd (client_update_remote bssid (adjusted_time now msecs))
                    (client_disassociate (hapd (bss w)) (mode (bss w)) s0)).
  { subst f. unfold receive_score_client. cbn [sm s0].
    replace (mac_eqb bssid (client_get_remote_bssid c)) with false
      by (symmetry; apply mac_eqb_neq; exact Hb).
    cbn [negb]. fold (adjusted_time now msecs). rewrite Ht, Ha. reflexivity. }
  destruct (client_disassociate_associated (hapd (bss w)) (mode (bss w)) s0 Ha)
    as (Hst & Hsta & _ & Had & _ & _ & Hd).
  split.
  - unfold on_client. fold s0. rewrite Hfs. cbn [trace]. exact Hd.
  - exists (sm (f (hapd (bss w)) (mode (bss w)) s0)). split.
    + rewrite <- Haddr. apply on_client_find.
      * rewrite Haddr, Hf. discriminate.
      * fold s0. rewrite Hfs. exact Had.
    + rewrite Hfs. destruct (adjusted_time now msecs). repeat split; assumption.
Qed.

Lemma roaming_score_disassociates_only_witness :
  let w := world_of hapd_A MODE_FORCE [K_associated_at_A] in
  let w' := receive_score true (mk_os_time 200 0) sta_K bssid_B 30 1000 w in
  dispatched (trace w') = [STEERING_E_DISASSOCIATED] /\
  exists c', client_find (bss w') sta_K = Some c' /\
             STEERING_state_ c' = STEERING_IDLE /\
             sta c' = None /\
             remote_bssid c' = bssid_B /\
             remote_time c' = mk_os_time 199 0.
Proof.
  apply (roaming_score_disassociates_only true (mk_os_time 200 0) sta_K bssid_B 30 1000
           (world_of hapd_A MODE_FORCE [K_associated_at_A]) K_associated_at_A).
  - reflexivity.
  - reflexivity.
  - discriminate.
  - reflexivity.
Defined.

(** C3, as the specification words it, fails: [K] is associated to [A]
    when [B]'s SCORE arrives with a later adjusted time; the machine is
    stepped with E_DISASSOCIATED alone, neither E_PEER_IS_WORSE nor
    E_PEER_NOT_WORSE follows, and [K] is left in [STEERING_IDLE], where a
    comparison would have taken it to another state. *)
Lemma roaming_score_is_not_compared :
  let w := world_of hapd_A MODE_FORCE [K_associated_at_A] in
  let w' := receive_score true (mk_os_time 200 0) sta_K bssid_B 30 1000 w in
  client_find (bss w) sta_K = Some K_associated_at_A /\
  client_is_associated K_associated_at_A = true /\
  bssid_B <> remote_bssid K_associated_at_A /\
  os_time_before (remote_time K_associated_at_A) (adjusted_time (mk_os_time 200 0) 1000)
    = true /\
  dispatched (trace w') = [STEERING_E_DISASSOCIATED] /\
  ~ (exists e, (e = STEERING_E_PEER_IS_WORSE \/ e = STEERING_E_PEER_NOT_WORSE) /\
               In e (dispatched (trace w'))) /\
  option_map STEERING_state_ (client_find (bss w') sta_K) = Some STEERING_IDLE.
Proof.
  intros w w'. repeat split; try discriminate.
  intros [e [[-> | ->] [H|[]]]]; discriminate.
Qed.

(** ** The probe-loss timer of a fresh entry *)

Lemma client_find_created w a :
  client_find (mk_nsb (client_new a :: clients (bss w)) (hapd (bss w))
                 (frame_sn (bss w)) (mode (bss w))) a = Some (client_new a).
Proof. unfold client_find. cbn [clients client_find_in client_new addr]. rewrite mac_eqb_refl. reflexivity. Qed.

Lemma client_find_or_create_fresh w a :
  client_find (bss w) a = None ->
  client_find_or_create true w a =
  Some (client_new a,
        mk_world (mk_nsb (client_new a :: clients (bss w)) (hapd (bss w))
                    (frame_sn (bss w)) (mode (bss w))) (trace w)).
Proof. intros H. unfold client_find_or_create. rewrite H. reflexivity. Qed.

Lemma do_flood_score_sm h now s : sm (do_flood_score h now s) = sm s.
Proof. unfold do_flood_score. destruct (score (sm s) =? max_score); reflexivity. Qed.

(** On a client that is not associated here, the body of [receive_score]
    touches neither the [sta] pointer nor the address nor the probe
    timeouts. *)
Lemma receive_score_client_frame now bssid v msecs h m s :
  client_is_associated (sm s) = false ->
  let s' := receive_score_client now bssid v msecs h m s in
  sta (sm s') = sta (sm s) /\ addr (sm s') = addr (sm s) /\
  probe_timeouts (sm s') = probe_timeouts (sm s).
Proof.
  intros Hn. unfold receive_score_client. rewrite Hn.
  destruct (negb (mac_eqb bssid (client_get_remote_bssid (sm s)))).
  - destruct (os_time_before _ _); [|repeat split].
    rewrite compare_scores_dispatch.
    match goal with
    | |- context [sm_STEERING_do_Event h m ?e ?s1] =>
        destruct (do_Event_frame h m e s1) as (H1 & H2 & _ & _ & _ & H3 & _)
    end.
    cbv zeta. rewrite H1, H2, H3. repeat split.
  - rewrite compare_scores_dispatch.
    destruct (do_Event_frame h m (compare_scores_event (sm s) v) s)
      as (H1 & H2 & _ & _ & _ & H3 & _).
    cbv zeta. rewrite H1, H2, H3. repeat split.
Qed.

(** C6, as the code has it, for an entry that has just been created (no
    entry for the MAC before, the allocation succeeds): created by a probe
    directed at the local BSSID, it has no [sta], and one probe timeout
    pending if the registration of that timeout (the first one for the
    client) succeeds: when it fails, none is pending and "armed iff [sta]
    absent" fails for the entry; created by a local association, it has
    its [sta] and no probe timeout pending; created by a received SCORE, it
    has no [sta] and no probe timeout pending, and "armed iff [sta] absent"
    fails again, whatever the event loop does. *)
Theorem fresh_entry_probe_timer (now : os_time) (a : mac) (w : world) :
  client_find (bss w) a = None ->
  (forall rssi, exists c,
     client_find (bss (probe_req_cb true now a (conf_bssid (hapd (bss w))) rssi w)) a
       = Some c /\
     sta c = None /\
     probe_timeouts c =
       (if eloop_register_fails (hapd (bss w)) a 0 then 0%nat else 1%nat) /\
     (probe_timer_invariant c <-> eloop_register_fails (hapd (bss w)) a 0 = false)) /\
  (forall st rssi, sta_addr st = a -> exists c,
     client_find (bss (net_steering_association true now st rssi w)) a = Some c /\
     sta c = Some st /\ probe_timeouts c = 0%nat /\ probe_timer_invariant c) /\
  (forall bssid v msecs, exists c,
     client_find (bss (receive_score true now a bssid v msecs w)) a = Some c /\
     sta c = None /\ probe_timeouts c = 0%nat /\ ~ probe_timer_invariant c).
Proof.
  intros Hnone.
  pose proof (client_find_or_create_fresh w a Hnone) as Hc.
  pose proof (client_find_created w a) as Hfound.
  set (w1 := mk_world (mk_nsb (client_new a :: clients (bss w)) (hapd (bss w))
                         (frame_sn (bss w)) (mode (bss w))) (trace w)) in *.
  assert (Hne : client_find (bss w1) (addr (client_new a)) <> None).
  { subst w1. cbn [bss addr client_new]. rewrite Hfound. discriminate. }
  split; [|split].
  - intros rssi. unfold probe_req_cb. rewrite Hnone, mac_eqb_refl. cbn [orb].
    rewrite Hc. eexists. split.
    + change a with (addr (client_new a)) at 2. apply on_client_find; [exact Hne|].
      cbv beta. destruct (negb (compute_score rssi =? score _)); reflexivity.
    + cbv beta. unfold probe_timer_invariant, probe_timer_armed.
      destruct (negb (compute_score rssi =? score _));
        sm_unfold; cbn [bss hapd w1 client_new Nat.ltb Nat.leb];
        destruct (eloop_register_fails (hapd (bss w)) a 0);
        (split; [reflexivity | split; [reflexivity|]]);
        cbn [Nat.ltb Nat.leb];
        (split; [first [reflexivity
                       | intros [_ H2]; specialize (H2 eq_refl); discriminate]
                | first [discriminate | intros _; split; reflexivity]]).
  - intros st rssi Hst. subst a. unfold net_steering_association. rewrite Hc.
    match goal with
    | |- context [on_client w1 _ ?f] => set (f0 := f)
    end.
    assert (Hf0 : let s' := f0 (hapd (bss w1)) (mode (bss w1))
                    (mk_cstate (client_new (sta_addr st)) (frame_sn (bss w1)) (trace w1)) in
                  sta (sm s') = Some st /\ addr (sm s') = sta_addr st /\
                  probe_timeouts (sm s') = 0%nat).
    { subst f0. cbv beta zeta.
      match goal with
      | |- context [sm_STEERING_do_Event ?h ?m ?e ?s1] =>
          destruct (do_Event_frame h m e s1) as (H1 & H2 & _ & _ & _ & H3 & _)
      end.
      cbv zeta in H1, H2, H3. rewrite H1, H2, H3, !do_flood_score_sm. repeat split. }
    destruct Hf0 as (H1 & H2 & H3). eexists. split.
    + change (sta_addr st) with (addr (client_new (sta_addr st))) at 2.
      apply on_client_find; [exact Hne | exact H2].
    + unfold probe_timer_invariant, probe_timer_armed. rewrite H1, H3.
      repeat split; intros; discriminate.
  - intros bssid v msecs. unfold receive_score. rewrite Hc.
    destruct (receive_score_client_frame now bssid v msecs (hapd (bss w1)) (mode (bss w1))
                (mk_cstate (client_new a) (frame_sn (bss w1)) (trace w1)) eq_refl)
      as (H1 & H2 & H3).
    eexists. split.
    + change a with (addr (client_new a)) at 2. apply on_client_find; [exact Hne | exact H2].
    + unfold probe_timer_invariant, probe_timer_armed. rewrite H1, H3.
      repeat split. intros [_ H]. specialize (H eq_refl). discriminate.
Qed.

Lemma fresh_entry_probe_timer_witness :
  let w := world_of hapd_A MODE_FORCE [] in
  let v := world_of hapd_A_without_timers MODE_FORCE [] in
  let now := mk_os_time 200 0 in
  client_find (bss w) sta_K = None /\
  option_map probe_timeouts
    (client_find (bss (probe_req_cb true now sta_K bssid_A (-50) w)) sta_K) = Some 1%nat /\
  option_map probe_timeouts
    (client_find (bss (receive_score true now sta_K bssid_B 30 1000 w)) sta_K) = Some 0%nat /\
  client_find (bss v) sta_K = None /\
  option_map probe_timeouts
    (client_find (bss (probe_req_cb true now sta_K bssid_A (-50) v)) sta_K) = Some 0%nat.
Proof.
  intros w v now. split; [reflexivity|].
  destruct (fresh_entry_probe_timer now sta_K w eq_refl) as (Hp & _ & Hs).
  destruct (fresh_entry_probe_timer now sta_K v eq_refl) as (Hq & _ & _).
  split; [|split; [|split; [reflexivity|]]].
  - destruct (Hp (-50)) as (c & Hc & _ & Ht & _).
    change (conf_bssid (hapd (bss w))) with bssid_A in Hc. rewrite Hc. simpl. rewrite Ht.
    reflexivity.
  - destruct (Hs bssid_B 30 1000) as (c & Hc & _ & Ht & _). rewrite Hc. simpl. rewrite Ht.
    reflexivity.
  - destruct (Hq (-50)) as (c & Hc & _ & Ht & _).
    change (conf_bssid (hapd (bss v))) with bssid_A in Hc. rewrite Hc. simpl. rewrite Ht.
    reflexivity.
Defined.

(** C6, as the specification words it, fails: the entry that a received
    SCORE creates for [K] has no [sta] and no probe timeout pending, at the
    return of the callback. *)
Lemma score_created_entry_has_no_probe_timer :
  let w := world_of hapd_A MODE_FORCE [] in
  let w' := snd (receive true (mk_os_time 200 0) (score_frame_with_version 1) w) in
  client_find (bss w) sta_K = None /\
  exists c, client_find (bss w') sta_K = Some c /\
            sta c = None /\ probe_timer_armed c = false /\
            ~ probe_timer_invariant c.
Proof.
  intros w w'. split; [reflexivity|].
  eexists. split; [vm_compute; reflexivity|].
  split; [reflexivity|]. split; [reflexivity|].
  intros [_ H]. specialize (H eq_refl). discriminate.
Qed.

(** The invariant also fails, in either direction, on entries that are not
    fresh.  [K] associates to [A], [B]'s CLOSE_CLIENT takes it to
    [STEERING_REJECTING] with its [sta] still set, and a probe heard before
    the disassociation registers a probe timeout; and after a probe of an
    unknown client, the timeout that fires leaves no timeout pending and no
    [sta]. *)
Fact probe_timer_on_older_entries :
  let w0 := world_of hapd_A MODE_FORCE [] in
  let w1 := net_steering_association true (mk_os_time 100 0) (mk_sta_info sta_K 0) (-40) w0 in
  let w2 := receive_close_client sta_K bssid_B bssid_A 11 w1 in
  let w3 := probe_req_cb true (mk_os_time 101 0) sta_K bssid_A (-45) w2 in
  let v1 := probe_req_cb true (mk_os_time 100 0) sta_K bssid_A (-50) w0 in
  let v2 := match client_find (bss v1) sta_K with
            | Some c => on_client v1 c (fun _ _ s => probe_timeout s)
            | None => v1
            end in
  (exists c, client_find (bss w3) sta_K = Some c /\
             STEERING_state_ c = STEERING_REJECTING /\
             sta c = Some (mk_sta_info sta_K 0) /\ probe_timer_armed c = true) /\
  (exists c, client_find (bss v2) sta_K = Some c /\
             sta c = None /\ score c = 65535 /\ probe_timer_armed c = false).
Proof.
  split; eexists; (split; [vm_compute; reflexivity | repeat split]).
Qed.

(** ** The TLV loop ends *)

Lemma In_firstn_skipn (A : Type) (x : A) (n k : nat) (l : list A) :
  In x (firstn n (skipn k l)) -> In x l.
Proof.
  intros H. rewrite <- (firstn_skipn k l). apply in_or_app. right.
  rewrite <- (firstn_skipn n (skipn k l)). apply in_or_app. left. exact H.
Qed.

Lemma read_u8_In (b : list Z) (off v : Z) : read_u8 b off = Some v -> In v b.
Proof.
  unfold read_u8, mem_read. destruct (_ && _); [|discriminate].
  destruct (firstn 1 (skipn (Z.to_nat off) b)) as [|a [|a' r]] eqn:E; try discriminate.
  intros [= <-]. apply (In_firstn_skipn _ a 1 (Z.to_nat off)). rewrite E. left. reflexivity.
Qed.

Lemma parse_tlv_header_read b len n t l :
  parse_tlv_header b len = P_read n (t, l) -> n = 2 /\ In l b.
Proof.
  unfold parse_tlv_header. destruct (len <? 1 + 1); [discriminate|].
  destruct (read_u8 b 0) as [t'|]; [|discriminate].
  destruct (read_u8 b 1) as [l'|] eqn:E; [|discriminate].
  intros [= <- _ <-]. split; [reflexivity | exact (read_u8_In _ _ _ E)].
Qed.

Lemma parse_score_read b len n t : parse_score b len = P_read n t -> n = 18.
Proof.
  unfold parse_score. destruct (len <? score_len); [discriminate|].
  destruct (read_mac b 0), (read_mac b 6), (read_u16 b 12), (read_u32 b 14);
    try discriminate. intros [= <- _]. reflexivity.
Qed.

Lemma parse_close_client_read b len n t : parse_close_client b len = P_read n t -> n = 19.
Proof.
  unfold parse_close_client. destruct (len <? close_len); [discriminate|].
  destruct (read_mac b 0), (read_mac b 6), (read_mac b 12), (read_u8 b 18);
    try discriminate. intros [= <- _]. reflexivity.
Qed.

Lemma parse_closed_client_read b len n t : parse_closed_client b len = P_read n t -> n = 12.
Proof.
  unfold parse_closed_client. destruct (len <? closed_len); [discriminate|].
  destruct (read_mac b 0), (read_mac b 6); try discriminate. intros [= <- _]. reflexivity.
Qed.

(** With the bytes of the buffer in [0, 256), every round of the loop
    moves the position forward, and [packet_len - pos] rounds are enough:
    the loop bound of the model is never what stops [receive_tlvs]. *)
Lemma receive_tlvs_fuel alloc now buf packet_len :
  Forall (fun b => 0 <= b < 256) buf ->
  forall fuel pos w,
    packet_len - pos <= Z.of_nat fuel ->
    fst (receive_tlvs fuel alloc now buf packet_len pos w) <> RX_fuel.
Proof.
  intros Hbytes. induction fuel as [|fuel IH]; intros pos w Hf; simpl.
  - destruct (pos <? packet_len) eqn:E; [apply Z.ltb_lt in E; lia | discriminate].
  - destruct (pos <? packet_len) eqn:E; [|discriminate].
    destruct (parse_tlv_header (at_pos buf pos) (packet_len - pos)) as [|n [t l]|] eqn:Eh;
      try discriminate.
    apply parse_tlv_header_read in Eh. destruct Eh as [-> Hl].
    assert (0 <= l).
    { unfold at_pos in Hl.
      assert (Hin : In l buf).
      { rewrite <- (firstn_skipn (Z.to_nat pos) buf). apply in_or_app. right. exact Hl. }
      rewrite Forall_forall in Hbytes. apply Hbytes in Hin. lia. }
    destruct (t =? TLV_SCORE).
    { destruct (parse_score _ _) as [|n x|] eqn:Ep; try discriminate.
      apply parse_score_read in Ep. subst n. apply IH. lia. }
    destruct (t =? TLV_CLOSE_CLIENT).
    { destruct (parse_close_client _ _) as [|n x|] eqn:Ep; try discriminate.
      apply parse_close_client_read in Ep. subst n. apply IH. lia. }
    destruct (t =? TLV_CLOSED_CLIENT).
    { destruct (parse_closed_client _ _) as [|n x|] eqn:Ep; try discriminate.
      apply parse_closed_client_read in Ep. subst n. apply IH. lia. }
    apply IH. lia.
Qed.

(** ** Whole callbacks and the blacklist *)

(** The same holds of whole callbacks: no probe, frame, association,
    disassociation or timer makes a context outside [MODE_FORCE] call a
    blacklist actuator. *)

Lemma on_client_quiet w c f :
  quiet f -> mode (bss w) <> MODE_FORCE ->
  filter is_blacklist_call (trace (on_client w c f)) = filter is_blacklist_call (trace w).
Proof. intros Hq Hm. unfold on_client. cbn [trace]. rewrite Hq by exact Hm. reflexivity. Qed.

Lemma do_flood_score_quiet h now s :
  filter is_blacklist_call (tr (do_flood_score h now s)) = filter is_blacklist_call (tr s).
Proof.
  unfold do_flood_score. destruct (score (sm s) =? max_score); [reflexivity|].
  cbv beta iota zeta delta [header_put_next flood_message tr sm sn].
  apply blacklist_calls_flood.
Qed.

Lemma compare_scores_quiet v : quiet (fun h m s => compare_scores h m v s).
Proof.
  intros h m s Hm. rewrite compare_scores_dispatch. apply do_Event_no_blacklist. exact Hm.
Qed.

Lemma client_disassociate_quiet : quiet client_disassociate.
Proof.
  intros h m s Hm. unfold client_disassociate. cbn [upd tr].
  apply do_Event_no_blacklist. exact Hm.
Qed.

Lemma receive_score_client_quiet now bssid v msecs :
  quiet (receive_score_client now bssid v msecs).
Proof.
  intros h m s Hm. unfold receive_score_client.
  destruct (negb _); [|apply compare_scores_quiet; exact Hm].
  destruct (os_time_before _ _); [|reflexivity].
  destruct (client_is_associated (sm s)).
  - cbn [upd tr]. apply client_disassociate_quiet. exact Hm.
  - rewrite (compare_scores_quiet v h m _ Hm). reflexivity.
Qed.

Lemma client_find_or_create_quiet alloc w a c w1 :
  client_find_or_create alloc w a = Some (c, w1) ->
  trace w1 = trace w /\ mode (bss w1) = mode (bss w).
Proof.
  unfold client_find_or_create, client_create.
  destruct (client_find (bss w) a); [intros [= _ <-]; split; reflexivity|].
  destruct alloc; [|discriminate]. intros [= _ <-]. split; reflexivity.
Qed.

Lemma mode_on_client w c f : mode (bss (on_client w c f)) = mode (bss w).
Proof. reflexivity. Qed.

Lemma receive_score_quiet alloc now a bssid v msecs w :
  mode (bss w) <> MODE_FORCE ->
  filter is_blacklist_call (trace (receive_score alloc now a bssid v msecs w)) =
    filter is_blacklist_call (trace w) /\
  mode (bss (receive_score alloc now a bssid v msecs w)) = mode (bss w).
Proof.
  intros Hm. unfold receive_score.
  destruct (client_find_or_create alloc w a) as [[c w1]|] eqn:E; [|split; reflexivity].
  destruct (client_find_or_create_quiet _ _ _ _ _ E) as [Ht Hmode].
  rewrite mode_on_client, on_client_quiet, Ht, Hmode;
    [split; reflexivity | apply receive_score_client_quiet | congruence].
Qed.

Lemma receive_close_client_quiet a bssid target ch w :
  mode (bss w) <> MODE_FORCE ->
  filter is_blacklist_call (trace (receive_close_client a bssid target ch w)) =
    filter is_blacklist_call (trace w) /\
  mode (bss (receive_close_client a bssid target ch w)) = mode (bss w).
Proof.
  intros Hm. unfold receive_close_client.
  destruct (mac_eqb _ _); [|split; reflexivity].
  destruct (client_find (bss w) a); [|split; reflexivity].
  rewrite mode_on_client, on_client_quiet; [split; reflexivity | | exact Hm].
  intros h m s Hm'. rewrite do_Event_no_blacklist by exact Hm'. reflexivity.
Qed.

Lemma receive_closed_client_quiet a target w :
  mode (bss w) <> MODE_FORCE ->
  filter is_blacklist_call (trace (receive_closed_client a target w)) =
    filter is_blacklist_call (trace w) /\
  mode (bss (receive_closed_client a target w)) = mode (bss w).
Proof.
  intros Hm. unfold receive_closed_client.
  destruct (mac_eqb _ _); [|split; reflexivity].
  destruct (client_find (bss w) a); [|split; reflexivity].
  rewrite mode_on_client, on_client_quiet; [split; reflexivity | | exact Hm].
  intros h m s Hm'. apply do_Event_no_blacklist. exact Hm'.
Qed.

Lemma receive_tlvs_quiet alloc now buf packet_len fuel :
  forall pos w, mode (bss w) <> MODE_FORCE ->
    filter is_blacklist_call
      (trace (snd (receive_tlvs fuel alloc now buf packet_len pos w))) =
      filter is_blacklist_call (trace w) /\
    mode (bss (snd (receive_tlvs fuel alloc now buf packet_len pos w))) = mode (bss w).
Proof.
  induction fuel as [|fuel IH]; intros pos w Hm; simpl.
  - destruct (pos <? packet_len); split; reflexivity.
  - destruct (pos <? packet_len); [|split; reflexivity].
    destruct (parse_tlv_header _ _) as [|n [t l]|]; try (split; reflexivity).
    destruct (t =? TLV_SCORE).
    { destruct (parse_score _ _) as [|k x|]; try (split; reflexivity).
      destruct (receive_score_quiet alloc now (sc_sta x) (sc_bssid x) (sc_score x)
                  (sc_association_msecs x) w Hm) as [H1 H2].
      destruct (IH (pos + n + k) _ ltac:(rewrite H2; exact Hm)) as [H3 H4].
      rewrite H3, H4, H1, H2. split; reflexivity. }
    destruct (t =? TLV_CLOSE_CLIENT).
    { destruct (parse_close_client _ _) as [|k x|]; try (split; reflexivity).
      destruct (receive_close_client_quiet (cc_sta x) (cc_bssid x) (cc_target_bssid x)
                  (cc_channel x) w Hm) as [H1 H2].
      destruct (IH (pos + n + k) _ ltac:(rewrite H2; exact Hm)) as [H3 H4].
      rewrite H3, H4, H1, H2. split; reflexivity. }
    destruct (t =? TLV_CLOSED_CLIENT).
    { destruct (parse_closed_client _ _) as [|k x|]; try (split; reflexivity).
      destruct (receive_closed_client_quiet (cd_sta x) (cd_target_bssid x) w Hm)
        as [H1 H2].
      destruct (IH (pos + n + k) _ ltac:(rewrite H2; exact Hm)) as [H3 H4].
      rewrite H3, H4, H1, H2. split; reflexivity. }
    apply IH. exact Hm.
Qed.

Lemma step_quiet i w :
  mode (bss w) <> MODE_FORCE ->
  filter is_blacklist_call (trace (step i w)) = filter is_blacklist_call (trace w) /\
  mode (bss (step i w)) = mode (bss w).
Proof.
  intros Hm. destruct i as [alloc now sa bssid rssi|alloc now buf|alloc now st rssi|st
                            |now a|a|a]; cbn [step].
  - unfold probe_req_cb. destruct (_ || _); [|split; reflexivity].
    destruct (client_find_or_create alloc w sa) as [[c w1]|] eqn:E; [|split; reflexivity].
    destruct (client_find_or_create_quiet _ _ _ _ _ E) as [Ht Hmode].
    rewrite mode_on_client, on_client_quiet, Ht, Hmode;
      [split; reflexivity | | congruence].
    intros h m s _. cbv zeta.
    assert (H : filter is_blacklist_call
                  (tr (if negb (compute_score rssi =? score (sm s))
                       then if client_is_associated (sm (upd (set_score (compute_score rssi)) s))
                            then do_flood_score h now (upd (set_score (compute_score rssi)) s)
                            else upd (set_score (compute_score rssi)) s
                       else s)) = filter is_blacklist_call (tr s)).
    { destruct (negb _); [|reflexivity].
      destruct (client_is_associated _); [rewrite do_flood_score_quiet|]; reflexivity. }
    destruct (negb (client_is_associated _)); cbn [upd tr]; exact H.
  - destruct (receive_header_checks alloc now buf w)
      as [[_ ->]|[hd [_ [[_ ->]|[(_ & _ & ->)|(_ & _ & _ & ->)]]]]]; try (split; reflexivity).
    apply receive_tlvs_quiet. exact Hm.
  - unfold net_steering_association.
    destruct (client_find_or_create alloc w (sta_addr st)) as [[c w1]|] eqn:E;
      [|split; reflexivity].
    destruct (client_find_or_create_quiet _ _ _ _ _ E) as [Ht Hmode].
    rewrite mode_on_client, on_client_quiet, Ht, Hmode;
      [split; reflexivity | | congruence].
    intros h m s Hm'. cbv zeta. rewrite do_Event_no_blacklist by exact Hm'.
    rewrite do_flood_score_quiet. reflexivity.
  - unfold net_steering_disassociation.
    destruct (client_find (bss w) (sta_addr st)); [|split; reflexivity].
    rewrite mode_on_client, on_client_quiet;
      [split; reflexivity | exact client_disassociate_quiet | exact Hm].
  - unfold fire. destruct (client_find (bss w) a); [|split; reflexivity].
    destruct (0 <? _)%nat; [|split; reflexivity].
    rewrite mode_on_client, on_client_quiet; [split; reflexivity | | exact Hm].
    intros h m s _. unfold flood_score. cbn [upd tr]. rewrite do_flood_score_quiet.
    reflexivity.
  - unfold fire. destruct (client_find (bss w) a); [|split; reflexivity].
    destruct (0 <? _)%nat; [|split; reflexivity].
    rewrite mode_on_client, on_client_quiet; [split; reflexivity | | exact Hm].
    intros h m s Hm'. unfold client_timeout. rewrite do_Event_no_blacklist by exact Hm'.
    reflexivity.
  - unfold fire. destruct (client_find (bss w) a); [|split; reflexivity].
    destruct (0 <? _)%nat; [|split; reflexivity].
    rewrite mode_on_client, on_client_quiet; [split; reflexivity | | exact Hm].
    intros h m s _. reflexivity.
Qed.

Lemma run_never_blacklists_outside_force inputs w :
  mode (bss w) <> MODE_FORCE ->
  filter is_blacklist_call (trace (run inputs w)) = filter is_blacklist_call (trace w).
Proof.
  revert w. induction inputs as [|i r IH]; intros w Hm; simpl; [reflexivity|].
  destruct (step_quiet i w Hm) as [H1 H2].
  rewrite IH by (rewrite H2; exact Hm). exact H1.
Qed.

(** * Further properties of the code *)

(** ** What the reader makes of the writer's frames *)

Lemma score_frame_bytes h c n a :
  score_frame h c n a =
  [tlv_magic; tlv_version; 0; 26] ++ htons_bytes n ++ [TLV_SCORE; score_len]
  ++ mac_bytes (addr c) ++ mac_bytes (conf_bssid h)
  ++ htons_bytes (score c) ++ htonl_bytes a.
Proof.
  unfold score_frame, client_get_mac.
  destruct (addr c) as [[[[[a1 a2] a3] a4] a5] a6].
  destruct (conf_bssid h) as [[[[[b1 b2] b3] b4] b5] b6].
  reflexivity.
Qed.

Lemma close_client_frame_bytes h c n :
  close_client_frame h c n =
  [tlv_magic; tlv_version; 0; 27] ++ htons_bytes n ++ [TLV_CLOSE_CLIENT; close_len]
  ++ mac_bytes (addr c) ++ mac_bytes (conf_bssid h) ++ mac_bytes (remote_bssid c)
  ++ [iconf_channel h].
Proof.
  unfold close_client_frame, client_get_mac, client_get_remote_bssid.
  destruct (addr c) as [[[[[a1 a2] a3] a4] a5] a6].
  destruct (conf_bssid h) as [[[[[b1 b2] b3] b4] b5] b6].
  destruct (remote_bssid c) as [[[[[r1 r2] r3] r4] r5] r6].
  reflexivity.
Qed.

Lemma closed_client_frame_bytes h c n :
  closed_client_frame h c n =
  [tlv_magic; tlv_version; 0; 20] ++ htons_bytes n ++ [TLV_CLOSED_CLIENT; closed_len]
  ++ mac_bytes (addr c) ++ mac_bytes (conf_bssid h).
Proof.
  unfold closed_client_frame, client_get_mac.
  destruct (addr c) as [[[[[a1 a2] a3] a4] a5] a6].
  destruct (conf_bssid h) as [[[[[b1 b2] b3] b4] b5] b6].
  reflexivity.
Qed.

Lemma receive_score_bytes alloc now w (n0 n1 : Z) (s b : mac) (s0 s1 m0 m1 m2 m3 : Z) :
  receive alloc now
    ([tlv_magic; tlv_version; 0; 26] ++ [n0; n1] ++ [TLV_SCORE; score_len]
     ++ mac_bytes s ++ mac_bytes b ++ [s0; s1] ++ [m0; m1; m2; m3]) w =
  (RX_done,
   receive_score alloc now s b (ntohs_bytes s0 s1) (ntohl_bytes m0 m1 m2 m3) w).
Proof.
  destruct s as [[[[[a1 a2] a3] a4] a5] a6], b as [[[[[b1 b2] b3] b4] b5] b6].
  reflexivity.
Qed.

Lemma receive_close_client_bytes alloc now w (n0 n1 : Z) (s b r : mac) (ch : Z) :
  receive alloc now
    ([tlv_magic; tlv_version; 0; 27] ++ [n0; n1] ++ [TLV_CLOSE_CLIENT; close_len]
     ++ mac_bytes s ++ mac_bytes b ++ mac_bytes r ++ [ch]) w =
  (RX_done, receive_close_client s b r ch w).
Proof.
  destruct s as [[[[[a1 a2] a3] a4] a5] a6], b as [[[[[b1 b2] b3] b4] b5] b6],
           r as [[[[[r1 r2] r3] r4] r5] r6].
  reflexivity.
Qed.

Lemma receive_closed_client_bytes alloc now w (n0 n1 : Z) (s b : mac) :
  receive alloc now
    ([tlv_magic; tlv_version; 0; 20] ++ [n0; n1] ++ [TLV_CLOSED_CLIENT; closed_len]
     ++ mac_bytes s ++ mac_bytes b) w =
  (RX_done, receive_closed_client s b w).
Proof.
  destruct s as [[[[[a1 a2] a3] a4] a5] a6], b as [[[[[b1 b2] b3] b4] b5] b6].
  reflexivity.
Qed.

(** X1: every frame [do_flood_score] sends for a client is accepted by
    [receive] as it stands, whatever the receiving context, and reaches
    [receive_score] there with the client's MAC, the sender's BSSID, the
    client's score and the milliseconds since its association, unchanged. *)
Theorem flooded_score_reaches_receive_score (h : hostapd_data) (sent_at : os_time)
  (c : net_steering_client) (n : Z) (alloc : bool) (now : os_time) (w : world) :
  0 <= score c < 65536 ->
  let delta_t := os_time_sub sent_at (association_time c) in
  let msecs := to_u32 (sec delta_t * 1000 + Z.quot (usec delta_t) 1000) in
  Forall (fun f => receive alloc now f w =
                   (RX_done,
                    receive_score alloc now (addr c) (conf_bssid h) (score c) msecs w))
    (sent_frames (tr (do_flood_score h sent_at (mk_cstate c n [])))).
Proof.
  intros Hs delta_t msecs.
  destruct (Z.eq_dec (score c) max_score) as [E|E].
  - unfold do_flood_score. cbn [sm]. rewrite E. cbn. constructor.
  - rewrite do_flood_score_frame by exact E. cbn [sm sn tr flood_message].
    apply flood_message_to_frames; [|constructor].
    fold delta_t. fold msecs. rewrite score_frame_bytes.
    unfold htons_bytes at 2. unfold htonl_bytes, htons_bytes at 1.
    rewrite (receive_score_bytes alloc now w).
    rewrite ntohs_htons by exact Hs.
    rewrite ntohl_htonl by (unfold msecs, to_u32; apply Z.mod_pos_bound; lia).
    reflexivity.
Qed.

Lemma flooded_score_reaches_receive_score_witness :
  sent_frames (tr (do_flood_score hapd_A (mk_os_time 101 0)
                     (mk_cstate K_associated_at_A 0 []))) =
    [score_frame hapd_A K_associated_at_A 0 1000] /\
  Forall (fun f => receive true (mk_os_time 101 0) f (world_of hapd_B MODE_FORCE []) =
                   (RX_done,
                    receive_score true (mk_os_time 101 0) sta_K bssid_A 40 1000
                      (world_of hapd_B MODE_FORCE [])))
    (sent_frames (tr (do_flood_score hapd_A (mk_os_time 101 0)
                        (mk_cstate K_associated_at_A 0 [])))).
Proof.
  split; [reflexivity|].
  exact (flooded_score_reaches_receive_score hapd_A (mk_os_time 101 0) K_associated_at_A 0
           true (mk_os_time 101 0) (world_of hapd_B MODE_FORCE []) ltac:(simpl; lia)).
Defined.

Lemma receive_close_client_not_for_us a bssid target ch w :
  target <> conf_bssid (hapd (bss w)) -> receive_close_client a bssid target ch w = w.
Proof.
  intros H. unfold receive_close_client.
  replace (mac_eqb (conf_bssid (hapd (bss w))) target) with false; [reflexivity|].
  symmetry. apply mac_eqb_neq. congruence.
Qed.

(** X2: every frame [flood_close_client] sends is accepted by [receive]
    and reaches [receive_close_client] with the client's MAC, the sender's
    BSSID and channel, and the sender's [remote_bssid] as the target; a
    receiver whose BSSID is not that target is left exactly as it was. *)
Theorem flooded_close_reaches_its_target (h : hostapd_data)
  (c : net_steering_client) (n : Z) (alloc : bool) (now : os_time) (w : world) :
  Forall (fun f => receive alloc now f w =
                   (RX_done,
                    receive_close_client (addr c) (conf_bssid h) (remote_bssid c)
                      (iconf_channel h) w) /\
                   (remote_bssid c <> conf_bssid (hapd (bss w)) ->
                    receive alloc now f w = (RX_done, w)))
    (sent_frames (tr (flood_close_client h (mk_cstate c n [])))).
Proof.
  rewrite flood_close_client_frame. cbn [sm sn tr flood_message].
  apply flood_message_to_frames; [|constructor].
  rewrite close_client_frame_bytes. unfold htons_bytes.
  rewrite (receive_close_client_bytes alloc now w). split; [reflexivity|].
  intros H. rewrite receive_close_client_not_for_us by exact H. reflexivity.
Qed.

(** ** Where a flood goes *)

Lemma flood_message_to_trace h peers buf t :
  flood_message_to h peers buf t =
  t ++ map (fun d => l2_packet_send d proto buf)
         (filter (fun d => negb (mac_eqb d (own_addr h))) peers).
Proof.
  revert t. induction peers as [|d r IH]; intros t; simpl.
  - symmetry. apply app_nil_r.
  - destruct (negb (mac_eqb d (own_addr h))); rewrite IH; [|reflexivity].
    rewrite <- app_assoc. reflexivity.
Qed.

(** X3: [flood_message] sends the buffer, unchanged and with the module's
    ethertype, once to each address of the [r0kh] list that differs from
    [own_addr], in list order, and to nobody else: never to [own_addr],
    and an address listed twice is sent to twice. *)
Theorem flood_message_targets (h : hostapd_data) (buf : wpabuf) (s : cstate) :
  tr (flood_message h buf s) =
    tr s ++ map (fun d => l2_packet_send d proto buf) (flood_targets h) /\
  sm (flood_message h buf s) = sm s /\
  Forall (fun d => In d (r0kh_list h) /\ d <> own_addr h) (flood_targets h) /\
  (forall d, In d (r0kh_list h) -> d <> own_addr h -> In d (flood_targets h)).
Proof.
  unfold flood_message, flood_targets. cbn [tr sm].
  split; [apply flood_message_to_trace|]. split; [reflexivity|]. split.
  - apply Forall_forall. intros d Hd. apply filter_In in Hd. destruct Hd as [Hin Hne].
    split; [exact Hin|]. apply mac_eqb_neq. destruct (mac_eqb d (own_addr h)); [discriminate|reflexivity].
  - intros d Hin Hne. apply filter_In. split; [exact Hin|].
    apply mac_eqb_neq in Hne. rewrite Hne. reflexivity.
Qed.

(** ** The TLV loop, position by position *)






Lemma receive_frame_with alloc now w sn0 sn1 (pre tlvs : list Z) :
  6 + Z.of_nat (length (pre ++ tlvs)) < 65536 ->
  Forall (fun b => 0 <= b < 256) tlvs ->
  receive alloc now (frame_with sn0 sn1 (pre ++ tlvs)) w =
  receive_tlvs (Z.to_nat (6 + Z.of_nat (length (pre ++ tlvs)))) alloc now
    (frame_with sn0 sn1 (pre ++ tlvs)) (6 + Z.of_nat (length (pre ++ tlvs))) 6 w.
Proof.
  intros Hlen Hb. set (L := 6 + Z.of_nat (length (pre ++ tlvs))) in *.
  assert (HL : 0 <= L < 65536) by lia.
  unfold receive, frame_with. fold L. unfold htons_bytes. cbn [app].
  assert (Hlength : Z.of_nat (length (tlv_magic :: tlv_version :: (L / 256) mod 256
                       :: L mod 256 :: sn0 :: sn1 :: pre ++ tlvs)) = L).
  { cbn [length]. unfold L. lia. }
  rewrite Hlength. rewrite parse_header_six by lia.
  cbn [h_packet_len h_version h_magic]. rewrite ntohs_htons by exact HL.
  replace (L <? L) with false by (symmetry; apply Z.ltb_irrefl).
  reflexivity.
Qed.

Lemma mem_read_app (x suffix : list Z) (off : Z) (n : nat) :
  0 <= off -> off + Z.of_nat n <= Z.of_nat (length x) ->
  mem_read (x ++ suffix) off n = mem_read x off n.
Proof.
  intros H0 H1.
  rewrite !mem_read_ok by (rewrite ?length_app; lia).
  rewrite skipn_app.
  replace (Z.to_nat off - length x)%nat with O by lia. cbn [skipn].
  rewrite firstn_app.
  replace (n - length (skipn (Z.to_nat off) x))%nat with O by (rewrite length_skipn; lia).
  cbn [firstn]. rewrite app_nil_r. reflexivity.
Qed.

Lemma parse_score_app (x suffix : list Z) (len : Z) :
  18 <= Z.of_nat (length x) -> parse_score (x ++ suffix) len = parse_score x len.
Proof.
  intros H. unfold parse_score, read_mac, read_u16, read_u32.
  rewrite !mem_read_app by (cbn; lia). reflexivity.
Qed.

(** The payload of a TLV of a known type that is all there is parsed
    whatever lies behind it, and whatever the length byte says beyond the
    fixed size. *)
Lemma parse_score_whole (payload tail : list Z) (l : Z) :
  Z.of_nat (length payload) = score_len -> score_len <= l ->
  exists x, parse_score (payload ++ tail) l = P_read 18 x /\
            parse_score payload score_len = P_read 18 x.
Proof.
  intros Hp Hl. rewrite parse_score_app by (change score_len with 18 in Hp; lia).
  do 18 (destruct payload as [|? payload]; [discriminate Hp|]).
  destruct payload; [|cbn [length] in Hp; change score_len with 18 in Hp; lia].
  unfold parse_score.
  replace (l <? score_len) with false by (symmetry; apply Z.ltb_ge; exact Hl).
  eexists. split; reflexivity.
Qed.

Lemma parse_close_client_whole (payload tail : list Z) (l : Z) :
  Z.of_nat (length payload) = close_len -> close_len <= l ->
  exists x, parse_close_client (payload ++ tail) l = P_read 19 x /\
            parse_close_client payload close_len = P_read 19 x.
Proof.
  intros Hp Hl.
  assert (Happ : parse_close_client (payload ++ tail) l = parse_close_client payload l).
  { unfold parse_close_client, read_mac, read_u8.
    rewrite !mem_read_app by (change close_len with 19 in Hp; cbn; lia). reflexivity. }
  rewrite Happ.
  do 19 (destruct payload as [|? payload]; [discriminate Hp|]).
  destruct payload; [|cbn [length] in Hp; change close_len with 19 in Hp; lia].
  unfold parse_close_client.
  replace (l <? close_len) with false by (symmetry; apply Z.ltb_ge; exact Hl).
  eexists. split; reflexivity.
Qed.

Lemma parse_closed_client_whole (payload tail : list Z) (l : Z) :
  Z.of_nat (length payload) = closed_len -> closed_len <= l ->
  exists x, parse_closed_client (payload ++ tail) l = P_read 12 x /\
            parse_closed_client payload closed_len = P_read 12 x.
Proof.
  intros Hp Hl.
  assert (Happ : parse_closed_client (payload ++ tail) l = parse_closed_client payload l).
  { unfold parse_closed_client, read_mac.
    rewrite !mem_read_app by (change closed_len with 12 in Hp; cbn; lia). reflexivity. }
  rewrite Happ.
  do 12 (destruct payload as [|? payload]; [discriminate Hp|]).
  destruct payload; [|cbn [length] in Hp; change closed_len with 12 in Hp; lia].
  unfold parse_closed_client.
  replace (l <? closed_len) with false by (symmetry; apply Z.ltb_ge; exact Hl).
  eexists. split; reflexivity.
Qed.


(** One round of the loop on a whole TLV of a known type. *)
Lemma receive_tlvs_round_known alloc now (pre : list Z) (t l : Z) (payload tail : list Z)
  (size : Z) (fuel : nat) (packet_len : Z) (w : world) :
  known_tlv_size t = Some size -> size <= l -> Z.of_nat (length payload) = size ->
  Z.of_nat (length pre) + 2 <= packet_len ->
  receive_tlvs (S fuel) alloc now (pre ++ [t; l] ++ payload ++ tail) packet_len
    (Z.of_nat (length pre)) w =
  receive_tlvs fuel alloc now (pre ++ [t; l] ++ payload ++ tail) packet_len
    (Z.of_nat (length pre) + 2 + size) (handle_tlv alloc now t payload w).
Proof.
  intros Hk Hl Hp Hlen. cbn [receive_tlvs].
  replace (Z.of_nat (length pre) <? packet_len) with true
    by (symmetry; apply Z.ltb_lt; lia).
  cbn [app]. rewrite at_pos_app, parse_tlv_header_cons by lia.
  rewrite at_pos_app2. unfold handle_tlv. unfold known_tlv_size in Hk.
  destruct (t =? TLV_SCORE).
  { injection Hk as <-.
    destruct (parse_score_whole payload tail l Hp Hl) as (x & -> & ->).
    change score_len with 18. reflexivity. }
  destruct (t =? TLV_CLOSE_CLIENT).
  { injection Hk as <-.
    destruct (parse_close_client_whole payload tail l Hp Hl) as (x & -> & ->).
    change close_len with 19. reflexivity. }
  destruct (t =? TLV_CLOSED_CLIENT); [|discriminate Hk].
  injection Hk as <-.
  destruct (parse_closed_client_whole payload tail l Hp Hl) as (x & -> & ->).
  change closed_len with 12. reflexivity.
Qed.

(** One round of the loop on a TLV of another type. *)
Lemma receive_tlvs_round_unknown alloc now (pre : list Z) (t l : Z) (tail : list Z)
  (fuel : nat) (packet_len : Z) (w : world) :
  known_tlv_size t = None ->
  Z.of_nat (length pre) + 2 <= packet_len ->
  receive_tlvs (S fuel) alloc now (pre ++ [t; l] ++ tail) packet_len
    (Z.of_nat (length pre)) w =
  receive_tlvs fuel alloc now (pre ++ [t; l] ++ tail) packet_len
    (Z.of_nat (length pre) + 2 + l) w.
Proof.
  intros Hk Hlen. cbn [receive_tlvs].
  replace (Z.of_nat (length pre) <? packet_len) with true
    by (symmetry; apply Z.ltb_lt; lia).
  cbn [app]. rewrite at_pos_app, parse_tlv_header_cons by lia.
  unfold known_tlv_size in Hk.
  destruct (t =? TLV_SCORE); [discriminate Hk|].
  destruct (t =? TLV_CLOSE_CLIENT); [discriminate Hk|].
  destruct (t =? TLV_CLOSED_CLIENT); [discriminate Hk|].
  reflexivity.
Qed.

(** The loop walks through a whole TLV area in as many rounds as it has
    TLVs, and what it makes of the context on the way depends on nothing
    but these TLVs: not on the bytes before or behind, not on the length
    field of the frame. *)
Lemma receive_tlvs_walk alloc now (before : list Z) :
  whole_tlvs before ->
  forall w, exists w' rounds,
    (rounds <= length before)%nat /\
    forall (pre tail : list Z) (packet_len : Z) (fuel : nat),
      Z.of_nat (length pre) + Z.of_nat (length before) <= packet_len ->
      receive_tlvs (rounds + fuel) alloc now (pre ++ before ++ tail) packet_len
        (Z.of_nat (length pre)) w =
      receive_tlvs fuel alloc now (pre ++ before ++ tail) packet_len
        (Z.of_nat (length pre) + Z.of_nat (length before)) w'.
Proof.
  induction 1 as [|t l payload more size Hk Hl Hp Hmore IH|t payload more Hk Hmore IH];
    intros w.
  - exists w, O. split; [apply le_n|]. intros pre tail packet_len fuel _.
    cbn [length app Nat.add]. rewrite Z.add_0_r. reflexivity.
  - destruct (IH (handle_tlv alloc now t payload w)) as (w' & rounds & Hr & Hwalk).
    exists w', (S rounds). split; [rewrite !length_app; cbn [length]; lia|].
    intros pre tail packet_len fuel Hlen.
    rewrite !length_app in Hlen. cbn [length] in Hlen.
    replace (pre ++ ([t; l] ++ payload ++ more) ++ tail)
      with (pre ++ [t; l] ++ payload ++ more ++ tail)
      by (rewrite <- !app_assoc; reflexivity).
    cbn [Nat.add].
    rewrite (receive_tlvs_round_known alloc now pre t l payload (more ++ tail) size
               (rounds + fuel) packet_len w Hk Hl Hp) by lia.
    replace (pre ++ [t; l] ++ payload ++ more ++ tail)
      with ((pre ++ [t; l] ++ payload) ++ more ++ tail)
      by (rewrite <- !app_assoc; reflexivity).
    replace (Z.of_nat (length pre) + 2 + size)
      with (Z.of_nat (length (pre ++ [t; l] ++ payload)))
      by (rewrite !length_app; cbn [length]; lia).
    rewrite Hwalk by (rewrite !length_app; cbn [length]; lia).
    f_equal. rewrite !length_app. cbn [length]. lia.
  - destruct (IH w) as (w' & rounds & Hr & Hwalk).
    exists w', (S rounds). split; [rewrite !length_app; cbn [length]; lia|].
    intros pre tail packet_len fuel Hlen.
    rewrite !length_app in Hlen. cbn [length] in Hlen.
    replace (pre ++ ([t; Z.of_nat (length payload)] ++ payload ++ more) ++ tail)
      with (pre ++ [t; Z.of_nat (length payload)] ++ payload ++ more ++ tail)
      by (rewrite <- !app_assoc; reflexivity).
    cbn [Nat.add].
    rewrite (receive_tlvs_round_unknown alloc now pre t (Z.of_nat (length payload))
               (payload ++ more ++ tail) (rounds + fuel) packet_len w Hk) by lia.
    replace (pre ++ [t; Z.of_nat (length payload)] ++ payload ++ more ++ tail)
      with ((pre ++ [t; Z.of_nat (length payload)] ++ payload) ++ more ++ tail)
      by (rewrite <- !app_assoc; reflexivity).
    replace (Z.of_nat (length pre) + 2 + Z.of_nat (length payload))
      with (Z.of_nat (length (pre ++ [t; Z.of_nat (length payload)] ++ payload)))
      by (rewrite !length_app; cbn [length]; lia).
    rewrite Hwalk by (rewrite !length_app; cbn [length]; lia).
    f_equal. rewrite !length_app. cbn [length]. lia.
Qed.

(** [receive] on a well-formed header is the loop over the TLV area. *)
Lemma receive_frame_tlvs alloc now w sn0 sn1 (tlvs : list Z) :
  6 + Z.of_nat (length tlvs) < 65536 ->
  receive alloc now (frame_with sn0 sn1 tlvs) w =
  receive_tlvs (Z.to_nat (6 + Z.of_nat (length tlvs))) alloc now
    (frame_with sn0 sn1 tlvs) (6 + Z.of_nat (length tlvs)) 6 w.
Proof.
  intros Hlen.
  pose proof (receive_frame_with alloc now w sn0 sn1 tlvs []) as H.
  rewrite app_nil_r in H. apply H; [exact Hlen | constructor].
Qed.



(** X5: the TLV loop of [receive] cannot run on for ever.  Each round
    moves [buf_pos] forward by two bytes at least, so on every buffer of
    bytes [receive] is through within as many rounds as the length field
    counts bytes: by one of its returns or, where a TLV is cut short,
    inside a parser that reads beyond the received bytes.  On a frame
    of less than 65536 bytes whose TLV area is made of whole TLVs neither
    a return from inside the loop nor such a read happens: [receive]
    returns at the end of the loop. *)
Theorem receive_loop_ends (alloc : bool) (now : os_time) (buf : list Z) (w : world) :
  Forall (fun b => 0 <= b < 256) buf ->
  fst (receive alloc now buf w) <> RX_fuel /\
  (forall sn0 sn1 tlvs,
     buf = frame_with sn0 sn1 tlvs -> whole_tlvs tlvs ->
     Z.of_nat (length buf) < 65536 ->
     fst (receive alloc now buf w) = RX_done).
Proof.
  intros Hbytes. split.
  - destruct (receive_header_checks alloc now buf w)
      as [[_ ->]|[hd [_ [[_ ->]|[(_ & _ & ->)|(_ & _ & _ & ->)]]]]]; try discriminate.
    apply receive_tlvs_fuel; [exact Hbytes | lia].
  - intros sn0 sn1 tlvs -> Hwhole Hsize.
    set (n := Z.of_nat (length tlvs)).
    assert (Hlen : 6 + n < 65536).
    { unfold frame_with, htons_bytes in Hsize. cbn [app length] in Hsize. unfold n. lia. }
    destruct (receive_tlvs_walk alloc now tlvs Hwhole w) as (w' & rounds & Hr & Hwalk).
    rewrite receive_frame_tlvs by exact Hlen. fold n.
    set (hd := [tlv_magic; tlv_version] ++ htons_bytes (6 + n) ++ [sn0; sn1]).
    assert (Hf : frame_with sn0 sn1 tlvs = hd ++ tlvs ++ []).
    { unfold frame_with, hd. fold n. rewrite app_nil_r, <- !app_assoc. reflexivity. }
    assert (Hh : Z.of_nat (length hd) = 6) by reflexivity.
    rewrite Hf.
    replace (Z.to_nat (6 + n)) with (rounds + (Z.to_nat (6 + n) - rounds))%nat by lia.
    rewrite <- Hh at 2. rewrite Hwalk by (fold n; lia).
    fold n. rewrite Hh.
    destruct (Z.to_nat (6 + n) - rounds)%nat; cbn [receive_tlvs];
      rewrite Z.ltb_irrefl; reflexivity.
Qed.

Lemma receive_loop_ends_witness :
  let whole := frame_with 0 7 (at_pos (score_frame_with_version 1) 6
                               ++ [TLV_MAP; 3; 1; 2; 3]) in
  let cut_short := [48; 1; 0; 11; 0; 1; 0; 18; 1; 2; 3] in
  let w := world_of hapd_A MODE_FORCE [] in
  let now := mk_os_time 200 0 in
  Forall (fun b => 0 <= b < 256) whole /\
  fst (receive true now whole w) = RX_done /\
  Forall (fun b => 0 <= b < 256) cut_short /\
  fst (receive true now cut_short w) <> RX_fuel /\
  fst (receive true now cut_short w) = RX_overrun.
Proof.
  cbv zeta.
  assert (H1 : Forall (fun b => 0 <= b < 256)
                 (frame_with 0 7 (at_pos (score_frame_with_version 1) 6
                                  ++ [TLV_MAP; 3; 1; 2; 3]))).
  { apply Forall_forall. intros x Hx. vm_compute in Hx.
    repeat (destruct Hx as [<-|Hx]; [lia|]). destruct Hx. }
  assert (H2 : Forall (fun b => 0 <= b < 256) [48; 1; 0; 11; 0; 1; 0; 18; 1; 2; 3]).
  { repeat (constructor; [lia|]). constructor. }
  split; [exact H1|]. split; [|split; [exact H2|split; [|reflexivity]]].
  - apply (proj2 (receive_loop_ends true (mk_os_time 200 0) _
                    (world_of hapd_A MODE_FORCE []) H1) 0 7
             ([TLV_SCORE; 18]
              ++ [170; 187; 204; 221; 238; 255; 33; 34; 35; 36; 37; 38; 0; 40; 0; 0; 3; 232]
              ++ [TLV_MAP; Z.of_nat (length [1; 2; 3])] ++ [1; 2; 3] ++ [])
             eq_refl).
    + exact (whole_tlvs_known TLV_SCORE 18
               [170; 187; 204; 221; 238; 255; 33; 34; 35; 36; 37; 38; 0; 40; 0; 0; 3; 232]
               _ 18 eq_refl ltac:(discriminate) eq_refl
               (whole_tlvs_unknown TLV_MAP [1; 2; 3] [] eq_refl whole_tlvs_nil)).
    + simpl; lia.
  - exact (proj1 (receive_loop_ends true (mk_os_time 200 0) _
                    (world_of hapd_A MODE_FORCE []) H2)).
Defined.

(** ** The three checks on the header *)

Lemma receive_tlvs_status fuel alloc now buf packet_len :
  forall pos w,
    dropped_on_header (fst (receive_tlvs fuel alloc now buf packet_len pos w)) = false.
Proof.
  induction fuel as [|fuel IH]; intros pos w; simpl.
  - destruct (pos <? packet_len); reflexivity.
  - destruct (pos <? packet_len); [|reflexivity].
    destruct (parse_tlv_header _ _) as [|nr [t l]|]; try reflexivity.
    destruct (t =? TLV_SCORE); [destruct (parse_score _ _); try reflexivity; apply IH|].
    destruct (t =? TLV_CLOSE_CLIENT);
      [destruct (parse_close_client _ _); try reflexivity; apply IH|].
    destruct (t =? TLV_CLOSED_CLIENT);
      [destruct (parse_closed_client _ _); try reflexivity; apply IH|].
    apply IH.
Qed.

(** X6: [receive] gives a frame up before it looks at any TLV exactly
    when fewer than six bytes were received, or the 16-bit length field at
    offset 2 is above the number of bytes received, or the version byte is
    not 1, or the magic byte is not 48; and then the context and the trace
    are as they were.  (The bytes are read with [nth], 0 standing in where
    the buffer is too short to have the byte.) *)
Theorem receive_gives_up_on_header_iff (alloc : bool) (now : os_time) (buf : list Z)
  (w : world) :
  let len := Z.of_nat (length buf) in
  let r := receive alloc now buf w in
  (dropped_on_header (fst r) = true <->
   (len < 6 \/ len < ntohs_bytes (nth 2 buf 0) (nth 3 buf 0) \/
    nth 1 buf 0 <> tlv_version \/ nth 0 buf 0 <> tlv_magic)) /\
  (dropped_on_header (fst r) = true -> snd r = w).
Proof.
  intros len r. subst r.
  pose proof (receive_header_checks alloc now buf w) as Hc. cbv zeta in Hc.
  change (Z.of_nat (length buf)) with len in Hc.
  destruct Hc as [[H6 Hr]|[hd [Hp H]]].
  - rewrite Hr. cbn. split; [|reflexivity]. split; [intros _; left; exact H6 | reflexivity].
  - assert (H6 : 6 <= len).
    { destruct (Z_lt_le_dec len 6) as [Hlt|Hle]; [|exact Hle].
      rewrite parse_header_short in Hp by exact Hlt. discriminate. }
    destruct buf as [|b0 [|b1 [|b2 [|b3 [|b4 [|b5 rest]]]]]];
      try (subst len; simpl length in H6; lia).
    rewrite parse_header_six in Hp by exact H6. injection Hp as <-.
    cbn [h_packet_len h_version h_magic nth] in *.
    destruct H as [[Hl ->]|[(Hl & Hv & ->)|(Hl & Hv & Hm & ->)]].
    + cbn. split; [|reflexivity]. split; [intros _; right; left; exact Hl | reflexivity].
    + cbn. split; [|reflexivity]. split; [intros _; right; right; exact Hv | reflexivity].
    + rewrite receive_tlvs_status. split; [|discriminate].
      split; [discriminate|]. intros [H|[H|[H|H]]]; try lia; contradiction.
Qed.

(** ** A TLV that is too short *)

Lemma short_tlv_parse (t l : Z) (buf : list Z) :
  (t = TLV_SCORE /\ l < 18) \/ (t = TLV_CLOSE_CLIENT /\ l < 19) \/
  (t = TLV_CLOSED_CLIENT /\ l < 12) ->
  (if t =? TLV_SCORE then parse_score buf l = P_zero
   else if t =? TLV_CLOSE_CLIENT then parse_close_client buf l = P_zero
   else (t =? TLV_CLOSED_CLIENT) = true /\ parse_closed_client buf l = P_zero).
Proof.
  intros [[-> H]|[[-> H]|[-> H]]]; cbn [Z.eqb TLV_SCORE TLV_CLOSE_CLIENT TLV_CLOSED_CLIENT].
  - unfold parse_score.
    replace (l <? score_len) with true by (symmetry; apply Z.ltb_lt; exact H). reflexivity.
  - unfold parse_close_client.
    replace (l <? close_len) with true by (symmetry; apply Z.ltb_lt; exact H). reflexivity.
  - split; [reflexivity|]. unfold parse_closed_client.
    replace (l <? closed_len) with true by (symmetry; apply Z.ltb_lt; exact H). reflexivity.
Qed.

(** X7: a TLV of a known type whose length byte is below the fixed size
    of its type makes [receive] return at once, but what came before it
    stays done: a frame with a SCORE TLV followed by such a TLV leaves the
    context as [receive_score] on that SCORE left it, and nothing behind
    the short TLV is looked at. *)
Theorem short_tlv_keeps_earlier_effects (alloc : bool) (now : os_time) (w : world)
  (sn0 sn1 : Z) (s b : mac) (v a t l : Z) (junk : list Z) :
  0 <= v < 65536 -> 0 <= a < 4294967296 ->
  (t = TLV_SCORE /\ l < 18) \/ (t = TLV_CLOSE_CLIENT /\ l < 19) \/
  (t = TLV_CLOSED_CLIENT /\ l < 12) ->
  28 + Z.of_nat (length junk) < 65536 ->
  receive alloc now (frame_with sn0 sn1 (put_score [] s b v a ++ [t; l] ++ junk)) w =
  (RX_tlv_error, receive_score alloc now s b v a w).
Proof.
  intros Hv Ha Ht Hlen.
  set (T := put_score [] s b v a ++ [t; l] ++ junk).
  assert (HT : Z.of_nat (length T) = 22 + Z.of_nat (length junk)).
  { unfold T. rewrite put_score_bytes. destruct s as [[[[[a1 a2] a3] a4] a5] a6],
      b as [[[[[b1 b2] b3] b4] b5] b6]. cbn [app mac_bytes htons_bytes htonl_bytes length].
    lia. }
  pose proof (receive_frame_with alloc now w sn0 sn1 T []) as H0.
  rewrite app_nil_r in H0. rewrite H0 by (constructor || lia). clear H0.
  rewrite HT. set (L := 6 + (22 + Z.of_nat (length junk))).
  replace (Z.to_nat L) with (S (S (Z.to_nat (L - 2)))) by lia.
  set (F := frame_with sn0 sn1 T).
  assert (H6 : at_pos F 6 =
               TLV_SCORE :: score_len ::
               (mac_bytes s ++ mac_bytes b ++ [(v / 256) mod 256; v mod 256]
                ++ [(a / 16777216) mod 256; (a / 65536) mod 256; (a / 256) mod 256; a mod 256])
               ++ [t; l] ++ junk).
  { unfold F, frame_with, T. rewrite put_score_bytes.
    destruct s as [[[[[a1 a2] a3] a4] a5] a6], b as [[[[[b1 b2] b3] b4] b5] b6].
    reflexivity. }
  assert (H8 : at_pos F (6 + 2) =
               (mac_bytes s ++ mac_bytes b ++ [(v / 256) mod 256; v mod 256]
                ++ [(a / 16777216) mod 256; (a / 65536) mod 256; (a / 256) mod 256; a mod 256])
               ++ [t; l] ++ junk).
  { unfold F, frame_with, T. rewrite put_score_bytes.
    destruct s as [[[[[a1 a2] a3] a4] a5] a6], b as [[[[[b1 b2] b3] b4] b5] b6].
    reflexivity. }
  assert (H26 : at_pos F (6 + 2 + 18) = t :: l :: junk).
  { unfold F, frame_with, T. rewrite put_score_bytes.
    destruct s as [[[[[a1 a2] a3] a4] a5] a6], b as [[[[[b1 b2] b3] b4] b5] b6].
    reflexivity. }
  (* first round: the SCORE TLV *)
  cbn [receive_tlvs].
  replace (6 <? L) with true by (symmetry; apply Z.ltb_lt; lia).
  rewrite H6, parse_tlv_header_cons by lia.
  cbn [Z.eqb TLV_SCORE]. rewrite H8, parse_score_app.
  2:{ destruct s as [[[[[a1 a2] a3] a4] a5] a6], b as [[[[[b1 b2] b3] b4] b5] b6].
      cbn [mac_bytes app length]. lia. }
  rewrite parse_score_bytes, ntohs_htons, ntohl_htonl by assumption.
  cbn [sc_sta sc_bssid sc_score sc_association_msecs].
  (* second round: the short TLV *)
  replace (6 + 2 + 18 <? L) with true by (symmetry; apply Z.ltb_lt; lia).
  rewrite H26, parse_tlv_header_cons by lia.
  pose proof (short_tlv_parse t l (at_pos F (6 + 2 + 18 + 2)) Ht) as Hs.
  destruct (t =? TLV_SCORE); [rewrite Hs; reflexivity|].
  destruct (t =? TLV_CLOSE_CLIENT); [rewrite Hs; reflexivity|].
  destruct Hs as [-> ->]. reflexivity.
Qed.

Lemma short_tlv_keeps_earlier_effects_witness :
  let w := world_of hapd_A MODE_FORCE [] in
  let r := receive true (mk_os_time 200 0)
             (frame_with 0 7 (put_score [] sta_K bssid_B 40 1000
                              ++ [TLV_CLOSE_CLIENT; 5] ++ [1; 2; 3; 4; 5])) w in
  fst r = RX_tlv_error /\
  option_map STEERING_state_ (client_find (bss (snd r)) sta_K) = Some STEERING_REJECTED.
Proof.
  cbv zeta.
  rewrite (short_tlv_keeps_earlier_effects true (mk_os_time 200 0)
             (world_of hapd_A MODE_FORCE []) 0 7 sta_K bssid_B 40 1000 TLV_CLOSE_CLIENT 5
             [1; 2; 3; 4; 5]
             ltac:(lia) ltac:(lia)
             ltac:(right; left; split; [reflexivity | lia]) ltac:(simpl; lia)).
  split; reflexivity.
Defined.

(** ** Timers and states along a run *)

Lemma armed_one h : armed h 1.
Proof. split; [apply le_n | reflexivity]. Qed.

Lemma armed_register h a n :
  armed h (eloop_register_timeout (eloop_register_fails h a n) O).
Proof.
  unfold eloop_register_timeout.
  destruct (eloop_register_fails h a n) eqn:E; [|apply armed_one].
  split; [apply Nat.le_0_l|]. intros H. rewrite (H a n) in E. discriminate.
Qed.

Lemma client_new_timers h a : timers_match_state h (client_new a).
Proof. repeat split. discriminate. Qed.

(** A step keeps the timers in line with the state, as long as
    E_ASSOCIATED is only given to a client that has its [sta]. *)
Lemma do_Event_timers h m e s :
  timers_match_state h (sm s) ->
  (e = STEERING_E_ASSOCIATED -> sta (sm s) <> None) ->
  timers_match_state h (sm (sm_STEERING_do_Event h m e s)).
Proof.
  unfold timers_match_state.
  open_cstate s; cbn [sm sta STEERING_state_ flood_timeouts client_timeouts state_eqb
                      rejecting_or_rejected timer_matches];
    intros (H1 & H2 & H3) Ha; try subst;
    destruct e, m;
    cbv beta iota zeta delta
      [sm_STEERING_do_Event SM_TRANSITION SM_TRANS_NOOP SM_ENTER
       sm_STEERING_IDLE_on_E_ASSOCIATED_ASSOCIATED
       sm_STEERING_IDLE_on_E_PEER_IS_WORSE_CONFIRMING
       sm_STEERING_IDLE_on_E_PEER_NOT_WORSE_REJECTED
       sm_STEERING_IDLE_on_E_CLOSE_CLIENT_REJECTED
       sm_STEERING_CONFIRMING_on_E_PEER_IS_WORSE_CONFIRMING
       sm_STEERING_CONFIRMING_on_E_ASSOCIATED_ASSOCIATED
       sm_STEERING_ASSOCIATING_on_E_ASSOCIATED_ASSOCIATED
       sm_STEERING_ASSOCIATING_on_E_PEER_IS_WORSE_ASSOCIATING
       sm_STEERING_ASSOCIATING_on_E_CLOSE_CLIENT_REJECTED
       sm_STEERING_ASSOCIATED_on_E_CLOSE_CLIENT_REJECTING
       sm_STEERING_ASSOCIATED_on_E_DISASSOCIATED_IDLE
       sm_STEERING_ASSOCIATED_on_E_PEER_IS_WORSE_ASSOCIATED
       sm_STEERING_REJECTING_on_E_DISASSOCIATED_REJECTED
       sm_STEERING_REJECTING_on_E_PEER_IS_WORSE_CONFIRMING
       sm_STEERING_REJECTING_on_E_PEER_LOST_CLIENT_CONFIRMING
       sm_STEERING_REJECTING_on_E_TIMEOUT_ASSOCIATING
       sm_STEERING_REJECTED_on_E_PEER_IS_WORSE_CONFIRMING
       sm_STEERING_REJECTED_on_E_PEER_LOST_CLIENT_CONFIRMING
       sm_STEERING_REJECTED_on_E_CLOSE_CLIENT_REJECTED
       sm_STEERING_REJECTED_on_E_TIMEOUT_ASSOCIATING
       flood_close_client flood_closed_client flood_message header_put_next
       do_client_blacklist_add do_client_blacklist_rm do_client_disassociate
       client_is_associated client_supports_bss_transition state_eqb mode_eqb
       start_flood_timer stop_flood_timer client_start_timer client_stop_timer
       client_register client_clear_close_bssid client_get_mac client_get_close_bssid
       client_get_remote_bssid client_get_local_bssid eloop_cancel_timeout
       upd emit sm sn tr
       set_sta set_score set_state set_changed set_addr set_close_bssid
       set_remote_bssid set_remote_time set_association_time set_remote_channel
       set_flood_timeouts set_client_timeouts set_probe_timeouts set_registrations
       sta score STEERING_state_ changed addr close_bssid remote_bssid remote_time
       association_time remote_channel flood_timeouts client_timeouts probe_timeouts
       registrations rejecting_or_rejected orb andb negb];
    split_ifs;
    (split;
     [ first [ reflexivity | assumption | apply armed_register | apply armed_one ]
     | split;
       [ first [ reflexivity | assumption | apply armed_register | apply armed_one ]
       | ] ]);
    intros Hst; try discriminate Hst;
    first [ exact (H3 eq_refl) | exact (Ha eq_refl) | discriminate ].
Qed.

Lemma compare_scores_timers h m v s :
  timers_match_state h (sm s) -> timers_match_state h (sm (compare_scores h m v s)).
Proof.
  intros H. rewrite compare_scores_dispatch. apply do_Event_timers; [exact H|].
  unfold compare_scores_event. destruct (score (sm s) <? v); discriminate.
Qed.

Lemma client_disassociate_timers h m s :
  timers_match_state h (sm s) -> timers_match_state h (sm (client_disassociate h m s)).
Proof.
  intros H.
  pose proof (do_Event_timers h m STEERING_E_DISASSOCIATED s H ltac:(discriminate)) as H'.
  assert (Hne : STEERING_state_ (sm (sm_STEERING_do_Event h m STEERING_E_DISASSOCIATED s))
                <> STEERING_ASSOCIATED).
  { unfold sm_STEERING_do_Event. destruct (STEERING_state_ (sm s)) eqn:E; cbn; try discriminate;
      rewrite ?E; discriminate. }
  unfold client_disassociate. cbv zeta.
  set (s1 := sm_STEERING_do_Event h m STEERING_E_DISASSOCIATED s) in *.
  destruct H' as (H1 & H2 & _). unfold timers_match_state.
  unfold client_start_probe_timer, client_register. cbn.
  split; [exact H1 | split; [exact H2 | intros Hs; contradiction]].
Qed.

Lemma receive_score_client_timers now bssid v msecs h m s :
  timers_match_state h (sm s) ->
  timers_match_state h (sm (receive_score_client now bssid v msecs h m s)).
Proof.
  intros H. unfold receive_score_client.
  destruct (negb _); [|apply compare_scores_timers; exact H].
  destruct (os_time_before _ _); [|exact H].
  destruct (client_is_associated (sm s)).
  - pose proof (client_disassociate_timers h m s H) as H'. exact H'.
  - apply compare_scores_timers. exact H.
Qed.

(** ** What every callback keeps *)

Lemma client_find_in_In l a c : client_find_in l a = Some c -> In c l.
Proof.
  induction l as [|x r IH]; simpl; [discriminate|].
  destruct (mac_eqb a (addr x)); [intros [= <-]; left; reflexivity | right; auto].
Qed.

Lemma Forall_client_put_in (P : net_steering_client -> Prop) l c :
  Forall P l -> P c -> Forall P (client_put_in l c).
Proof.
  intros Hl Hc. induction Hl as [|x r Hx Hr IH]; simpl; [constructor|].
  destruct (mac_eqb (addr c) (addr x)); constructor; assumption.
Qed.

Lemma on_client_Forall (P : net_steering_client -> Prop) w c f :
  Forall P (clients (bss w)) ->
  P (sm (f (hapd (bss w)) (mode (bss w)) (mk_cstate c (frame_sn (bss w)) (trace w)))) ->
  Forall P (clients (bss (on_client w c f))).
Proof. intros Hl Hc. unfold on_client. cbn [bss clients]. apply Forall_client_put_in; assumption. Qed.

Lemma client_find_or_create_Forall (P : net_steering_client -> Prop) alloc w a c w1 :
  Forall P (clients (bss w)) -> P (client_new a) ->
  client_find_or_create alloc w a = Some (c, w1) ->
  Forall P (clients (bss w1)) /\ P c /\
  hapd (bss w1) = hapd (bss w) /\ mode (bss w1) = mode (bss w) /\
  frame_sn (bss w1) = frame_sn (bss w) /\ trace w1 = trace w.
Proof.
  intros Hl Hn. unfold client_find_or_create, client_find, client_create.
  destruct (client_find_in (clients (bss w)) a) as [c0|] eqn:E.
  - intros [= <- <-]. repeat split; try assumption.
    rewrite Forall_forall in Hl. apply Hl. exact (client_find_in_In _ _ _ E).
  - destruct alloc; [|discriminate]. intros [= <- <-]. cbn [bss clients hapd mode frame_sn trace].
    repeat split; try assumption. constructor; assumption.
Qed.

(** A property of the world that the three TLV handlers keep is kept by
    the TLV loop and by [receive]. *)
Lemma receive_tlvs_keeps (P : world -> Prop) alloc now buf packet_len :
  (forall a b v m w, P w -> P (receive_score alloc now a b v m w)) ->
  (forall a b t ch w, P w -> P (receive_close_client a b t ch w)) ->
  (forall a t w, P w -> P (receive_closed_client a t w)) ->
  forall fuel pos w, P w -> P (snd (receive_tlvs fuel alloc now buf packet_len pos w)).
Proof.
  intros Hs Hc Hd. induction fuel as [|fuel IH]; intros pos w Hw; simpl.
  - destruct (pos <? packet_len); exact Hw.
  - destruct (pos <? packet_len); [|exact Hw].
    destruct (parse_tlv_header _ _) as [|nr [t l]|]; try exact Hw.
    destruct (t =? TLV_SCORE); [destruct (parse_score _ _); try exact Hw; apply IH, Hs, Hw|].
    destruct (t =? TLV_CLOSE_CLIENT);
      [destruct (parse_close_client _ _); try exact Hw; apply IH, Hc, Hw|].
    destruct (t =? TLV_CLOSED_CLIENT);
      [destruct (parse_closed_client _ _); try exact Hw; apply IH, Hd, Hw|].
    apply IH, Hw.
Qed.

Lemma receive_keeps (P : world -> Prop) alloc now buf w :
  (forall a b v m w, P w -> P (receive_score alloc now a b v m w)) ->
  (forall a b t ch w, P w -> P (receive_close_client a b t ch w)) ->
  (forall a t w, P w -> P (receive_closed_client a t w)) ->
  P w -> P (snd (receive alloc now buf w)).
Proof.
  intros Hs Hc Hd Hw.
  destruct (receive_header_checks alloc now buf w)
    as [[_ ->]|[hd [_ [[_ ->]|[(_ & _ & ->)|(_ & _ & _ & ->)]]]]]; try exact Hw.
  apply receive_tlvs_keeps; assumption.
Qed.

Lemma run_keeps (P : world -> Prop) :
  (forall i w, P w -> P (step i w)) ->
  forall inputs w, P w -> P (run inputs w).
Proof.
  intros Hstep. induction inputs as [|i r IH]; intros w Hw; simpl; [exact Hw|].
  apply IH, Hstep, Hw.
Qed.

(** ** Timers and states: the callbacks *)

Lemma timers_match_state_ext h c c' :
  flood_timeouts c' = flood_timeouts c -> client_timeouts c' = client_timeouts c ->
  STEERING_state_ c' = STEERING_state_ c ->
  (sta c <> None -> sta c' <> None) ->
  timers_match_state h c -> timers_match_state h c'.
Proof.
  intros Hf Hc Hs Hsta (H1 & H2 & H3). unfold timers_match_state.
  rewrite Hf, Hc, Hs. repeat split; try assumption. intros E. apply Hsta, H3, E.
Qed.

Lemma timers_find_or_create alloc w a c w1 :
  timers_in_line w -> client_find_or_create alloc w a = Some (c, w1) ->
  timers_in_line w1 /\ timers_match_state (hapd (bss w1)) c.
Proof.
  intros Hw E.
  destruct (client_find_or_create_Forall _ _ _ _ _ _ Hw
              (client_new_timers (hapd (bss w)) a) E) as (H1 & Hc & Hh & _).
  unfold timers_in_line. rewrite Hh. split; assumption.
Qed.

Lemma timers_on_client w c f :
  timers_in_line w ->
  timers_match_state (hapd (bss w))
    (sm (f (hapd (bss w)) (mode (bss w)) (mk_cstate c (frame_sn (bss w)) (trace w)))) ->
  timers_in_line (on_client w c f).
Proof. intros Hw Hc. exact (on_client_Forall _ w c f Hw Hc). Qed.

Lemma timers_of_found w a c :
  timers_in_line w -> client_find (bss w) a = Some c ->
  timers_match_state (hapd (bss w)) c.
Proof.
  intros Hw E. unfold timers_in_line in Hw. rewrite Forall_forall in Hw.
  exact (Hw c (client_find_in_In _ _ _ E)).
Qed.

Lemma receive_score_timers alloc now a b v m w :
  timers_in_line w -> timers_in_line (receive_score alloc now a b v m w).
Proof.
  intros Hw. unfold receive_score.
  destruct (client_find_or_create alloc w a) as [[c w1]|] eqn:E; [|exact Hw].
  destruct (timers_find_or_create _ _ _ _ _ Hw E) as (H1 & Hc).
  apply timers_on_client; [exact H1|]. apply receive_score_client_timers. exact Hc.
Qed.

Lemma receive_close_client_timers a b t ch w :
  timers_in_line w -> timers_in_line (receive_close_client a b t ch w).
Proof.
  intros Hw. unfold receive_close_client. destruct (mac_eqb _ _); [|exact Hw].
  destruct (client_find (bss w) a) as [c|] eqn:E; [|exact Hw].
  apply timers_on_client; [exact Hw|].
  apply do_Event_timers; [|discriminate].
  exact (timers_of_found _ _ _ Hw E).
Qed.

Lemma receive_closed_client_timers a t w :
  timers_in_line w -> timers_in_line (receive_closed_client a t w).
Proof.
  intros Hw. unfold receive_closed_client. destruct (mac_eqb _ _); [|exact Hw].
  destruct (client_find (bss w) a) as [c|] eqn:E; [|exact Hw].
  apply timers_on_client; [exact Hw|].
  apply do_Event_timers; [|discriminate].
  exact (timers_of_found _ _ _ Hw E).
Qed.

(** A timeout that fires was pending, and then it was the only one. *)
Lemma armed_fired h n : armed h n -> (0 < n)%nat -> eloop_timeout_fired n = O.
Proof. intros [Hle _] Hpos. unfold eloop_timeout_fired. destruct n as [|[|n]]; [lia | reflexivity | lia]. Qed.

Lemma client_timeout_timers h m s :
  timers_match_state h (sm s) -> (0 < client_timeouts (sm s))%nat ->
  timers_match_state h (sm (client_timeout h m s)).
Proof.
  intros H Hpos. unfold client_timeout. cbv zeta.
  assert (Hr : rejecting_or_rejected (STEERING_state_ (sm s)) = true).
  { destruct H as (_ & H2 & _).
    destruct (rejecting_or_rejected (STEERING_state_ (sm s))); [reflexivity|].
    cbn [timer_matches] in H2. lia. }
  destruct H as (H1 & _ & _). revert Hr H1. unfold timers_match_state.
  open_cstate s; cbn [sm STEERING_state_ rejecting_or_rejected]; intros Hr; try discriminate Hr;
    cbn [upd sm set_client_timeouts client_timeouts flood_timeouts sta score STEERING_state_
         changed addr close_bssid remote_bssid remote_time association_time remote_channel
         probe_timeouts registrations state_eqb timer_matches];
    intros ->; destruct m; sm_unfold; cbn [state_eqb rejecting_or_rejected timer_matches];
    split_ifs; (split; [reflexivity | split; [reflexivity | discriminate]]).
Qed.

Lemma flood_score_timers h now s :
  timers_match_state h (sm s) -> (0 < flood_timeouts (sm s))%nat ->
  timers_match_state h (sm (flood_score h now s)).
Proof.
  intros H Hpos. unfold flood_score. cbv zeta. cbn [upd sm]. rewrite do_flood_score_sm.
  cbn [upd sm]. destruct H as (H1 & H2 & H3).
  destruct (state_eqb (STEERING_state_ (sm s)) STEERING_ASSOCIATED) eqn:E;
    [|cbn [timer_matches] in H1; lia].
  cbn [timer_matches] in H1. pose proof (armed_fired h _ H1 Hpos) as H0.
  unfold timers_match_state, start_flood_timer, client_register.
  cbn [set_flood_timeouts set_registrations flood_timeouts client_timeouts STEERING_state_
       sta addr registrations].
  rewrite E, H0. repeat split; try assumption; apply armed_register.
Qed.

Lemma step_timers i w : timers_in_line w -> timers_in_line (step i w).
Proof.
  intros Hw.
  destruct i as [alloc now sa bssid rssi|alloc now buf|alloc now st rssi|st|now a|a|a];
    cbn [step].
  - unfold probe_req_cb. destruct (_ || _); [|exact Hw].
    destruct (client_find_or_create alloc w sa) as [[c w1]|] eqn:E; [|exact Hw].
    destruct (timers_find_or_create _ _ _ _ _ Hw E) as (H1 & Hc).
    apply timers_on_client; [exact H1|]. cbv zeta.
    unfold client_start_probe_timer, client_register.
    apply (timers_match_state_ext _ c); try exact Hc;
      repeat match goal with
             | |- context [if ?b then _ else _] => destruct b
             end; cbn [upd sm]; rewrite ?do_flood_score_sm; try reflexivity; cbn; auto.
  - apply (receive_keeps timers_in_line);
      [intros; apply receive_score_timers; assumption
      |intros; apply receive_close_client_timers; assumption
      |intros; apply receive_closed_client_timers; assumption
      |exact Hw].
  - unfold net_steering_association.
    destruct (client_find_or_create alloc w (sta_addr st)) as [[c w1]|] eqn:E; [|exact Hw].
    destruct (timers_find_or_create _ _ _ _ _ Hw E) as (H1 & Hc).
    apply timers_on_client; [exact H1|]. cbv zeta.
    apply do_Event_timers.
    + rewrite do_flood_score_sm. apply (timers_match_state_ext _ c); try exact Hc;
        try reflexivity. intros _. cbn. discriminate.
    + intros _. rewrite do_flood_score_sm. cbn. discriminate.
  - unfold net_steering_disassociation.
    destruct (client_find (bss w) (sta_addr st)) as [c|] eqn:E; [|exact Hw].
    apply timers_on_client; [exact Hw|]. apply client_disassociate_timers.
    exact (timers_of_found _ _ _ Hw E).
  - unfold fire. destruct (client_find (bss w) a) as [c|] eqn:E; [|exact Hw].
    destruct (0 <? flood_timeouts c)%nat eqn:Ep; [|exact Hw].
    apply timers_on_client; [exact Hw|]. apply flood_score_timers.
    + exact (timers_of_found _ _ _ Hw E).
    + apply Nat.ltb_lt. exact Ep.
  - unfold fire. destruct (client_find (bss w) a) as [c|] eqn:E; [|exact Hw].
    destruct (0 <? client_timeouts c)%nat eqn:Ep; [|exact Hw].
    apply timers_on_client; [exact Hw|]. apply client_timeout_timers.
    + exact (timers_of_found _ _ _ Hw E).
    + apply Nat.ltb_lt. exact Ep.
  - unfold fire. destruct (client_find (bss w) a) as [c|] eqn:E; [|exact Hw].
    destruct (0 <? probe_timeouts c)%nat eqn:Ep; [|exact Hw].
    apply timers_on_client; [exact Hw|].
    apply (timers_match_state_ext _ c); try reflexivity;
      [auto | exact (timers_of_found _ _ _ Hw E)].
Qed.

Lemma hapd_run inputs w : hapd (bss (run inputs w)) = hapd (bss w).
Proof.
  apply (run_keeps (fun w' => hapd (bss w') = hapd (bss w))); [|reflexivity].
  intros i w' Hw'. rewrite <- Hw'. clear Hw'.
  assert (Hon : forall w0 c f, hapd (bss (on_client w0 c f)) = hapd (bss w0))
    by reflexivity.
  assert (Hfc : forall alloc w0 a c w1,
             client_find_or_create alloc w0 a = Some (c, w1) ->
             hapd (bss w1) = hapd (bss w0)).
  { intros alloc w0 a c w1 E.
    exact (proj1 (proj2 (proj2 (client_find_or_create_Forall (fun _ => True) _ _ _ _ _
             ltac:(apply Forall_forall; intros; exact I) I E)))). }
  assert (Hrs : forall alloc now a b v m w0,
             hapd (bss (receive_score alloc now a b v m w0)) = hapd (bss w0)).
  { intros. unfold receive_score.
    destruct (client_find_or_create _ _ _) as [[c w1]|] eqn:E; [|reflexivity].
    rewrite Hon. exact (Hfc _ _ _ _ _ E). }
  destruct i as [alloc now sa bssid rssi|alloc now buf|alloc now st rssi|st|now a|a|a];
    cbn [step].
  - unfold probe_req_cb. destruct (_ || _); [|reflexivity].
    destruct (client_find_or_create _ _ _) as [[c w1]|] eqn:E; [|reflexivity].
    rewrite Hon. exact (Hfc _ _ _ _ _ E).
  - apply (receive_keeps (fun w0 => hapd (bss w0) = hapd (bss w'))); [| | |reflexivity].
    + intros a b v m w0 H0. rewrite Hrs. exact H0.
    + intros a b t ch w0 H0. unfold receive_close_client.
      destruct (mac_eqb _ _); [|exact H0]. destruct (client_find _ _); exact H0.
    + intros a t w0 H0. unfold receive_closed_client.
      destruct (mac_eqb _ _); [|exact H0]. destruct (client_find _ _); exact H0.
  - unfold net_steering_association.
    destruct (client_find_or_create _ _ _) as [[c w1]|] eqn:E; [|reflexivity].
    rewrite Hon. exact (Hfc _ _ _ _ _ E).
  - unfold net_steering_disassociation. destruct (client_find _ _); reflexivity.
  - unfold fire. destruct (client_find _ _); [|reflexivity]. destruct (0 <? _)%nat; reflexivity.
  - unfold fire. destruct (client_find _ _); [|reflexivity]. destruct (0 <? _)%nat; reflexivity.
  - unfold fire. destruct (client_find _ _); [|reflexivity]. destruct (0 <? _)%nat; reflexivity.
Qed.

(** X8: along every sequence of callbacks of a context (probes, frames,
    associations, disassociations, timer expiries), each client that is in
    [STEERING_ASSOCIATED] has its [sta] and at most one score-flood timeout
    pending, each client in [STEERING_REJECTING] or [STEERING_REJECTED] has
    at most one state timeout pending, and no client in another state has
    one of the two pending: if this holds of the clients before, it holds
    after.  "At most one" is "exactly one" in an event loop where no
    registration of a timeout fails; where one fails, the client is in its
    state with no timeout to take it on. *)
Theorem timers_follow_the_state (inputs : list input) (w : world) :
  timers_in_line w ->
  timers_in_line (run inputs w) /\
  (registrations_succeed (hapd (bss w)) ->
   Forall (fun c =>
             flood_timeouts c =
               (if state_eqb (STEERING_state_ c) STEERING_ASSOCIATED then 1%nat else O) /\
             client_timeouts c =
               (if rejecting_or_rejected (STEERING_state_ c) then 1%nat else O))
     (clients (bss (run inputs w)))).
Proof.
  intros Hw.
  pose proof (run_keeps timers_in_line step_timers inputs w Hw) as H.
  split; [exact H|]. intros Hok.
  unfold timers_in_line in H. rewrite hapd_run in H.
  eapply Forall_impl; [|exact H]. intros c (H1 & H2 & _).
  unfold timer_matches, armed in H1, H2.
  destruct (state_eqb _ _), (rejecting_or_rejected _); split;
    first [ assumption | apply H1, Hok | apply H2, Hok ].
Qed.

Lemma timers_follow_the_state_witness :
  let K_sta := mk_sta_info sta_K 0 in
  let inputs := [I_association true (mk_os_time 100 0) K_sta (-40);
                 I_flood_score (mk_os_time 101 0) sta_K;
                 I_receive true (mk_os_time 102 0)
                   (close_client_frame hapd_B K_confirming_at_B 0);
                 I_disassociation K_sta;
                 I_client_timeout sta_K] in
  let w := run inputs (world_of hapd_A MODE_FORCE []) in
  let v := run inputs (world_of hapd_A_without_timers MODE_FORCE []) in
  timers_in_line (world_of hapd_A MODE_FORCE []) /\
  timers_in_line w /\
  map STEERING_state_ (clients (bss w)) = [STEERING_ASSOCIATING] /\
  timers_in_line v /\
  map STEERING_state_ (clients (bss v)) = [STEERING_REJECTED] /\
  map client_timeouts (clients (bss v)) = [O].
Proof.
  cbv zeta. split; [constructor|]. split; [|split; [reflexivity|split; [|split; reflexivity]]].
  - apply (timers_follow_the_state
             [I_association true (mk_os_time 100 0) (mk_sta_info sta_K 0) (-40);
              I_flood_score (mk_os_time 101 0) sta_K;
              I_receive true (mk_os_time 102 0)
                (close_client_frame hapd_B K_confirming_at_B 0);
              I_disassociation (mk_sta_info sta_K 0);
              I_client_timeout sta_K]
             (world_of hapd_A MODE_FORCE [])).
    constructor.
  - apply (timers_follow_the_state
             [I_association true (mk_os_time 100 0) (mk_sta_info sta_K 0) (-40);
              I_flood_score (mk_os_time 101 0) sta_K;
              I_receive true (mk_os_time 102 0)
                (close_client_frame hapd_B K_confirming_at_B 0);
              I_disassociation (mk_sta_info sta_K 0);
              I_client_timeout sta_K]
             (world_of hapd_A_without_timers MODE_FORCE [])).
    constructor.
Defined.

(** ** The registry along a run *)

Lemma map_addr_client_put_in l c : map addr (client_put_in l c) = map addr l.
Proof.
  induction l as [|x r IH]; simpl; [reflexivity|].
  destruct (mac_eqb (addr c) (addr x)) eqn:E; simpl.
  - apply mac_eqb_eq in E. rewrite E. reflexivity.
  - rewrite IH. reflexivity.
Qed.

Lemma registry_macs_on_client w c f : registry_macs (on_client w c f) = registry_macs w.
Proof. unfold registry_macs, on_client. cbn [bss clients]. apply map_addr_client_put_in. Qed.

Lemma client_find_in_None l a : client_find_in l a = None -> ~ In a (map addr l).
Proof.
  induction l as [|x r IH]; simpl; [tauto|].
  destruct (mac_eqb a (addr x)) eqn:E; [discriminate|].
  intros H [Hx|Hr]; [|exact (IH H Hr)].
  apply mac_eqb_neq in E. congruence.
Qed.

Lemma client_find_or_create_macs alloc w a c w1 :
  client_find_or_create alloc w a = Some (c, w1) ->
  registry_macs w1 = registry_macs w \/
  (registry_macs w1 = a :: registry_macs w /\ ~ In a (registry_macs w)).
Proof.
  unfold client_find_or_create, client_find, client_create, registry_macs.
  destruct (client_find_in (clients (bss w)) a) eqn:E.
  - intros [= _ <-]. left. reflexivity.
  - destruct alloc; [|discriminate]. intros [= _ <-]. right.
    split; [reflexivity | exact (client_find_in_None _ _ E)].
Qed.

Section Registry.

Variable w0 : world.


Lemma grown_on_client w c f : registry_grown w0 w -> registry_grown w0 (on_client w c f).
Proof. unfold registry_grown. rewrite registry_macs_on_client. tauto. Qed.

Lemma grown_find_or_create alloc w a c w1 :
  client_find_or_create alloc w a = Some (c, w1) -> registry_grown w0 w -> registry_grown w0 w1.
Proof.
  intros E [Hn [new Hx]]. destruct (client_find_or_create_macs _ _ _ _ _ E) as [H|[H Hnot]].
  - unfold registry_grown. rewrite H. eauto.
  - unfold registry_grown. rewrite H. split; [constructor; assumption|].
    exists (a :: new). rewrite Hx. reflexivity.
Qed.

Lemma grown_receive_score alloc now a b v m w :
  registry_grown w0 w -> registry_grown w0 (receive_score alloc now a b v m w).
Proof.
  intros Hw. unfold receive_score.
  destruct (client_find_or_create alloc w a) as [[c w1]|] eqn:E; [|exact Hw].
  apply grown_on_client. exact (grown_find_or_create _ _ _ _ _ E Hw).
Qed.

Lemma grown_step i w : registry_grown w0 w -> registry_grown w0 (step i w).
Proof.
  intros Hw.
  destruct i as [alloc now sa bssid rssi|alloc now buf|alloc now st rssi|st|now a|a|a];
    cbn [step].
  - unfold probe_req_cb. destruct (_ || _); [|exact Hw].
    destruct (client_find_or_create alloc w sa) as [[c w1]|] eqn:E; [|exact Hw].
    apply grown_on_client. exact (grown_find_or_create _ _ _ _ _ E Hw).
  - apply (receive_keeps (registry_grown w0)); [| | |exact Hw].
    + intros. apply grown_receive_score. assumption.
    + intros a b t ch w' Hw'. unfold receive_close_client.
      destruct (mac_eqb _ _); [|exact Hw'].
      destruct (client_find (bss w') a); [apply grown_on_client|]; exact Hw'.
    + intros a t w' Hw'. unfold receive_closed_client.
      destruct (mac_eqb _ _); [|exact Hw'].
      destruct (client_find (bss w') a); [apply grown_on_client|]; exact Hw'.
  - unfold net_steering_association.
    destruct (client_find_or_create alloc w (sta_addr st)) as [[c w1]|] eqn:E; [|exact Hw].
    apply grown_on_client. exact (grown_find_or_create _ _ _ _ _ E Hw).
  - unfold net_steering_disassociation.
    destruct (client_find (bss w) (sta_addr st)); [apply grown_on_client|]; exact Hw.
  - unfold fire. destruct (client_find (bss w) a); [|exact Hw].
    destruct (0 <? _)%nat; [apply grown_on_client|]; exact Hw.
  - unfold fire. destruct (client_find (bss w) a); [|exact Hw].
    destruct (0 <? _)%nat; [apply grown_on_client|]; exact Hw.
  - unfold fire. destruct (client_find (bss w) a); [|exact Hw].
    destruct (0 <? _)%nat; [apply grown_on_client|]; exact Hw.
Qed.

Lemma grown_run inputs : NoDup (registry_macs w0) -> registry_grown w0 (run inputs w0).
Proof.
  intros H. apply (run_keeps (registry_grown w0)); [exact grown_step|].
  split; [exact H | exists []; reflexivity].
Qed.

End Registry.

(** X9: along every sequence of callbacks the registry never comes to
    hold two entries for one MAC, and no callback removes an entry: the
    MACs held before are all still there, in their order, behind the new
    ones. *)
Theorem registry_grows_without_duplicates (inputs : list input) (w : world) :
  NoDup (registry_macs w) ->
  NoDup (registry_macs (run inputs w)) /\
  exists new, registry_macs (run inputs w) = new ++ registry_macs w.
Proof. intros H. exact (grown_run w inputs H). Qed.

Lemma registry_grows_without_duplicates_witness :
  let w := world_of hapd_A MODE_FORCE [K_associated_at_A] in
  let w' := run [I_probe true (mk_os_time 101 0) sta_J bssid_A (-60);
                 I_receive true (mk_os_time 102 0) (score_frame_with_version 1);
                 I_probe true (mk_os_time 103 0) sta_J bssid_A (-61);
                 I_probe_timeout sta_J] w in
  NoDup (registry_macs w) /\
  registry_macs w' = [sta_J; sta_K] /\
  NoDup (registry_macs w').
Proof.
  cbv zeta.
  assert (H : NoDup (registry_macs (world_of hapd_A MODE_FORCE [K_associated_at_A]))).
  { repeat constructor. simpl. tauto. }
  split; [exact H|]. split; [reflexivity|].
  exact (proj1 (registry_grows_without_duplicates
                  [I_probe true (mk_os_time 101 0) sta_J bssid_A (-60);
                   I_receive true (mk_os_time 102 0) (score_frame_with_version 1);
                   I_probe true (mk_os_time 103 0) sta_J bssid_A (-61);
                   I_probe_timeout sta_J]
                  (world_of hapd_A MODE_FORCE [K_associated_at_A]) H)).
Defined.

(** ** What is sent along a run *)

Section Sends.

Variable h : hostapd_data.
Variable m : steering_mode.

Lemma sends_flood_message buf s :
  (wpabuf_len buf = 20 \/ wpabuf_len buf = 26 \/ wpabuf_len buf = 27) ->
  length_field_is_whole_frame buf ->
  Forall (send_ok h) (tr s) -> Forall (send_ok h) (tr (flood_message h buf s)).
Proof.
  intros Hl Hf Hs. unfold flood_message. cbn [tr]. rewrite flood_message_to_trace.
  apply Forall_app. split; [exact Hs|]. apply Forall_forall. intros e He.
  apply in_map_iff in He. destruct He as [d [<- Hd]]. cbn.
  split; [exact Hd | split; [reflexivity | split; assumption]].
Qed.

Lemma sends_upd f s : Forall (send_ok h) (tr s) -> Forall (send_ok h) (tr (upd f s)).
Proof. exact (fun H => H). Qed.

Lemma sends_SM_ENTER st s :
  Forall (send_ok h) (tr s) -> Forall (send_ok h) (tr (SM_ENTER st s)).
Proof. exact (fun H => H). Qed.

Lemma sends_emit e s :
  is_send_effect e = false ->
  Forall (send_ok h) (tr s) -> Forall (send_ok h) (tr (emit e s)).
Proof.
  intros He Hs. unfold emit. cbn [tr]. apply Forall_app. split; [exact Hs|].
  constructor; [|constructor]. destruct e; try exact I. discriminate.
Qed.

Lemma sends_flood_close_client s :
  Forall (send_ok h) (tr s) -> Forall (send_ok h) (tr (flood_close_client h s)).
Proof.
  intros Hs. rewrite flood_close_client_frame.
  destruct (close_client_frame_length_field h (sm s) (sn s)) as [Hf Hl].
  apply sends_flood_message; [tauto | exact Hf | exact Hs].
Qed.

Lemma sends_flood_closed_client s :
  Forall (send_ok h) (tr s) -> Forall (send_ok h) (tr (flood_closed_client h s)).
Proof.
  intros Hs. rewrite flood_closed_client_frame. apply sends_upd.
  destruct (closed_client_frame_length_field h (sm s) (sn s)) as [Hf Hl].
  apply sends_flood_message; [tauto | exact Hf | exact Hs].
Qed.

Lemma sends_do_flood_score now s :
  Forall (send_ok h) (tr s) -> Forall (send_ok h) (tr (do_flood_score h now s)).
Proof.
  intros Hs. destruct (Z.eq_dec (score (sm s)) max_score) as [E|E].
  - rewrite do_flood_score_max by exact E. exact Hs.
  - rewrite do_flood_score_frame by exact E.
    match goal with
    | |- context [score_frame h ?c ?n ?a] =>
        destruct (score_frame_length_field h c n a) as [Hf Hl]
    end.
    apply sends_flood_message; [tauto | exact Hf | exact Hs].
Qed.

Lemma sends_blacklist_add s :
  Forall (send_ok h) (tr s) -> Forall (send_ok h) (tr (do_client_blacklist_add m s)).
Proof.
  intros Hs. unfold do_client_blacklist_add.
  destruct (mode_eqb m MODE_FORCE); [apply sends_emit; [reflexivity|]|]; exact Hs.
Qed.

Lemma sends_blacklist_rm s :
  Forall (send_ok h) (tr s) -> Forall (send_ok h) (tr (do_client_blacklist_rm m s)).
Proof.
  intros Hs. unfold do_client_blacklist_rm.
  destruct (mode_eqb m MODE_FORCE); [apply sends_emit; [reflexivity|]|]; exact Hs.
Qed.

Lemma sends_do_client_disassociate s :
  Forall (send_ok h) (tr s) -> Forall (send_ok h) (tr (do_client_disassociate m s)).
Proof.
  intros Hs. unfold do_client_disassociate.
  destruct (client_is_associated (sm s)); [|exact Hs].
  destruct (_ || _); apply sends_emit; (reflexivity || exact Hs).
Qed.

Lemma sends_do_Event e s :
  Forall (send_ok h) (tr s) -> Forall (send_ok h) (tr (sm_STEERING_do_Event h m e s)).
Proof.
  intros Hs. unfold sm_STEERING_do_Event.
  destruct (STEERING_state_ (sm s)); destruct e;
    cbv beta zeta delta
      [SM_TRANSITION SM_TRANS_NOOP
       sm_STEERING_IDLE_on_E_ASSOCIATED_ASSOCIATED
       sm_STEERING_IDLE_on_E_PEER_IS_WORSE_CONFIRMING
       sm_STEERING_IDLE_on_E_PEER_NOT_WORSE_REJECTED
       sm_STEERING_IDLE_on_E_CLOSE_CLIENT_REJECTED
       sm_STEERING_CONFIRMING_on_E_PEER_IS_WORSE_CONFIRMING
       sm_STEERING_CONFIRMING_on_E_ASSOCIATED_ASSOCIATED
       sm_STEERING_ASSOCIATING_on_E_ASSOCIATED_ASSOCIATED
       sm_STEERING_ASSOCIATING_on_E_PEER_IS_WORSE_ASSOCIATING
       sm_STEERING_ASSOCIATING_on_E_CLOSE_CLIENT_REJECTED
       sm_STEERING_ASSOCIATED_on_E_CLOSE_CLIENT_REJECTING
       sm_STEERING_ASSOCIATED_on_E_DISASSOCIATED_IDLE
       sm_STEERING_ASSOCIATED_on_E_PEER_IS_WORSE_ASSOCIATED
       sm_STEERING_REJECTING_on_E_DISASSOCIATED_REJECTED
       sm_STEERING_REJECTING_on_E_PEER_IS_WORSE_CONFIRMING
       sm_STEERING_REJECTING_on_E_PEER_LOST_CLIENT_CONFIRMING
       sm_STEERING_REJECTING_on_E_TIMEOUT_ASSOCIATING
       sm_STEERING_REJECTED_on_E_PEER_IS_WORSE_CONFIRMING
       sm_STEERING_REJECTED_on_E_PEER_LOST_CLIENT_CONFIRMING
       sm_STEERING_REJECTED_on_E_CLOSE_CLIENT_REJECTED
       sm_STEERING_REJECTED_on_E_TIMEOUT_ASSOCIATING];
    repeat lazymatch goal with
           | |- Forall _ (tr (SM_ENTER _ _)) => apply sends_SM_ENTER
           | |- Forall _ (tr (upd _ _)) => apply sends_upd
           | |- Forall _ (tr (flood_close_client _ _)) => apply sends_flood_close_client
           | |- Forall _ (tr (flood_closed_client _ _)) => apply sends_flood_closed_client
           | |- Forall _ (tr (do_client_blacklist_add _ _)) => apply sends_blacklist_add
           | |- Forall _ (tr (do_client_blacklist_rm _ _)) => apply sends_blacklist_rm
           | |- Forall _ (tr (do_client_disassociate _ _)) =>
               apply sends_do_client_disassociate
           | |- Forall _ (tr (emit _ _)) => apply sends_emit; [reflexivity|]
           end;
    exact Hs.
Qed.

End Sends.

Lemma sends_on_client h w c f :
  sends_ok h w ->
  (forall m s, Forall (send_ok h) (tr s) -> Forall (send_ok h) (tr (f h m s))) ->
  sends_ok h (on_client w c f).
Proof.
  intros [Hh Ht] Hf. unfold sends_ok, on_client. cbn [bss hapd trace].
  split; [exact Hh|]. rewrite Hh. apply Hf. exact Ht.
Qed.

Lemma sends_find_or_create h alloc w a c w1 :
  client_find_or_create alloc w a = Some (c, w1) -> sends_ok h w -> sends_ok h w1.
Proof.
  intros E [Hh Ht].
  destruct (client_find_or_create_Forall (fun _ => True) _ _ _ _ _
              ltac:(apply Forall_forall; intros; exact I) I E) as (_ & _ & H1 & _ & _ & H2).
  unfold sends_ok. rewrite H1, H2. split; assumption.
Qed.

Lemma sends_compare_scores h m v s :
  Forall (send_ok h) (tr s) -> Forall (send_ok h) (tr (compare_scores h m v s)).
Proof. intros Hs. rewrite compare_scores_dispatch. apply sends_do_Event. exact Hs. Qed.

Lemma sends_client_disassociate h m s :
  Forall (send_ok h) (tr s) -> Forall (send_ok h) (tr (client_disassociate h m s)).
Proof. intros Hs. unfold client_disassociate. cbn [upd tr]. apply sends_do_Event. exact Hs. Qed.

Lemma sends_receive_score h alloc now a b v msecs w :
  sends_ok h w -> sends_ok h (receive_score alloc now a b v msecs w).
Proof.
  intros Hw. unfold receive_score.
  destruct (client_find_or_create alloc w a) as [[c w1]|] eqn:E; [|exact Hw].
  apply sends_on_client; [exact (sends_find_or_create _ _ _ _ _ _ E Hw)|].
  intros m s Hs. unfold receive_score_client.
  destruct (negb _); [|apply sends_compare_scores; exact Hs].
  destruct (os_time_before _ _); [|exact Hs].
  destruct (client_is_associated (sm s)).
  - cbn [upd tr]. apply sends_client_disassociate. exact Hs.
  - apply sends_compare_scores. exact Hs.
Qed.

Lemma sends_step h i w : sends_ok h w -> sends_ok h (step i w).
Proof.
  intros Hw.
  destruct i as [alloc now sa bssid rssi|alloc now buf|alloc now st rssi|st|now a|a|a];
    cbn [step].
  - unfold probe_req_cb. destruct (_ || _); [|exact Hw].
    destruct (client_find_or_create alloc w sa) as [[c w1]|] eqn:E; [|exact Hw].
    apply sends_on_client; [exact (sends_find_or_create _ _ _ _ _ _ E Hw)|].
    intros m s Hs. cbv zeta.
    assert (H : Forall (send_ok h)
                  (tr (if negb (compute_score rssi =? score (sm s))
                       then if client_is_associated (sm (upd (set_score (compute_score rssi)) s))
                            then do_flood_score h now (upd (set_score (compute_score rssi)) s)
                            else upd (set_score (compute_score rssi)) s
                       else s))).
    { destruct (negb _); [|exact Hs].
      destruct (client_is_associated _); [apply sends_do_flood_score|]; exact Hs. }
    destruct (negb (client_is_associated _)); cbn [upd tr]; exact H.
  - apply (receive_keeps (sends_ok h)); [| | |exact Hw].
    + intros. apply sends_receive_score. assumption.
    + intros a b t ch w' Hw'. unfold receive_close_client.
      destruct (mac_eqb _ _); [|exact Hw'].
      destruct (client_find (bss w') a); [|exact Hw'].
      apply sends_on_client; [exact Hw'|]. intros m s Hs. apply sends_do_Event. exact Hs.
    + intros a t w' Hw'. unfold receive_closed_client.
      destruct (mac_eqb _ _); [|exact Hw'].
      destruct (client_find (bss w') a); [|exact Hw'].
      apply sends_on_client; [exact Hw'|]. intros m s Hs. apply sends_do_Event. exact Hs.
  - unfold net_steering_association.
    destruct (client_find_or_create alloc w (sta_addr st)) as [[c w1]|] eqn:E; [|exact Hw].
    apply sends_on_client; [exact (sends_find_or_create _ _ _ _ _ _ E Hw)|].
    intros m s Hs. cbv zeta. apply sends_do_Event, sends_do_flood_score. exact Hs.
  - unfold net_steering_disassociation.
    destruct (client_find (bss w) (sta_addr st)); [|exact Hw].
    apply sends_on_client; [exact Hw|]. intros m s Hs.
    apply sends_client_disassociate. exact Hs.
  - unfold fire. destruct (client_find (bss w) a); [|exact Hw].
    destruct (0 <? _)%nat; [|exact Hw].
    apply sends_on_client; [exact Hw|]. intros m s Hs. unfold flood_score.
    cbn [upd tr]. apply sends_do_flood_score. exact Hs.
  - unfold fire. destruct (client_find (bss w) a); [|exact Hw].
    destruct (0 <? _)%nat; [|exact Hw].
    apply sends_on_client; [exact Hw|]. intros m s Hs. unfold client_timeout.
    apply sends_do_Event. exact Hs.
  - unfold fire. destruct (client_find (bss w) a); [|exact Hw].
    destruct (0 <? _)%nat; [|exact Hw].
    apply sends_on_client; [exact Hw|]. intros m s Hs. exact Hs.
Qed.

(** X10: along every sequence of callbacks, whatever the context hands to
    [l2_packet_send] goes to an address of its [r0kh] list other than its
    [own_addr], under the module's ethertype, and is a frame of 20, 26 or
    27 bytes that states its own length at offset 2; the 1024 bytes of the
    buffer are never exceeded and the context never sends to itself. *)
Theorem sends_stay_among_peers (inputs : list input) (w : world) :
  Forall (send_ok (hapd (bss w))) (trace w) ->
  Forall (send_ok (hapd (bss w))) (trace (run inputs w)) /\
  Forall (fun d => In d (r0kh_list (hapd (bss w))) /\ d <> own_addr (hapd (bss w)))
    (flood_targets (hapd (bss w))).
Proof.
  intros H. split.
  - apply (run_keeps (sends_ok (hapd (bss w))) (sends_step (hapd (bss w))) inputs w).
    split; [reflexivity | exact H].
  - apply Forall_forall. intros d Hd. apply filter_In in Hd. destruct Hd as [Hin Hne].
    split; [exact Hin|]. apply mac_eqb_neq.
    destruct (mac_eqb d (own_addr (hapd (bss w)))); [discriminate | reflexivity].
Qed.

Lemma sends_stay_among_peers_witness :
  let K_sta := mk_sta_info sta_K 0 in
  let inputs := [I_association true (mk_os_time 100 0) K_sta (-40);
                 I_flood_score (mk_os_time 101 0) sta_K;
                 I_receive true (mk_os_time 102 0)
                   (close_client_frame hapd_B K_confirming_at_B 0);
                 I_disassociation K_sta] in
  let w := world_of hapd_A MODE_FORCE [] in
  send_dsts (trace (run inputs w)) = [bssid_B; bssid_B; bssid_B] /\
  map wpabuf_len (sent_frames (trace (run inputs w))) = [26; 26; 20] /\
  Forall (send_ok hapd_A) (trace (run inputs w)).
Proof.
  cbv zeta. split; [reflexivity|]. split; [reflexivity|].
  exact (proj1 (sends_stay_among_peers
                  [I_association true (mk_os_time 100 0) (mk_sta_info sta_K 0) (-40);
                   I_flood_score (mk_os_time 101 0) sta_K;
                   I_receive true (mk_os_time 102 0)
                     (close_client_frame hapd_B K_confirming_at_B 0);
                   I_disassociation (mk_sta_info sta_K 0)]
                  (world_of hapd_A MODE_FORCE []) (Forall_nil _))).
Defined.

(** ** A CLOSE_CLIENT for a client associated here *)

Lemma on_client_trace w c f :
  trace (on_client w c f) =
  tr (f (hapd (bss w)) (mode (bss w)) (mk_cstate c (frame_sn (bss w)) (trace w))).
Proof. reflexivity. Qed.

(** X11: a CLOSE_CLIENT addressed to this BSSID for a client that is
    associated here is answered, in this order, by the blacklist call (in
    [MODE_FORCE] only) and by one request to the client: a BSS transition
    request towards the BSSID and the channel given in the TLV when the
    mode is [MODE_SUGGEST] or the client has BSS transition activated, a
    plain disassociation otherwise.  No frame is sent, and the client is
    left in [STEERING_REJECTING] with the sender recorded and its score
    reset. *)
Theorem close_client_on_associated (a bssid target : mac) (ch : Z) (w : world)
  (c : net_steering_client) :
  client_find (bss w) a = Some c ->
  client_is_associated c = true ->
  target = conf_bssid (hapd (bss w)) ->
  let w' := receive_close_client a bssid target ch w in
  trace w' =
    trace w
    ++ [log_transition STEERING_ASSOCIATED STEERING_REJECTING a STEERING_E_CLOSE_CLIENT]
    ++ (if mode_eqb (mode (bss w)) MODE_FORCE
        then [hostapd_ctrl_iface_blacklist_add a] else [])
    ++ [if mode_eqb (mode (bss w)) MODE_SUGGEST || client_supports_bss_transition c
        then wnm_send_bss_tm_req2 a 0 bssid ch
        else hostapd_ctrl_iface_disassociate a] /\
  exists c', client_find (bss w') a = Some c' /\
             STEERING_state_ c' = STEERING_REJECTING /\
             close_bssid c' = bssid /\ remote_channel c' = ch /\
             score c' = 65535 /\ sta c' = sta c.
Proof.
  intros Hf Ha -> w'.
  assert (Haddr : addr c = a) by exact (client_find_in_addr _ _ _ Hf).
  apply client_is_associated_true in Ha. destruct Ha as [[st Hst] Hs].
  subst w'. unfold receive_close_client. rewrite mac_eqb_refl, Hf.
  set (f := fun (h : hostapd_data) (m : steering_mode) (s : cstate) =>
              sm_STEERING_do_Event h m STEERING_E_CLOSE_CLIENT
                (upd (client_set_close_bssid bssid) (upd (set_remote_channel ch) s))).
  change (on_client w c _) with (on_client w c f).
  assert (Hsm : let s' := f (hapd (bss w)) (mode (bss w))
                            (mk_cstate c (frame_sn (bss w)) (trace w)) in
                tr s' =
                  trace w
                  ++ [log_transition STEERING_ASSOCIATED STEERING_REJECTING a
                        STEERING_E_CLOSE_CLIENT]
                  ++ (if mode_eqb (mode (bss w)) MODE_FORCE
                      then [hostapd_ctrl_iface_blacklist_add a] else [])
                  ++ [if mode_eqb (mode (bss w)) MODE_SUGGEST
                         || client_supports_bss_transition c
                      then wnm_send_bss_tm_req2 a 0 bssid ch
                      else hostapd_ctrl_iface_disassociate a] /\
                addr (sm s') = addr c /\
                STEERING_state_ (sm s') = STEERING_REJECTING /\
                close_bssid (sm s') = bssid /\ remote_channel (sm s') = ch /\
                score (sm s') = 65535 /\ sta (sm s') = sta c).
  { subst f. cbv zeta. destruct c. cbn [addr sta STEERING_state_] in *. subst.
    unfold client_supports_bss_transition. cbn [sta].
    unfold client_set_close_bssid.
    destruct (mode (bss w)); sm_unfold; cbn [mode_eqb orb];
      destruct (dot11MgmtOptionBSSTransitionActivated st =? 1);
      rewrite <- ?app_assoc; repeat split. }
  cbv zeta in Hsm. destruct Hsm as (Ht & Had & Hrest).
  split.
  - rewrite on_client_trace. exact Ht.
  - eexists. split; [|exact Hrest].
    rewrite <- Haddr. apply on_client_find; [rewrite Haddr, Hf; discriminate | exact Had].
Qed.

Lemma close_client_on_associated_witness :
  let w := world_of hapd_A MODE_SUGGEST [K_associated_at_A] in
  let w' := receive_close_client sta_K bssid_B bssid_A 11 w in
  trace w' =
    [log_transition STEERING_ASSOCIATED STEERING_REJECTING sta_K STEERING_E_CLOSE_CLIENT;
     wnm_send_bss_tm_req2 sta_K 0 bssid_B 11] /\
  option_map STEERING_state_ (client_find (bss w') sta_K) = Some STEERING_REJECTING.
Proof.
  cbv zeta.
  destruct (close_client_on_associated sta_K bssid_B bssid_A 11
              (world_of hapd_A MODE_SUGGEST [K_associated_at_A]) K_associated_at_A
              eq_refl eq_refl eq_refl) as [Ht (c' & Hc & Hs & _)].
  split; [exact Ht|]. rewrite Hc. cbn [option_map]. rewrite Hs. reflexivity.
Defined.

(** ** Who owns the client *)

Lemma os_time_eta (t : os_time) : mk_os_time (sec t) (usec t) = t.
Proof. destruct t. reflexivity. Qed.

Lemma receive_score_client_remote now bssid v msecs h m s :
  let s' := receive_score_client now bssid v msecs h m s in
  addr (sm s') = addr (sm s) /\
  (if negb (mac_eqb bssid (remote_bssid (sm s)))
      && os_time_before (remote_time (sm s)) (adjusted_time now msecs)
   then remote_bssid (sm s') = bssid /\ remote_time (sm s') = adjusted_time now msecs
   else remote_bssid (sm s') = remote_bssid (sm s) /\
        remote_time (sm s') = remote_time (sm s)) /\
  (mac_eqb bssid (remote_bssid (sm s)) = false ->
   os_time_before (remote_time (sm s)) (adjusted_time now msecs) = false ->
   s' = s).
Proof.
  unfold receive_score_client. fold (adjusted_time now msecs).
  unfold client_get_remote_bssid.
  destruct (mac_eqb bssid (remote_bssid (sm s))) eqn:Eb; cbn [negb andb].
  - rewrite compare_scores_dispatch.
    destruct (do_Event_frame h m (compare_scores_event (sm s) v) s)
      as (_ & Ha & Hb & Ht & _).
    cbv zeta in *. repeat split; try assumption. discriminate.
  - destruct (os_time_before (remote_time (sm s)) (adjusted_time now msecs)) eqn:Et.
    + destruct (client_is_associated (sm s)) eqn:Ea.
      * destruct (client_disassociate_associated h m s Ea) as (_ & _ & _ & Ha & _).
        cbv zeta in *. unfold client_update_remote. cbn [upd sm set_remote_time set_remote_bssid
          addr remote_bssid remote_time]. rewrite os_time_eta.
        repeat split; try assumption. discriminate.
      * rewrite compare_scores_dispatch.
        match goal with
        | |- context [sm_STEERING_do_Event h m ?e ?s1] =>
            destruct (do_Event_frame h m e s1) as (_ & Ha & Hb & Ht & _)
        end.
        cbv zeta in *. rewrite Ha, Hb, Ht. unfold client_update_remote.
        cbn [upd sm set_remote_time set_remote_bssid addr remote_bssid remote_time].
        rewrite os_time_eta. repeat split. discriminate.
    + cbv zeta. repeat split.
Qed.

(** X12: when a SCORE arrives for a client of the registry, the remote
    owner recorded for it changes only to a sender other than the recorded
    one whose adjusted time is strictly later than the recorded time, and
    then to exactly that sender and time; a SCORE from the recorded owner
    leaves owner and time as they are, and a SCORE from another sender
    that is not later changes nothing at all: no field, no event, no
    frame. *)
Theorem remote_owner_moves_forward_only (alloc : bool) (now : os_time) (a bssid : mac)
  (v msecs : Z) (w : world) (c : net_steering_client) :
  client_find (bss w) a = Some c ->
  let w' := receive_score alloc now a bssid v msecs w in
  let newer := negb (mac_eqb bssid (remote_bssid c))
               && os_time_before (remote_time c) (adjusted_time now msecs) in
  exists c', client_find (bss w') a = Some c' /\
    (if newer
     then remote_bssid c' = bssid /\ remote_time c' = adjusted_time now msecs
     else remote_bssid c' = remote_bssid c /\ remote_time c' = remote_time c) /\
    (mac_eqb bssid (remote_bssid c) = false -> newer = false ->
     c' = c /\ trace w' = trace w /\ frame_sn (bss w') = frame_sn (bss w)).
Proof.
  intros Hf w' newer.
  assert (Haddr : addr c = a) by exact (client_find_in_addr _ _ _ Hf).
  subst w'. unfold receive_score, client_find_or_create. rewrite Hf.
  destruct (receive_score_client_remote now bssid v msecs (hapd (bss w)) (mode (bss w))
              (mk_cstate c (frame_sn (bss w)) (trace w))) as (Ha & Hr & Hsame).
  cbn [sm] in Ha, Hr, Hsame. fold newer in Hr.
  eexists. split; [|split].
  - rewrite <- Haddr. apply on_client_find; [rewrite Haddr, Hf; discriminate | exact Ha].
  - exact Hr.
  - intros Eb En. subst newer. rewrite Eb in En. cbn [negb andb] in En.
    rewrite on_client_trace. unfold on_client. cbn [bss frame_sn].
    rewrite (Hsame Eb En). repeat split.
Qed.

Lemma remote_owner_moves_forward_only_witness :
  let w := world_of hapd_B MODE_FORCE [K_confirming_at_B] in
  client_find (bss w) sta_K = Some K_confirming_at_B /\
  receive_score true (mk_os_time 50 0) sta_K bssid_C 10 1000 w = w /\
  option_map remote_bssid
    (client_find (bss (receive_score true (mk_os_time 200 0) sta_K bssid_C 10 1000 w)) sta_K)
    = Some bssid_C.
Proof.
  cbv zeta. split; [reflexivity|]. split; [reflexivity|].
  destruct (remote_owner_moves_forward_only true (mk_os_time 200 0) sta_K bssid_C 10 1000
              (world_of hapd_B MODE_FORCE [K_confirming_at_B]) K_confirming_at_B eq_refl)
    as (c' & Hc & Hr & _).
  rewrite Hc. cbn [option_map]. cbn in Hr. destruct Hr as [-> _]. reflexivity.
Defined.

(** ** Probes, associations and disassociations of a known client *)

Lemma do_flood_score_dispatched h now s :
  dispatched (tr (do_flood_score h now s)) = dispatched (tr s).
Proof.
  unfold do_flood_score. destruct (score (sm s) =? max_score); [reflexivity|].
  cbv beta iota zeta delta [header_put_next flood_message tr sm sn].
  apply dispatched_flood.
Qed.

Lemma client_find_or_create_found alloc w a c w1 :
  client_find_or_create alloc w a = Some (c, w1) ->
  client_find (bss w1) a = Some c /\ addr c = a /\
  (client_find (bss w) a = None -> c = client_new a) /\
  (forall c0, client_find (bss w) a = Some c0 -> c = c0).
Proof.
  unfold client_find_or_create, client_create.
  destruct (client_find (bss w) a) as [c0|] eqn:E.
  - intros [= <- <-]. repeat split.
    + exact E.
    + exact (client_find_in_addr _ _ _ E).
    + discriminate.
    + intros c1 [= ->]. reflexivity.
  - destruct alloc; [|discriminate]. intros [= <- <-]. repeat split.
    + apply client_find_created.
    + discriminate.
Qed.

(** X13: a probe of a client of the registry is taken into account
    whatever BSSID it was directed at.  It sets the score to
    [compute_score] of the signal and steps no state machine.  For a
    client that is not associated here it sends nothing, cancels the probe
    timeouts pending, however many, and registers one: one is pending
    afterwards, or none if that registration fails.  For a client that is
    associated here it leaves the probe timeouts alone and floods the new
    score at once if the score has changed. *)
Theorem probe_of_known_client (alloc : bool) (now : os_time) (sa bssid : mac)
  (rssi : Z) (w : world) (c : net_steering_client) :
  client_find (bss w) sa = Some c ->
  let w' := probe_req_cb alloc now sa bssid rssi w in
  exists c', client_find (bss w') sa = Some c' /\
    score c' = compute_score rssi /\
    STEERING_state_ c' = STEERING_state_ c /\ sta c' = sta c /\
    probe_timeouts c' =
      (if client_is_associated c then probe_timeouts c
       else if eloop_register_fails (hapd (bss w)) sa (registrations c)
            then O else 1%nat) /\
    dispatched (trace w') = dispatched (trace w) /\
    (client_is_associated c = false -> trace w' = trace w) /\
    (client_is_associated c = true ->
     trace w' =
       if compute_score rssi =? score c then trace w
       else tr (do_flood_score (hapd (bss w)) now
                  (mk_cstate (set_score (compute_score rssi) c) (frame_sn (bss w))
                     (trace w)))).
Proof.
  intros Hf w'.
  assert (Haddr : addr c = sa) by exact (client_find_in_addr _ _ _ Hf).
  subst w'. unfold probe_req_cb, client_find_or_create. rewrite Hf. cbn [orb].
  match goal with
  | |- context [on_client w c ?f0] => set (f := f0)
  end.
  set (s0 := mk_cstate c (frame_sn (bss w)) (trace w)).
  assert (Hs : let s' := f (hapd (bss w)) (mode (bss w)) s0 in
               addr (sm s') = addr c /\
               score (sm s') = compute_score rssi /\
               STEERING_state_ (sm s') = STEERING_state_ c /\ sta (sm s') = sta c /\
               probe_timeouts (sm s') =
                 (if client_is_associated c then probe_timeouts c
                  else if eloop_register_fails (hapd (bss w)) sa (registrations c)
                       then O else 1%nat) /\
               dispatched (tr s') = dispatched (trace w) /\
               (client_is_associated c = false -> tr s' = trace w) /\
               (client_is_associated c = true ->
                tr s' =
                  if compute_score rssi =? score c then trace w
                  else tr (do_flood_score (hapd (bss w)) now
                             (mk_cstate (set_score (compute_score rssi) c)
                                (frame_sn (bss w)) (trace w))))).
  { subst f s0 sa. cbv zeta.
    unfold client_start_probe_timer, client_stop_probe_timer, client_register,
      eloop_register_timeout, eloop_cancel_timeout.
    cbn [sm upd score].
    change (client_is_associated (set_score (compute_score rssi) c))
      with (client_is_associated c).
    destruct (Z.eqb_spec (compute_score rssi) (score c)) as [Es|Es]; cbn [negb].
    - destruct (client_is_associated c) eqn:Ea; cbn [sm negb];
        rewrite ?Ea; cbn [negb upd sm tr]; rewrite ?Es; repeat split; congruence.
    - destruct (client_is_associated c) eqn:Ea.
      + rewrite do_flood_score_sm. cbn [sm upd]. change (client_is_associated _) with
          (client_is_associated c). rewrite Ea. cbn [negb].
        rewrite do_flood_score_sm, do_flood_score_dispatched. cbn [sm upd tr].
        repeat split; congruence.
      + cbn [sm upd]. change (client_is_associated (set_score (compute_score rssi) c))
          with (client_is_associated c). rewrite Ea. cbn [negb upd sm tr].
        repeat split; congruence. }
  cbv zeta in Hs. destruct Hs as (Ha & Hrest).
  eexists. split; [|rewrite on_client_trace; exact Hrest].
  rewrite <- Haddr. apply on_client_find; [rewrite Haddr, Hf; discriminate | exact Ha].
Qed.

Lemma probe_of_known_client_witness :
  let w := world_of hapd_B MODE_FORCE [K_confirming_at_B] in
  let w' := probe_req_cb true (mk_os_time 120 0) sta_K bssid_A (-35)
              (probe_req_cb true (mk_os_time 110 0) sta_K bssid_A (-33) w) in
  trace w' = [] /\
  option_map (fun c => (score c, probe_timeouts c)) (client_find (bss w') sta_K)
    = Some (35, 1%nat).
Proof.
  cbv zeta.
  destruct (probe_of_known_client true (mk_os_time 120 0) sta_K bssid_A (-35)
              (probe_req_cb true (mk_os_time 110 0) sta_K bssid_A (-33)
                 (world_of hapd_B MODE_FORCE [K_confirming_at_B]))
              (set_registrations 2 (set_score 33 K_confirming_at_B)) eq_refl)
    as (c' & Hc & Hsc & _ & _ & Hp & _ & Ht & _).
  split; [exact (Ht eq_refl)|]. rewrite Hc. cbn [option_map]. rewrite Hsc, Hp. reflexivity.
Defined.

Lemma do_Event_associated h m s :
  let s' := sm_STEERING_do_Event h m STEERING_E_ASSOCIATED s in
  score (sm s') = score (sm s) /\
  STEERING_state_ (sm s') =
    match STEERING_state_ (sm s) with
    | STEERING_IDLE | STEERING_CONFIRMING | STEERING_ASSOCIATING => STEERING_ASSOCIATED
    | st => st
    end.
Proof. open_cstate s; sm_unfold; split; reflexivity. Qed.

(** X14: an association that finds or creates the client's entry records
    the station, the score of the signal and the time, forgets the remote
    owner and cancels the probe timeouts, and gives the state machine
    E_ASSOCIATED, once.  From [STEERING_IDLE], [STEERING_CONFIRMING] and
    [STEERING_ASSOCIATING] the client becomes [STEERING_ASSOCIATED]; a
    client in [STEERING_REJECTING] or [STEERING_REJECTED] stays there,
    station and score recorded all the same. *)
Theorem association_records_the_station (alloc : bool) (now : os_time) (st : sta_info)
  (rssi : Z) (w w1 : world) (c : net_steering_client) :
  client_find_or_create alloc w (sta_addr st) = Some (c, w1) ->
  let w' := net_steering_association alloc now st rssi w in
  exists c', client_find (bss w') (sta_addr st) = Some c' /\
    sta c' = Some st /\ addr c' = sta_addr st /\
    score c' = compute_score rssi /\ association_time c' = now /\
    remote_bssid c' = mac_zero /\ remote_time c' = os_time_zero /\
    probe_timeouts c' = O /\
    STEERING_state_ c' =
      match STEERING_state_ c with
      | STEERING_IDLE | STEERING_CONFIRMING | STEERING_ASSOCIATING => STEERING_ASSOCIATED
      | s => s
      end /\
    dispatched (trace w') = dispatched (trace w) ++ [STEERING_E_ASSOCIATED].
Proof.
  intros E w'. subst w'. unfold net_steering_association. rewrite E.
  destruct (client_find_or_create_found _ _ _ _ _ E) as (Hf1 & Haddr & _).
  destruct (client_find_or_create_Forall (fun _ => True) _ _ _ _ _
              ltac:(apply Forall_forall; intros; exact I) I E) as (_ & _ & _ & _ & _ & Htr).
  match goal with
  | |- context [on_client w1 c ?f0] => set (f := f0)
  end.
  set (s0 := mk_cstate c (frame_sn (bss w1)) (trace w1)).
  assert (Hs : let s' := f (hapd (bss w1)) (mode (bss w1)) s0 in
               addr (sm s') = sta_addr st /\ sta (sm s') = Some st /\
               score (sm s') = compute_score rssi /\ association_time (sm s') = now /\
               remote_bssid (sm s') = mac_zero /\ remote_time (sm s') = os_time_zero /\
               probe_timeouts (sm s') = O /\
               STEERING_state_ (sm s') =
                 match STEERING_state_ c with
                 | STEERING_IDLE | STEERING_CONFIRMING | STEERING_ASSOCIATING =>
                     STEERING_ASSOCIATED
                 | s => s
                 end /\
               dispatched (tr s') = dispatched (trace w1) ++ [STEERING_E_ASSOCIATED]).
  { subst f s0. cbv beta zeta.
    match goal with
    | |- context [sm_STEERING_do_Event ?h ?m STEERING_E_ASSOCIATED ?s1] =>
        destruct (do_Event_frame h m STEERING_E_ASSOCIATED s1)
          as (H1 & H2 & H3 & H4 & H5 & H6 & H7);
        destruct (do_Event_associated h m s1) as (H8 & H9)
    end.
    cbv zeta in *. rewrite H1, H2, H3, H4, H5, H6, H7, H8, H9.
    rewrite !do_flood_score_sm, do_flood_score_dispatched. cbn. repeat split. }
  cbv zeta in Hs. destruct Hs as (Ha & Hsta & Hsc & Hat & Hrb & Hrt & Hp & Hst & Hd).
  eexists. split.
  - rewrite <- Haddr at 1. apply on_client_find; [rewrite Haddr, Hf1; discriminate|].
    fold s0. rewrite Ha. symmetry. exact Haddr.
  - rewrite on_client_trace. fold s0. rewrite <- Htr. repeat split; assumption.
Qed.

Lemma association_records_the_station_witness :
  let st := mk_sta_info sta_K 1 in
  let w := world_of hapd_A MODE_FORCE [K_rejecting_at_A] in
  let w' := net_steering_association true (mk_os_time 300 0) st (-45) w in
  option_map (fun c => (STEERING_state_ c, sta c, score c)) (client_find (bss w') sta_K)
    = Some (STEERING_REJECTING, Some st, 45) /\
  dispatched (trace w') = [STEERING_E_ASSOCIATED].
Proof.
  cbv zeta.
  destruct (association_records_the_station true (mk_os_time 300 0) (mk_sta_info sta_K 1)
              (-45) (world_of hapd_A MODE_FORCE [K_rejecting_at_A])
              (world_of hapd_A MODE_FORCE [K_rejecting_at_A])
              K_rejecting_at_A eq_refl)
    as (c' & Hc & Hsta & _ & Hsc & _ & _ & _ & _ & Hst & Hd).
  split; [|exact Hd]. cbn [sta_addr] in Hc. rewrite Hc. cbn [option_map].
  rewrite Hsta, Hsc, Hst. reflexivity.
Defined.

Lemma client_disassociate_fields h m s :
  let s' := client_disassociate h m s in
  addr (sm s') = addr (sm s) /\
  sta (sm s') = None /\ remote_bssid (sm s') = mac_zero /\
  remote_time (sm s') = os_time_zero /\ association_time (sm s') = os_time_zero /\
  probe_timeouts (sm s') =
    (if eloop_register_fails h (addr (sm s))
          (match STEERING_state_ (sm s) with
           | STEERING_REJECTING => S (registrations (sm s))
           | _ => registrations (sm s)
           end)
     then probe_timeouts (sm s) else S (probe_timeouts (sm s))) /\
  STEERING_state_ (sm s') =
    match STEERING_state_ (sm s) with
    | STEERING_ASSOCIATED | STEERING_ASSOCIATING => STEERING_IDLE
    | STEERING_REJECTING => STEERING_REJECTED
    | st => st
    end /\
  (STEERING_state_ (sm s) = STEERING_ASSOCIATED ->
   score (sm s') = 65535 /\ flood_timeouts (sm s') = O) /\
  (STEERING_state_ (sm s) = STEERING_REJECTING ->
   client_timeouts (sm s') =
     if eloop_register_fails h (addr (sm s)) (registrations (sm s))
     then O else 1%nat) /\
  (STEERING_state_ (sm s) = STEERING_REJECTING -> close_bssid (sm s') = mac_zero).
Proof.
  open_cstate s; destruct m; unfold client_disassociate;
    sm_unfold; repeat split; intros; first [discriminate | reflexivity].
Qed.

(** X15: a disassociation of a client of the registry gives the state
    machine E_DISASSOCIATED, once, and only then clears the station, the
    remote owner and the association time; it registers one more probe
    timeout without cancelling those pending, or leaves the pending ones
    as they are if that registration fails.  [STEERING_ASSOCIATED] and
    [STEERING_ASSOCIATING] lead to [STEERING_IDLE] (from
    [STEERING_ASSOCIATED] with the score reset and the flood timeout
    cancelled), [STEERING_REJECTING] leads to [STEERING_REJECTED] with the
    state timeout started afresh (one pending, none if its registration
    fails, which is the registration before that of the probe timeout),
    the other states stay. *)
Theorem disassociation_clears_the_station (st : sta_info) (w : world)
  (c : net_steering_client) :
  client_find (bss w) (sta_addr st) = Some c ->
  let w' := net_steering_disassociation st w in
  exists c', client_find (bss w') (sta_addr st) = Some c' /\
    sta c' = None /\ remote_bssid c' = mac_zero /\
    remote_time c' = os_time_zero /\ association_time c' = os_time_zero /\
    probe_timeouts c' =
      (if eloop_register_fails (hapd (bss w)) (sta_addr st)
            (match STEERING_state_ c with
             | STEERING_REJECTING => S (registrations c)
             | _ => registrations c
             end)
       then probe_timeouts c else S (probe_timeouts c)) /\
    STEERING_state_ c' =
      match STEERING_state_ c with
      | STEERING_ASSOCIATED | STEERING_ASSOCIATING => STEERING_IDLE
      | STEERING_REJECTING => STEERING_REJECTED
      | s => s
      end /\
    (STEERING_state_ c = STEERING_ASSOCIATED ->
     score c' = 65535 /\ flood_timeouts c' = O) /\
    (STEERING_state_ c = STEERING_REJECTING ->
     client_timeouts c' =
       if eloop_register_fails (hapd (bss w)) (sta_addr st) (registrations c)
       then O else 1%nat) /\
    dispatched (trace w') = dispatched (trace w) ++ [STEERING_E_DISASSOCIATED].
Proof.
  intros Hf w'.
  assert (Haddr : addr c = sta_addr st) by exact (client_find_in_addr _ _ _ Hf).
  subst w'. unfold net_steering_disassociation. rewrite Hf.
  set (s0 := mk_cstate c (frame_sn (bss w)) (trace w)).
  destruct (client_disassociate_fields (hapd (bss w)) (mode (bss w)) s0)
    as (Ha & H1 & H2 & H3 & H4 & H5 & H6 & H7 & H8 & _).
  cbn [s0 sm] in H5, H8. rewrite Haddr in H5, H8.
  eexists. split; [|split; [exact H1 | split; [exact H2 | split; [exact H3
    | split; [exact H4 | split; [exact H5 | split; [exact H6 | split; [exact H7
    | split; [exact H8|]]]]]]]]].
  - rewrite <- Haddr. apply on_client_find; [rewrite Haddr, Hf; discriminate | exact Ha].
  - rewrite on_client_trace. fold s0. unfold client_disassociate. cbn [upd tr].
    destruct (do_Event_frame (hapd (bss w)) (mode (bss w)) STEERING_E_DISASSOCIATED s0)
      as (_ & _ & _ & _ & _ & _ & Hd).
    exact Hd.
Qed.

Lemma disassociation_clears_the_station_witness :
  let st := mk_sta_info sta_K 0 in
  let w := world_of hapd_A MODE_FORCE [K_rejecting_at_A] in
  let w' := net_steering_disassociation st w in
  option_map (fun c => (STEERING_state_ c, sta c, probe_timeouts c))
    (client_find (bss w') sta_K) = Some (STEERING_REJECTED, None, 1%nat) /\
  dispatched (trace w') = [STEERING_E_DISASSOCIATED].
Proof.
  cbv zeta.
  destruct (disassociation_clears_the_station (mk_sta_info sta_K 0)
              (world_of hapd_A MODE_FORCE [K_rejecting_at_A]) K_rejecting_at_A eq_refl)
    as (c' & Hc & Hsta & _ & _ & _ & Hp & Hst & _ & _ & Hd).
  split; [|exact Hd]. cbn [sta_addr] in Hc. rewrite Hc. cbn [option_map].
  rewrite Hsta, Hp, Hst. reflexivity.
Defined.

(** ** The first SCORE about a client *)

(** X16: the first SCORE about a client the AP has never heard (no entry,
    the allocation succeeds) that is taken into account (its sender BSSID
    is all zero, or its adjusted time is after time zero) always counts as
    "peer not worse": [client_create] gives the fresh entry the score
    0xFFFF, which no score of a peer exceeds.  The client goes from
    [STEERING_IDLE] to [STEERING_REJECTED], in [MODE_FORCE] it is
    blacklisted, and the state timeout is started: one is pending, or none
    if that registration, the first for the client, fails.  Nothing is
    sent. *)
Theorem first_score_rejects_the_client (now : os_time) (a bssid : mac) (v msecs : Z)
  (w : world) :
  client_find (bss w) a = None ->
  0 <= v <= 65535 ->
  bssid = mac_zero \/ os_time_before os_time_zero (adjusted_time now msecs) = true ->
  let w' := receive_score true now a bssid v msecs w in
  trace w' =
    trace w
    ++ [log_transition STEERING_IDLE STEERING_REJECTED a STEERING_E_PEER_NOT_WORSE]
    ++ (if mode_eqb (mode (bss w)) MODE_FORCE
        then [hostapd_ctrl_iface_blacklist_add a] else []) /\
  exists c', client_find (bss w') a = Some c' /\
             STEERING_state_ c' = STEERING_REJECTED /\
             client_timeouts c' =
               (if eloop_register_fails (hapd (bss w)) a 0 then O else 1%nat) /\
             score c' = 65535 /\ sta c' = None.
Proof.
  intros Hnone Hv Hb w'. subst w'. unfold receive_score.
  rewrite (client_find_or_create_fresh w a Hnone).
  set (w1 := mk_world (mk_nsb (client_new a :: clients (bss w)) (hapd (bss w))
                         (frame_sn (bss w)) (mode (bss w))) (trace w)).
  set (s0 := mk_cstate (client_new a) (frame_sn (bss w1)) (trace w1)).
  assert (Hs : receive_score_client now bssid v msecs (hapd (bss w1)) (mode (bss w1)) s0 =
               sm_STEERING_do_Event (hapd (bss w1)) (mode (bss w1)) STEERING_E_PEER_NOT_WORSE
                 (if mac_eqb bssid mac_zero then s0
                  else upd (client_update_remote bssid (adjusted_time now msecs)) s0)).
  { unfold receive_score_client. fold (adjusted_time now msecs).
    cbn [s0 sm client_new client_get_remote_bssid remote_bssid remote_time].
    assert (Hcmp : forall s, score (sm s) = max_score ->
                   compare_scores (hapd (bss w1)) (mode (bss w1)) v s =
                   sm_STEERING_do_Event (hapd (bss w1)) (mode (bss w1))
                     STEERING_E_PEER_NOT_WORSE s).
    { intros s E. unfold compare_scores. rewrite E.
      replace (max_score <? v) with false; [reflexivity|].
      symmetry. apply Z.ltb_ge. rewrite max_score_value. lia. }
    destruct (mac_eqb bssid mac_zero) eqn:E0; cbn [negb].
    - apply Hcmp. reflexivity.
    - destruct Hb as [->|Hb]; [rewrite mac_eqb_refl in E0; discriminate|].
      change (mk_os_time 0 0) with os_time_zero. rewrite Hb.
      change (client_is_associated _) with false. cbv iota.
      apply Hcmp. reflexivity. }
  assert (Hpost : let s' := receive_score_client now bssid v msecs (hapd (bss w1))
                              (mode (bss w1)) s0 in
                  tr s' =
                    trace w
                    ++ [log_transition STEERING_IDLE STEERING_REJECTED a
                          STEERING_E_PEER_NOT_WORSE]
                    ++ (if mode_eqb (mode (bss w)) MODE_FORCE
                        then [hostapd_ctrl_iface_blacklist_add a] else []) /\
                  addr (sm s') = a /\ STEERING_state_ (sm s') = STEERING_REJECTED /\
                  client_timeouts (sm s') =
                    (if eloop_register_fails (hapd (bss w)) a 0 then O else 1%nat) /\
                  score (sm s') = 65535 /\ sta (sm s') = None).
  { cbv zeta. rewrite Hs. subst s0 w1. cbn [bss hapd mode frame_sn trace].
    destruct (mac_eqb bssid mac_zero); destruct (mode (bss w));
      unfold client_update_remote, client_new; sm_unfold; cbn [mode_eqb];
      rewrite <- ?app_assoc; repeat split. }
  cbv zeta in Hpost. destruct Hpost as (Ht & Ha & Hrest).
  split; [rewrite on_client_trace; exact Ht|].
  eexists. split; [|exact Hrest].
  change a with (addr (client_new a)) at 2.
  apply on_client_find; [|exact Ha].
  cbn [addr client_new]. subst w1. cbn [bss]. rewrite client_find_created. discriminate.
Qed.

Lemma first_score_rejects_the_client_witness :
  let w := world_of hapd_A MODE_FORCE [] in
  let w' := receive_score true (mk_os_time 200 0) sta_K bssid_B 40 1000 w in
  trace w' =
    [log_transition STEERING_IDLE STEERING_REJECTED sta_K STEERING_E_PEER_NOT_WORSE;
     hostapd_ctrl_iface_blacklist_add sta_K] /\
  option_map STEERING_state_ (client_find (bss w') sta_K) = Some STEERING_REJECTED.
Proof.
  cbv zeta.
  destruct (first_score_rejects_the_client (mk_os_time 200 0) sta_K bssid_B 40 1000
              (world_of hapd_A MODE_FORCE []) eq_refl ltac:(lia)
              ltac:(right; reflexivity)) as [Ht (c' & Hc & Hs & _)].
  split; [exact Ht|]. rewrite Hc. cbn [option_map]. rewrite Hs. reflexivity.
Defined.

(** ** Serial numbers *)

Lemma read_serial (b0 b1 b2 b3 n : Z) (rest : list Z) :
  0 <= n < 65536 ->
  read_u16 ([b0; b1; b2; b3] ++ htons_bytes n ++ rest) 4 = Some n.
Proof.
  intros Hn. unfold read_u16, htons_bytes.
  rewrite mem_read_ok by (cbn [app length]; lia).
  change (Z.to_nat 4) with 4%nat. cbn [app skipn firstn].
  rewrite ntohs_htons by exact Hn. reflexivity.
Qed.

(** X17: a flood takes the serial number of its frames from [frame_sn] and
    moves [frame_sn] on by one, from 0xFFFF back to 0; all the frames of
    one flood carry the same number.  A score flood that is suppressed
    because the score is 0xFFFF uses no number up. *)
Theorem floods_number_their_frames (h : hostapd_data) (now : os_time)
  (c : net_steering_client) (n : Z) :
  0 <= n < 65536 ->
  (Forall (fun f => read_u16 f 4 = Some n)
     (sent_frames (tr (flood_close_client h (mk_cstate c n [])))) /\
   sn (flood_close_client h (mk_cstate c n [])) = (n + 1) mod 65536) /\
  (Forall (fun f => read_u16 f 4 = Some n)
     (sent_frames (tr (flood_closed_client h (mk_cstate c n [])))) /\
   sn (flood_closed_client h (mk_cstate c n [])) = (n + 1) mod 65536) /\
  (Forall (fun f => read_u16 f 4 = Some n)
     (sent_frames (tr (do_flood_score h now (mk_cstate c n [])))) /\
   sn (do_flood_score h now (mk_cstate c n [])) =
     if score c =? max_score then n else (n + 1) mod 65536).
Proof.
  intros Hn. split; [|split].
  - split; [|reflexivity]. rewrite flood_close_client_frame. cbn [sm sn tr flood_message].
    apply flood_message_to_frames; [|constructor].
    rewrite close_client_frame_bytes. apply read_serial. exact Hn.
  - split; [|reflexivity]. rewrite flood_closed_client_frame.
    cbn [upd sm sn tr flood_message].
    apply flood_message_to_frames; [|constructor].
    rewrite closed_client_frame_bytes. apply read_serial. exact Hn.
  - destruct (Z.eqb_spec (score c) max_score) as [E|E].
    + rewrite do_flood_score_max by exact E. split; [constructor | reflexivity].
    + rewrite do_flood_score_frame by exact E. cbn [sm sn tr flood_message].
      split; [|reflexivity].
      apply flood_message_to_frames; [|constructor].
      rewrite score_frame_bytes. apply read_serial. exact Hn.
Qed.

Lemma floods_number_their_frames_witness :
  sent_frames (tr (flood_close_client hapd_B (mk_cstate K_confirming_at_B 65535 []))) =
    [close_client_frame hapd_B K_confirming_at_B 65535] /\
  read_u16 (close_client_frame hapd_B K_confirming_at_B 65535) 4 = Some 65535 /\
  sn (flood_close_client hapd_B (mk_cstate K_confirming_at_B 65535 [])) = 0.
Proof.
  split; [reflexivity|]. split; [reflexivity|].
  exact (proj2 (proj1 (floods_number_their_frames hapd_B os_time_zero K_confirming_at_B
                         65535 ltac:(lia)))).
Defined.

(** ** Clients that are not in the registry *)

(** X18: for a client that has no entry, a CLOSE_CLIENT, a CLOSED_CLIENT
    and a disassociation change nothing and create no entry, and neither
    does a probe directed at another BSSID; and when the allocation of an
    entry fails, a probe directed at this BSSID, a SCORE and an
    association change nothing either. *)
Theorem unknown_client_is_left_alone (a : mac) (w : world) :
  client_find (bss w) a = None ->
  (forall alloc now bssid rssi,
     bssid <> conf_bssid (hapd (bss w)) -> probe_req_cb alloc now a bssid rssi w = w) /\
  (forall bssid target ch, receive_close_client a bssid target ch w = w) /\
  (forall target, receive_closed_client a target w = w) /\
  (forall st, sta_addr st = a -> net_steering_disassociation st w = w) /\
  (forall now bssid rssi, probe_req_cb false now a bssid rssi w = w) /\
  (forall now bssid v msecs, receive_score false now a bssid v msecs w = w) /\
  (forall now st rssi, sta_addr st = a -> net_steering_association false now st rssi w = w).
Proof.
  intros Hnone. repeat split.
  - intros alloc now bssid rssi Hb. unfold probe_req_cb. rewrite Hnone.
    replace (mac_eqb (conf_bssid (hapd (bss w))) bssid) with false; [reflexivity|].
    symmetry. apply mac_eqb_neq. congruence.
  - intros bssid target ch. unfold receive_close_client. rewrite Hnone.
    destruct (mac_eqb _ _); reflexivity.
  - intros target. unfold receive_closed_client. rewrite Hnone.
    destruct (mac_eqb _ _); reflexivity.
  - intros st <-. unfold net_steering_disassociation. rewrite Hnone. reflexivity.
  - intros now bssid rssi. unfold probe_req_cb, client_find_or_create. rewrite Hnone.
    destruct (_ || _); reflexivity.
  - intros now bssid v msecs. unfold receive_score, client_find_or_create.
    rewrite Hnone. reflexivity.
  - intros now st rssi <-. unfold net_steering_association, client_find_or_create.
    rewrite Hnone. reflexivity.
Qed.

Lemma unknown_client_is_left_alone_witness :
  let w := world_of hapd_A MODE_FORCE [K_associated_at_A] in
  client_find (bss w) sta_J = None /\
  receive_close_client sta_J bssid_B bssid_A 11 w = w /\
  snd (receive true (mk_os_time 200 0) (close_client_frame hapd_B (client_new sta_J) 0) w)
    = w.
Proof.
  cbv zeta. split; [reflexivity|]. split; [|reflexivity].
  destruct (unknown_client_is_left_alone sta_J
              (world_of hapd_A MODE_FORCE [K_associated_at_A]) eq_refl)
    as (_ & H & _).
  exact (H bssid_B bssid_A 11).
Defined.

(** ** Initialisation *)

(** X19: [net_steering_init] lists a context only when a mode string is
    configured that is not "off", the build has fast transition, the
    [r0kh] list is not empty, and the allocation and the L2 socket both
    succeed.  The context starts with no clients and serial number 0; its
    mode is [MODE_SUGGEST] exactly for the string "suggest" and
    [MODE_FORCE] for every other string, a misspelt one included; it is
    never [MODE_OFF]. *)
Theorem init_lists_suggest_or_force (ft_compiled : bool)
  (net_steeering_mode : option String.string) (h : hostapd_data)
  (zalloc_ok l2_ok : bool) (nsb : net_steering_bss) :
  Init.net_steering_init ft_compiled net_steeering_mode h zalloc_ok l2_ok
    = Init.Init_ready nsb ->
  clients nsb = [] /\ frame_sn nsb = 0 /\ hapd nsb = h /\
  ft_compiled = true /\ zalloc_ok = true /\ l2_ok = true /\ r0kh_list h <> [] /\
  exists mode_string,
    net_steeering_mode = Some mode_string /\ mode_string <> Init.mode_off /\
    (mode nsb = MODE_SUGGEST <-> mode_string = Init.mode_suggest) /\
    (mode nsb = MODE_FORCE <-> mode_string <> Init.mode_suggest) /\
    mode nsb <> MODE_OFF.
Proof.
  unfold Init.net_steering_init. destruct net_steeering_mode as [ms|]; [|discriminate].
  destruct (String.eqb_spec ms Init.mode_off) as [Eoff|Eoff]; [discriminate|].
  destruct ft_compiled; [|discriminate]. cbn [negb].
  destruct (r0kh_list h) eqn:Er; [discriminate|].
  destruct zalloc_ok; [|discriminate]. destruct l2_ok; [|discriminate]. cbn [negb].
  intros [= <-]. cbn [clients frame_sn hapd mode].
  repeat split; try discriminate.
  exists ms. split; [reflexivity|]. split; [exact Eoff|].
  destruct (String.eqb_spec ms Init.mode_suggest) as [Es|Es].
  - repeat split; try discriminate; try congruence.
  - destruct (String.eqb ms Init.mode_force); repeat split; try discriminate; congruence.
Qed.

Lemma init_lists_suggest_or_force_witness :
  Init.net_steering_init true (Some Init.mode_misspelt) hapd_A true true =
    Init.Init_ready (mk_nsb [] hapd_A 0 MODE_FORCE) /\
  mode (mk_nsb [] hapd_A 0 MODE_FORCE) <> MODE_OFF.
Proof.
  split; [reflexivity|].
  destruct (init_lists_suggest_or_force true (Some Init.mode_misspelt) hapd_A true true
              (mk_nsb [] hapd_A 0 MODE_FORCE) eq_refl)
    as (_ & _ & _ & _ & _ & _ & _ & ms & _ & _ & _ & _ & H).
  exact H.
Defined.

(** ** A TLV that claims more bytes than the frame has *)

Lemma mem_read_beyond (buf : list Z) (off : Z) (n : nat) :
  Z.of_nat (length buf) < off + Z.of_nat n -> mem_read buf off n = None.
Proof.
  intros H. unfold mem_read.
  replace (off + Z.of_nat n <=? Z.of_nat (length buf)) with false
    by (symmetry; apply Z.leb_gt; exact H).
  rewrite andb_false_r. reflexivity.
Qed.

Lemma parse_score_overrun (buf : list Z) (l : Z) :
  18 <= l -> Z.of_nat (length buf) < 18 -> parse_score buf l = P_overrun.
Proof.
  intros Hl Hb. unfold parse_score.
  replace (l <? score_len) with false by (symmetry; apply Z.ltb_ge; exact Hl).
  unfold read_u32. rewrite (mem_read_beyond buf 14 4) by (cbn; lia).
  destruct (read_mac buf 0), (read_mac buf 6), (read_u16 buf 12); reflexivity.
Qed.

Lemma parse_close_client_overrun (buf : list Z) (l : Z) :
  19 <= l -> Z.of_nat (length buf) < 19 -> parse_close_client buf l = P_overrun.
Proof.
  intros Hl Hb. unfold parse_close_client.
  replace (l <? close_len) with false by (symmetry; apply Z.ltb_ge; exact Hl).
  unfold read_u8. rewrite (mem_read_beyond buf 18 1) by (cbn; lia).
  destruct (read_mac buf 0), (read_mac buf 6), (read_mac buf 12); reflexivity.
Qed.

Lemma parse_closed_client_overrun (buf : list Z) (l : Z) :
  12 <= l -> Z.of_nat (length buf) < 12 -> parse_closed_client buf l = P_overrun.
Proof.
  intros Hl Hb. unfold parse_closed_client.
  replace (l <? closed_len) with false by (symmetry; apply Z.ltb_ge; exact Hl).
  unfold read_mac at 2. rewrite (mem_read_beyond buf 6 6) by (cbn; lia).
  destruct (read_mac buf 0); reflexivity.
Qed.

(** X20: the parsers of the three TLVs compare the fixed size of the TLV
    with the length byte of the TLV, not with the bytes that are left: a
    last TLV of a known type whose length byte is large enough but whose
    payload is cut short makes [receive] copy its fields from beyond the
    received bytes (the model stops there, with [RX_overrun] and the
    context as it was). *)
Theorem cut_short_tlv_is_read_past_the_frame (alloc : bool) (now : os_time) (w : world)
  (sn0 sn1 t l : Z) (payload : list Z) :
  (t = TLV_SCORE /\ 18 <= l /\ Z.of_nat (length payload) < 18) \/
  (t = TLV_CLOSE_CLIENT /\ 19 <= l /\ Z.of_nat (length payload) < 19) \/
  (t = TLV_CLOSED_CLIENT /\ 12 <= l /\ Z.of_nat (length payload) < 12) ->
  receive alloc now (frame_with sn0 sn1 ([t; l] ++ payload)) w = (RX_overrun, w).
Proof.
  intros Ht.
  assert (Hp : Z.of_nat (length payload) < 19) by (destruct Ht as [H|[H|H]]; lia).
  pose proof (receive_frame_with alloc now w sn0 sn1 ([t; l] ++ payload) []) as H0.
  rewrite app_nil_r in H0. rewrite H0 by (constructor || (cbn [app length]; lia)). clear H0.
  set (L := 6 + Z.of_nat (length ([t; l] ++ payload))).
  assert (HL : L = 8 + Z.of_nat (length payload)) by (unfold L; cbn [app length]; lia).
  replace (Z.to_nat L) with (S (Z.to_nat (L - 1))) by lia.
  cbn [receive_tlvs].
  replace (6 <? L) with true by (symmetry; apply Z.ltb_lt; lia).
  assert (H6 : at_pos (frame_with sn0 sn1 ([t; l] ++ payload)) 6 = t :: l :: payload)
    by reflexivity.
  assert (H8 : at_pos (frame_with sn0 sn1 ([t; l] ++ payload)) (6 + 2) = payload)
    by reflexivity.
  rewrite H6, parse_tlv_header_cons by lia. rewrite H8.
  destruct Ht as [(-> & Hl & Hb)|[(-> & Hl & Hb)|(-> & Hl & Hb)]];
    cbn [Z.eqb TLV_SCORE TLV_CLOSE_CLIENT TLV_CLOSED_CLIENT].
  - rewrite parse_score_overrun by assumption. reflexivity.
  - rewrite parse_close_client_overrun by assumption. reflexivity.
  - rewrite parse_closed_client_overrun by assumption. reflexivity.
Qed.

Lemma cut_short_tlv_is_read_past_the_frame_witness :
  let w := world_of hapd_A MODE_FORCE [K_associated_at_A] in
  receive true (mk_os_time 200 0) (frame_with 0 1 ([TLV_SCORE; 18] ++ [1; 2; 3])) w
    = (RX_overrun, w).
Proof.
  exact (cut_short_tlv_is_read_past_the_frame true (mk_os_time 200 0)
           (world_of hapd_A MODE_FORCE [K_associated_at_A]) 0 1 TLV_SCORE 18 [1; 2; 3]
           ltac:(left; repeat split; simpl; lia)).
Defined.

(** ** The blacklist in MODE_FORCE *)

Lemma blacklist_balance_app a t u :
  blacklist_balance a (t ++ u) = blacklist_balance a t + blacklist_balance a u.
Proof.
  induction t as [|e t IH]; simpl; [reflexivity|].
  destruct e; simpl; rewrite IH; lia.
Qed.

Lemma blacklist_balance_flood a h peers buf t :
  blacklist_balance a (flood_message_to h peers buf t) = blacklist_balance a t.
Proof.
  rewrite flood_message_to_trace, blacklist_balance_app.
  induction (filter _ peers) as [|d r IH]; simpl; lia.
Qed.

Lemma blacklist_step_refl s s' :
  addr (sm s') = addr (sm s) -> STEERING_state_ (sm s') = STEERING_state_ (sm s) ->
  (forall a, blacklist_balance a (tr s') = blacklist_balance a (tr s)) ->
  blacklist_step s s'.
Proof.
  intros Ha Hs Ht. split; [exact Ha|]. intros a. rewrite Ht, Hs.
  destruct (mac_eqb _ _); lia.
Qed.

Lemma blacklist_step_trans s1 s2 s3 :
  blacklist_step s1 s2 -> blacklist_step s2 s3 -> blacklist_step s1 s3.
Proof.
  intros [Ha1 H1] [Ha2 H2]. split; [congruence|]. intros a.
  rewrite H2, H1, Ha1. destruct (mac_eqb _ _); lia.
Qed.

Lemma blacklist_step_do_Event h e s :
  blacklist_step s (sm_STEERING_do_Event h MODE_FORCE e s).
Proof.
  split.
  - exact (proj1 (proj2 (do_Event_frame h MODE_FORCE e s))).
  - intros a. open_cstate s; destruct e; sm_unfold; unfold rejects;
      cbn [rejecting_or_rejected];
      try destruct (dot11MgmtOptionBSSTransitionActivated _ =? 1); cbv beta iota;
      repeat first [rewrite blacklist_balance_flood | rewrite blacklist_balance_app];
      cbn [blacklist_balance]; destruct (mac_eqb _ a); lia.
Qed.

Lemma blacklist_step_do_flood_score h now s : blacklist_step s (do_flood_score h now s).
Proof.
  apply blacklist_step_refl; rewrite ?do_flood_score_sm; try reflexivity.
  intros a. unfold do_flood_score. destruct (_ =? _); [reflexivity|].
  cbv beta iota zeta delta [header_put_next flood_message tr sm sn].
  apply blacklist_balance_flood.
Qed.

Lemma blacklist_step_compare_scores h v s :
  blacklist_step s (compare_scores h MODE_FORCE v s).
Proof. rewrite compare_scores_dispatch. apply blacklist_step_do_Event. Qed.

Lemma blacklist_step_client_disassociate h s :
  blacklist_step s (client_disassociate h MODE_FORCE s).
Proof.
  apply (blacklist_step_trans _ _ _ (blacklist_step_do_Event h STEERING_E_DISASSOCIATED s)).
  apply blacklist_step_refl; reflexivity.
Qed.

Lemma blacklist_step_receive_score_client now bssid v msecs h s :
  blacklist_step s (receive_score_client now bssid v msecs h MODE_FORCE s).
Proof.
  unfold receive_score_client.
  destruct (negb _); [|apply blacklist_step_compare_scores].
  destruct (os_time_before _ _); [|apply blacklist_step_refl; reflexivity].
  destruct (client_is_associated (sm s)).
  - apply (blacklist_step_trans _ _ _ (blacklist_step_client_disassociate h s)).
    apply blacklist_step_refl; reflexivity.
  - eapply blacklist_step_trans; [|apply blacklist_step_compare_scores].
    apply blacklist_step_refl; reflexivity.
Qed.

Lemma client_find_put_in_other l c a :
  a <> addr c -> client_find_in (client_put_in l c) a = client_find_in l a.
Proof.
  intros Hne. induction l as [|x r IH]; simpl; [reflexivity|].
  destruct (mac_eqb (addr c) (addr x)) eqn:E; simpl.
  - apply mac_eqb_eq in E.
    replace (mac_eqb a (addr c)) with false by (symmetry; apply mac_eqb_neq; exact Hne).
    replace (mac_eqb a (addr x)) with false
      by (symmetry; apply mac_eqb_neq; congruence).
    reflexivity.
  - rewrite IH. reflexivity.
Qed.

(** Working on a client of the registry keeps the blacklist in line when
    the work is a [blacklist_step]. *)
Lemma blacklist_on_client w c f :
  client_find (bss w) (addr c) = Some c ->
  blacklist_step (mk_cstate c (frame_sn (bss w)) (trace w))
    (f (hapd (bss w)) (mode (bss w)) (mk_cstate c (frame_sn (bss w)) (trace w))) ->
  blacklist_in_line w -> blacklist_in_line (on_client w c f).
Proof.
  intros Hf [Ha Hb] Hw a. cbn [sm tr] in Ha, Hb.
  rewrite on_client_trace, Hb, (Hw a).
  destruct (mac_eqb (addr c) a) eqn:E.
  - apply mac_eqb_eq in E. subst a. rewrite Hf.
    rewrite on_client_find; [lia | rewrite Hf; discriminate | exact Ha].
  - apply mac_eqb_neq in E. unfold on_client, client_find. cbn [bss clients].
    rewrite client_find_put_in_other by congruence.
    fold (client_find (bss w) a). lia.
Qed.

Lemma blacklist_find_or_create alloc w a c w1 :
  client_find_or_create alloc w a = Some (c, w1) ->
  blacklist_in_line w -> blacklist_in_line w1.
Proof.
  unfold client_find_or_create, client_create.
  destruct (client_find (bss w) a) as [c0|] eqn:E; [intros [= _ <-]; tauto|].
  destruct alloc; [|discriminate]. intros [= _ <-] Hw x.
  cbn [trace]. rewrite (Hw x).
  change (client_find (bss (mk_world (set_clients (client_new a :: clients (bss w)) (bss w))
                              (trace w))) x)
    with (if mac_eqb x a then Some (client_new a) else client_find (bss w) x).
  destruct (mac_eqb x a) eqn:Ex; [|reflexivity].
  apply mac_eqb_eq in Ex. subst x. rewrite E. reflexivity.
Qed.

Lemma force_on_client w c f a :
  client_find (bss w) a = Some c ->
  (forall h s, addr (sm s) = a -> blacklist_step s (f h MODE_FORCE s)) ->
  force_and_in_line w -> force_and_in_line (on_client w c f).
Proof.
  intros Hf Hstep [Hm Hw].
  assert (Haddr : addr c = a) by exact (client_find_in_addr _ _ _ Hf).
  split; [exact Hm|]. apply blacklist_on_client; [rewrite Haddr; exact Hf | | exact Hw].
  rewrite Hm. apply Hstep. exact Haddr.
Qed.

Lemma force_find_or_create alloc w a c w1 :
  client_find_or_create alloc w a = Some (c, w1) ->
  force_and_in_line w -> force_and_in_line w1 /\ client_find (bss w1) a = Some c.
Proof.
  intros E [Hm Hw].
  destruct (client_find_or_create_found _ _ _ _ _ E) as (Hf & _).
  destruct (client_find_or_create_Forall (fun _ => True) _ _ _ _ _
              ltac:(apply Forall_forall; intros; exact I) I E) as (_ & _ & _ & Hmode & _).
  split; [|exact Hf]. split; [congruence | exact (blacklist_find_or_create _ _ _ _ _ E Hw)].
Qed.

Lemma force_receive_score alloc now a b v msecs w :
  force_and_in_line w -> force_and_in_line (receive_score alloc now a b v msecs w).
Proof.
  intros Hw. unfold receive_score.
  destruct (client_find_or_create alloc w a) as [[c w1]|] eqn:E; [|exact Hw].
  destruct (force_find_or_create _ _ _ _ _ E Hw) as [H1 Hf].
  apply (force_on_client w1 c _ a Hf); [|exact H1].
  intros h s _. apply blacklist_step_receive_score_client.
Qed.

Lemma force_step i w : force_and_in_line w -> force_and_in_line (step i w).
Proof.
  intros Hw.
  destruct i as [alloc now sa bssid rssi|alloc now buf|alloc now st rssi|st|now a|a|a];
    cbn [step].
  - unfold probe_req_cb. destruct (_ || _); [|exact Hw].
    destruct (client_find_or_create alloc w sa) as [[c w1]|] eqn:E; [|exact Hw].
    destruct (force_find_or_create _ _ _ _ _ E Hw) as [H1 Hf].
    apply (force_on_client w1 c _ sa Hf); [|exact H1].
    intros h s _. cbv zeta.
    assert (H : blacklist_step s
                  (if negb (compute_score rssi =? score (sm s))
                   then if client_is_associated (sm (upd (set_score (compute_score rssi)) s))
                        then do_flood_score h now (upd (set_score (compute_score rssi)) s)
                        else upd (set_score (compute_score rssi)) s
                   else s)).
    { destruct (negb _); [|apply blacklist_step_refl; reflexivity].
      destruct (client_is_associated _); [|apply blacklist_step_refl; reflexivity].
      eapply blacklist_step_trans; [|apply blacklist_step_do_flood_score].
      apply blacklist_step_refl; reflexivity. }
    destruct (negb (client_is_associated _)); [|exact H].
    eapply blacklist_step_trans; [exact H|]. apply blacklist_step_refl; reflexivity.
  - apply (receive_keeps force_and_in_line); [| | |exact Hw].
    + intros. apply force_receive_score. assumption.
    + intros a b t ch w' Hw'. unfold receive_close_client.
      destruct (mac_eqb _ _); [|exact Hw'].
      destruct (client_find (bss w') a) as [c|] eqn:Ef; [|exact Hw'].
      apply (force_on_client w' c _ a Ef); [|exact Hw'].
      intros h s _. cbv zeta.
      eapply blacklist_step_trans; [|apply blacklist_step_do_Event].
      apply blacklist_step_refl; reflexivity.
    + intros a t w' Hw'. unfold receive_closed_client.
      destruct (mac_eqb _ _); [|exact Hw'].
      destruct (client_find (bss w') a) as [c|] eqn:Ef; [|exact Hw'].
      apply (force_on_client w' c _ a Ef); [|exact Hw'].
      intros h s _. apply blacklist_step_do_Event.
  - unfold net_steering_association.
    destruct (client_find_or_create alloc w (sta_addr st)) as [[c w1]|] eqn:E; [|exact Hw].
    destruct (force_find_or_create _ _ _ _ _ E Hw) as [H1 Hf].
    apply (force_on_client w1 c _ (sta_addr st) Hf); [|exact H1].
    intros h s Ha. cbv zeta.
    eapply blacklist_step_trans; [|apply blacklist_step_do_Event].
    eapply blacklist_step_trans; [|apply blacklist_step_do_flood_score].
    apply blacklist_step_refl; [cbn; symmetry; exact Ha | reflexivity | reflexivity].
  - unfold net_steering_disassociation.
    destruct (client_find (bss w) (sta_addr st)) as [c|] eqn:Ef; [|exact Hw].
    apply (force_on_client w c _ _ Ef); [|exact Hw].
    intros h s _. apply blacklist_step_client_disassociate.
  - unfold fire. destruct (client_find (bss w) a) as [c|] eqn:Ef; [|exact Hw].
    destruct (0 <? _)%nat; [|exact Hw].
    apply (force_on_client w c _ a Ef); [|exact Hw].
    intros h s _. unfold flood_score. cbv zeta.
    eapply blacklist_step_trans; [|apply blacklist_step_refl; reflexivity].
    eapply blacklist_step_trans; [|apply blacklist_step_do_flood_score].
    apply blacklist_step_refl; reflexivity.
  - unfold fire. destruct (client_find (bss w) a) as [c|] eqn:Ef; [|exact Hw].
    destruct (0 <? _)%nat; [|exact Hw].
    apply (force_on_client w c _ a Ef); [|exact Hw].
    intros h s _. unfold client_timeout. cbv zeta.
    eapply blacklist_step_trans; [|apply blacklist_step_do_Event].
    apply blacklist_step_refl; reflexivity.
  - unfold fire. destruct (client_find (bss w) a) as [c|] eqn:Ef; [|exact Hw].
    destruct (0 <? _)%nat; [|exact Hw].
    apply (force_on_client w c _ a Ef); [|exact Hw].
    intros h s _. apply blacklist_step_refl; reflexivity.
Qed.

(** X21: in [MODE_FORCE], along every sequence of callbacks, a MAC is on
    the blacklist (one call of [blacklist_add] more than of
    [blacklist_remove]) exactly while its client is in
    [STEERING_REJECTING] or [STEERING_REJECTED]; for every other client, and
    for a MAC without an entry, adds and removes are level.  No client is
    blacklisted twice over, and none stays blacklisted after it has left
    the two states. *)
Theorem blacklist_follows_the_state (inputs : list input) (w : world) :
  mode (bss w) = MODE_FORCE ->
  blacklist_in_line w ->
  blacklist_in_line (run inputs w).
Proof.
  intros Hm Hw.
  exact (proj2 (run_keeps force_and_in_line force_step inputs w (conj Hm Hw))).
Qed.

Lemma blacklist_follows_the_state_witness :
  let inputs := [I_receive true (mk_os_time 200 0) (score_frame_with_version 1);
                 I_client_timeout sta_K;
                 I_association true (mk_os_time 300 0) (mk_sta_info sta_K 0) (-40);
                 I_receive true (mk_os_time 301 0)
                   (close_client_frame hapd_B K_confirming_at_B 0)] in
  let w := world_of hapd_A MODE_FORCE [] in
  filter is_blacklist_call (trace (run inputs w)) =
    [hostapd_ctrl_iface_blacklist_add sta_K; hostapd_ctrl_iface_blacklist_rm sta_K;
     hostapd_ctrl_iface_blacklist_add sta_K] /\
  map STEERING_state_ (clients (bss (run inputs w))) = [STEERING_REJECTING] /\
  blacklist_in_line (run inputs w).
Proof.
  cbv zeta. split; [reflexivity|]. split; [reflexivity|].
  apply (blacklist_follows_the_state
           [I_receive true (mk_os_time 200 0) (score_frame_with_version 1);
            I_client_timeout sta_K;
            I_association true (mk_os_time 300 0) (mk_sta_info sta_K 0) (-40);
            I_receive true (mk_os_time 301 0)
              (close_client_frame hapd_B K_confirming_at_B 0)]
           (world_of hapd_A MODE_FORCE []) eq_refl).
  intros a. reflexivity.
Defined.
